(** * wahl-bot frontend: session continuity and background-job tracking

    A shallow embedding of the pieces of the React client that carry state
    across suspension points:

    - [services/authService.js]: the [AuthService] singleton (login,
      proactive refresh timer, single-flight refresh, [apiRequest] with one
      retry on 401, logout, logout from all devices, the session list);
    - [components/SideBar.jsx]: the task tracker (the polling [useEffect],
      [pollTaskStatus] and the two submit handlers), together with
      [getProgramList] of [contexts/ProgramContext.jsx];
    - around them: [AuthProvider] of [contexts/AuthContext.jsx] with
      [ProtectedRoute] and [LoginPage]; the conversations [ProgramContext]
      keeps and [handleSubmit] of [components/ChatInput.jsx]; the plain-text
      test of [components/Message.jsx].

    JavaScript runs one task at a time; an [async] function gives up control
    only at an [await].  The embedding therefore threads one [World] through
    state-passing functions, and splits an operation in two where a property
    depends on what happens while its network call is outstanding. *)

From Stdlib Require Import ZArith Ascii String.
From stdpp Require Import gmap strings list fin_maps.

Local Open Scope string_scope.

(** ** JavaScript values *)

(** The scalars that reach the session and the tracker: [null], [undefined]
    (an absent JSON field, a fresh [let]) and strings. *)
Inductive jsval :=
| JNull
| JUndefined
| JString (s : string).

#[global] Instance jsval_eq_dec : EqDecision jsval.
Proof. solve_decision. Defined.

(** [if (v)], [v && ...], [v || ...]: the empty string is falsy. *)
Definition truthy (v : jsval) : bool :=
  match v with
  | JNull | JUndefined => false
  | JString s => negb (String.eqb s "")
  end.

(** [v === "lit"]; on these values [v == "lit"] decides the same. *)
Definition strict_eq (v : jsval) (lit : string) : bool :=
  match v with
  | JString s => String.eqb s lit
  | _ => false
  end.

(** [a || b] *)
Definition js_or (a b : jsval) : jsval := if truthy a then a else b.

(** [`${v}`] *)
Definition template (v : jsval) : string :=
  match v with
  | JNull => "null"
  | JUndefined => "undefined"
  | JString s => s
  end.

(** Exceptions.  [fetch] rejects with a [TypeError] when the network call
    itself fails, [response.json()] with a [SyntaxError] on a malformed body,
    reading a property of [undefined] raises a [TypeError], and the service
    throws plain [Error]s.  [HttpError] stands for an error object that
    carries a [response] with a [status] (the shape [pollTaskStatus] probes
    with [e.response?.status]). *)
Inductive js_error :=
| Error (message : string)
| TypeError (message : string)
| SyntaxError (message : string)
| HttpError (response_status : Z) (message : string).

#[global] Instance js_error_eq_dec : EqDecision js_error.
Proof. solve_decision. Defined.

Definition message (e : js_error) : string :=
  match e with
  | Error m | TypeError m | SyntaxError m | HttpError _ m => m
  end.

(** [e.response?.status] *)
Definition response_status (e : js_error) : option Z :=
  match e with
  | HttpError s _ => Some s
  | _ => None
  end.

(** ** HTTP *)

Module Json.
(** A parsed JSON object, seen through the fields the client reads.  An
    absent field is [JUndefined] ([None] for the number and the array). *)
Record t := {
  access_token : jsval;
  expires_in : option Z;
  task_id : jsval;
  status : jsval;
  error : jsval;
  programs : option (list string)
}.

Definition empty : t :=
  {| access_token := JUndefined; expires_in := None; task_id := JUndefined;
     status := JUndefined; error := JUndefined; programs := None |}.

Definition token (tok : string) (exp : Z) : t :=
  {| access_token := JString tok; expires_in := Some exp; task_id := JUndefined;
     status := JUndefined; error := JUndefined; programs := None |}.

Definition task (id st : string) : t :=
  {| access_token := JUndefined; expires_in := None; task_id := JString id;
     status := JString st; error := JUndefined; programs := None |}.

Definition listing (names : list string) : t :=
  {| access_token := JUndefined; expires_in := None; task_id := JUndefined;
     status := JUndefined; error := JUndefined; programs := Some names |}.
End Json.

#[global] Instance json_eq_dec : EqDecision Json.t.
Proof. solve_decision. Defined.

Inductive payload :=
| FormData (entries : list (string * string))
| JsonText (fields : list (string * string)).

#[global] Instance payload_eq_dec : EqDecision payload.
Proof. solve_decision. Defined.

(** The [options] argument of [apiRequest]. *)
Record options := {
  method : option string;
  headers : gmap string string;
  body : option payload
}.

(** Which function issued a [fetch]; bookkeeping only, no code reads it. *)
Inductive origin :=
| ByLogin
| ByRefresh
| ByRequest
| ByLogout.

#[global] Instance origin_eq_dec : EqDecision origin.
Proof. solve_decision. Defined.

Record request := {
  req_origin : origin;
  req_url : string;
  req_method : option string;
  req_headers : gmap string string;
  req_body : option payload;
  req_credentials : string
}.

Module Http.
(** [json = None]: the body does not parse as a JSON object. *)
Record response := {
  status : Z;
  json : option Json.t
}.

(** [response.ok] *)
Definition ok (r : response) : bool :=
  ((200 <=? status r) && (status r <=? 299))%Z.
End Http.

Inductive fetch_outcome :=
| NetworkFailure
| Responds (r : Http.response).

(** The remote side: what the [n]-th [fetch] of a run gets back. *)
Definition Server := nat -> request -> fetch_outcome.

(** *** Remote sides used in the scenarios *)

Definition answer (status : Z) (json : option Json.t) : fetch_outcome :=
  Responds {| Http.status := status; Http.json := json |}.

(** Every request succeeds; the token endpoints report expiry [e]. *)
Definition srv_expiry (e : Z) : Server :=
  fun _ _ => answer 200 (Some (Json.token "t1" e)).

(** Login and refresh succeed; every request of a caller is answered 401. *)
Definition srv_unauthorized : Server :=
  fun _ r =>
    match req_origin r with
    | ByLogin => answer 200 (Some (Json.token "t1" 300))
    | ByRefresh => answer 200 (Some (Json.token "t2" 300))
    | ByRequest => answer 401 None
    | ByLogout => answer 200 None
    end.

(** The refresh endpoint cannot be reached; everything else works. *)
Definition srv_refresh_offline : Server :=
  fun _ r =>
    match req_origin r with
    | ByRefresh => NetworkFailure
    | ByLogin => answer 200 (Some (Json.token "t1" 1800))
    | _ => answer 200 None
    end.

(** The ingest call hands out task "j1" in [processing]; the status lookup
    of "j1" is answered by [poll]; program listings succeed. *)
Definition srv_tasks (poll : nat -> fetch_outcome) : Server :=
  fun n r =>
    if String.eqb (req_url r) "/api/program/ingest"
    then answer 200 (Some (Json.task "j1" "processing"))
    else if String.eqb (req_url r) "/api/tasks/j1" then poll n
    else answer 200 (Some (Json.listing ["a"])).

(** The delay the specification words give for the proactive refresh,
    [expiresIn - max(60, 0.2 * expiresIn)] seconds, in the milliseconds
    [setTimeout] counts: a fifth of a second is 200 ms, so the value is exact
    on whole seconds. *)
Definition spec_refresh_delay_ms (expiresIn : Z) : Z :=
  (1000 * expiresIn - Z.max (1000 * 60) (200 * expiresIn))%Z.

(** Every request meets the same fate. *)
Definition srv_always (o : fetch_outcome) : Server := fun _ _ => o.

(** ** The world *)

Inductive callback :=
| RefreshCallback
| PollCallback (id : jsval).

#[global] Instance callback_eq_dec : EqDecision callback.
Proof. solve_decision. Defined.

(** An entry of the window's timer table ([setTimeout] / [setInterval]). *)
Record timer := {
  tm_callback : callback;
  tm_delay : Z;
  tm_repeat : bool
}.

(** The promise made by the refresh closure: pending on the [fetch] it
    issued (as the [n]-th of the run), or settled. *)
Inductive promise :=
| Pending (n : nat)
| Fulfilled (data : Json.t)
| Rejected (e : js_error).

Record AuthService := {
  accessToken : jsval;
  tokenRefreshTimeout : option positive;
  _refreshPromise : option positive
}.

Record SideBar := {
  taskId : jsval;
  taskStatus : jsval;
  error : jsval;
  loading : bool;
  programAction : string;
  programName : string;
  selectedProgram : jsval;
  file : option string;
  pollIntervall : option positive;
  effect_deps : option (jsval * jsval)
}.

(** A call of [pollTaskStatus] whose status request is unanswered: the task
    it asks about, the headers it sent and the position of its [fetch]. *)
Record poll := {
  poll_id : jsval;
  poll_headers : gmap string string;
  poll_fetch : nat
}.

(** Timer handles are positive integers handed out in increasing order, so a
    handle is always truthy. *)
Record Window := {
  timers : gmap positive timer;
  next_timer : positive;
  promises : gmap positive promise;
  next_promise : positive;
  catch_handlers : list positive;
  fetch_log : list request;
  location_href : option string;
  logout_calls : nat;
  detached_logouts : list nat;
  outstanding_polls : list poll;
  programList : list string
}.

Record World := {
  auth : AuthService;
  ui : SideBar;
  win : Window
}.

Definition on_auth (f : AuthService -> AuthService) (w : World) : World :=
  {| auth := f (auth w); ui := ui w; win := win w |}.
Definition on_ui (f : SideBar -> SideBar) (w : World) : World :=
  {| auth := auth w; ui := f (ui w); win := win w |}.
Definition on_win (f : Window -> Window) (w : World) : World :=
  {| auth := auth w; ui := ui w; win := f (win w) |}.

Definition set_accessToken (v : jsval) (a : AuthService) : AuthService :=
  {| accessToken := v; tokenRefreshTimeout := tokenRefreshTimeout a;
     _refreshPromise := _refreshPromise a |}.
Definition set_tokenRefreshTimeout (h : option positive) (a : AuthService) : AuthService :=
  {| accessToken := accessToken a; tokenRefreshTimeout := h;
     _refreshPromise := _refreshPromise a |}.
Definition set_refreshPromise (p : option positive) (a : AuthService) : AuthService :=
  {| accessToken := accessToken a; tokenRefreshTimeout := tokenRefreshTimeout a;
     _refreshPromise := p |}.

Definition set_taskId (v : jsval) (s : SideBar) : SideBar :=
  {| taskId := v; taskStatus := taskStatus s; error := error s; loading := loading s;
     programAction := programAction s; programName := programName s;
     selectedProgram := selectedProgram s; file := file s;
     pollIntervall := pollIntervall s;
     effect_deps := effect_deps s |}.
Definition set_taskStatus (v : jsval) (s : SideBar) : SideBar :=
  {| taskId := taskId s; taskStatus := v; error := error s; loading := loading s;
     programAction := programAction s; programName := programName s;
     selectedProgram := selectedProgram s; file := file s;
     pollIntervall := pollIntervall s;
     effect_deps := effect_deps s |}.
Definition set_error (v : jsval) (s : SideBar) : SideBar :=
  {| taskId := taskId s; taskStatus := taskStatus s; error := v; loading := loading s;
     programAction := programAction s; programName := programName s;
     selectedProgram := selectedProgram s; file := file s;
     pollIntervall := pollIntervall s;
     effect_deps := effect_deps s |}.
Definition set_loading (b : bool) (s : SideBar) : SideBar :=
  {| taskId := taskId s; taskStatus := taskStatus s; error := error s; loading := b;
     programAction := programAction s; programName := programName s;
     selectedProgram := selectedProgram s; file := file s;
     pollIntervall := pollIntervall s;
     effect_deps := effect_deps s |}.
Definition set_programAction (a : string) (s : SideBar) : SideBar :=
  {| taskId := taskId s; taskStatus := taskStatus s; error := error s; loading := loading s;
     programAction := a; programName := programName s;
     selectedProgram := selectedProgram s; file := file s;
     pollIntervall := pollIntervall s;
     effect_deps := effect_deps s |}.
Definition set_programName (n : string) (s : SideBar) : SideBar :=
  {| taskId := taskId s; taskStatus := taskStatus s; error := error s; loading := loading s;
     programAction := programAction s; programName := n;
     selectedProgram := selectedProgram s; file := file s;
     pollIntervall := pollIntervall s;
     effect_deps := effect_deps s |}.
Definition set_selectedProgram (v : jsval) (s : SideBar) : SideBar :=
  {| taskId := taskId s; taskStatus := taskStatus s; error := error s; loading := loading s;
     programAction := programAction s; programName := programName s;
     selectedProgram := v; file := file s; pollIntervall := pollIntervall s;
     effect_deps := effect_deps s |}.
Definition set_file (f : option string) (s : SideBar) : SideBar :=
  {| taskId := taskId s; taskStatus := taskStatus s; error := error s; loading := loading s;
     programAction := programAction s; programName := programName s;
     selectedProgram := selectedProgram s; file := f; pollIntervall := pollIntervall s;
     effect_deps := effect_deps s |}.
Definition set_effect (h : option positive) (deps : jsval * jsval) (s : SideBar) : SideBar :=
  {| taskId := taskId s; taskStatus := taskStatus s; error := error s; loading := loading s;
     programAction := programAction s; programName := programName s;
     selectedProgram := selectedProgram s; file := file s; pollIntervall := h;
     effect_deps := Some deps |}.

Definition set_timers (t : gmap positive timer) (n : positive) (b : Window) : Window :=
  {| timers := t; next_timer := n; promises := promises b;
     next_promise := next_promise b; catch_handlers := catch_handlers b;
     fetch_log := fetch_log b; location_href := location_href b;
     logout_calls := logout_calls b; detached_logouts := detached_logouts b;
     outstanding_polls := outstanding_polls b; programList := programList b |}.
Definition set_promises (p : gmap positive promise) (n : positive) (b : Window) : Window :=
  {| timers := timers b; next_timer := next_timer b; promises := p;
     next_promise := n; catch_handlers := catch_handlers b;
     fetch_log := fetch_log b; location_href := location_href b;
     logout_calls := logout_calls b; detached_logouts := detached_logouts b;
     outstanding_polls := outstanding_polls b; programList := programList b |}.
Definition set_catch_handlers (l : list positive) (b : Window) : Window :=
  {| timers := timers b; next_timer := next_timer b; promises := promises b;
     next_promise := next_promise b; catch_handlers := l;
     fetch_log := fetch_log b; location_href := location_href b;
     logout_calls := logout_calls b; detached_logouts := detached_logouts b;
     outstanding_polls := outstanding_polls b; programList := programList b |}.
Definition set_fetch_log (l : list request) (b : Window) : Window :=
  {| timers := timers b; next_timer := next_timer b; promises := promises b;
     next_promise := next_promise b; catch_handlers := catch_handlers b;
     fetch_log := l; location_href := location_href b;
     logout_calls := logout_calls b; detached_logouts := detached_logouts b;
     outstanding_polls := outstanding_polls b; programList := programList b |}.
Definition set_location_href (u : string) (b : Window) : Window :=
  {| timers := timers b; next_timer := next_timer b; promises := promises b;
     next_promise := next_promise b; catch_handlers := catch_handlers b;
     fetch_log := fetch_log b; location_href := Some u;
     logout_calls := logout_calls b; detached_logouts := detached_logouts b;
     outstanding_polls := outstanding_polls b; programList := programList b |}.
Definition set_logouts (calls : nat) (detached : list nat) (b : Window) : Window :=
  {| timers := timers b; next_timer := next_timer b; promises := promises b;
     next_promise := next_promise b; catch_handlers := catch_handlers b;
     fetch_log := fetch_log b; location_href := location_href b;
     logout_calls := calls; detached_logouts := detached;
     outstanding_polls := outstanding_polls b; programList := programList b |}.
Definition set_outstanding_polls (l : list poll) (b : Window) : Window :=
  {| timers := timers b; next_timer := next_timer b; promises := promises b;
     next_promise := next_promise b; catch_handlers := catch_handlers b;
     fetch_log := fetch_log b; location_href := location_href b;
     logout_calls := logout_calls b; detached_logouts := detached_logouts b;
     outstanding_polls := l; programList := programList b |}.
Definition set_programList (l : list string) (b : Window) : Window :=
  {| timers := timers b; next_timer := next_timer b; promises := promises b;
     next_promise := next_promise b; catch_handlers := catch_handlers b;
     fetch_log := fetch_log b; location_href := location_href b;
     logout_calls := logout_calls b; detached_logouts := detached_logouts b;
     outstanding_polls := outstanding_polls b; programList := l |}.

(** [new AuthService()], a freshly mounted [SideBar] whose effect ran once
    with [taskId = null], and an idle window. *)
Definition init : World :=
  {| auth := {| accessToken := JNull; tokenRefreshTimeout := None;
                _refreshPromise := None |};
     ui := {| taskId := JNull; taskStatus := JNull; error := JNull;
              loading := false; programAction := ""; programName := "";
              selectedProgram := JNull; file := None; pollIntervall := None;
              effect_deps := Some (JNull, JNull) |};
     win := {| timers := ∅; next_timer := 1%positive; promises := ∅;
               next_promise := 1%positive; catch_handlers := [];
               fetch_log := []; location_href := None;
               logout_calls := 0; detached_logouts := []; outstanding_polls := [];
               programList := [] |} |}.

(** ** State of the other components *)

Module AuthContext.
(** What [AuthProvider] holds: [isAuthenticated], [user] ([None] is [null])
    and [loading]. *)
Record t := {
  isAuthenticated : bool;
  user : option Json.t;
  loading : bool
}.

(** [useState(false)], [useState(null)], [useState(true)] *)
Definition initial : t :=
  {| isAuthenticated := false; user := None; loading := true |}.

Definition setIsAuthenticated (b : bool) (c : t) : t :=
  {| isAuthenticated := b; user := user c; loading := loading c |}.
Definition setUser (u : option Json.t) (c : t) : t :=
  {| isAuthenticated := isAuthenticated c; user := u; loading := loading c |}.
Definition setLoading (b : bool) (c : t) : t :=
  {| isAuthenticated := isAuthenticated c; user := user c; loading := b |}.
End AuthContext.

(** What a route guard puts on the screen. *)
Inductive rendering :=
| ShowLoadingStatus
| NavigateTo (path : string)
| ShowChildren.

Definition ProtectedRoute (c : AuthContext.t) : rendering :=
  if AuthContext.loading c then ShowLoadingStatus
  else if negb (AuthContext.isAuthenticated c) then NavigateTo "/login"
  else ShowChildren.

Module LoginPage.
(** The form's state, and where [navigate] was last told to go. *)
Record t := {
  username : string;
  password : string;
  error : jsval;
  navigated : option string
}.

(** [useState('')], [useState('')], [useState(null)] *)
Definition initial : t :=
  {| username := EmptyString; password := EmptyString; error := JNull;
     navigated := None |}.

Definition setError (v : jsval) (pg : t) : t :=
  {| username := username pg; password := password pg; error := v;
     navigated := navigated pg |}.
Definition navigate (path : string) (pg : t) : t :=
  {| username := username pg; password := password pg; error := error pg;
     navigated := Some path |}.
End LoginPage.

Module Chat.
(** A message of a conversation.  [key] is the number React lists it under;
    what is sent to the server carries none, and there is none either where
    the arithmetic behind it gives [NaN]. *)
Record message := {
  role : string;
  content : string;
  key : option nat
}.

(** [({ key, ...m }) => m] *)
Definition strip (m : message) : message :=
  {| role := role m; content := content m; key := None |}.

(** [m.key = k] *)
Definition with_key (k : nat) (m : message) : message :=
  {| role := role m; content := content m; key := Some k |}.
End Chat.

(** [chatHistory]: program name to the messages of its conversation. *)
Abbreviation chat_history := (gmap string (list Chat.message)).

(** [Array.isArray(prev[program]) ? prev[program] : []]: the conversation
    kept under the program's name, a property read turning its key into a
    string; what is read and is no array counts as no conversation. *)
Definition selectedHistory (program : jsval) (chatHistory : chat_history)
    : list Chat.message :=
  default [] (chatHistory !! template program).

(** [chatHistory] is a plain object, so a read by a name it has no entry
    for goes on to [Object.prototype].  These are its members, each with
    the [length] a read of it gives: the arity of a function, and none for
    the object under [__proto__]. *)
Definition Object_prototype : gmap string (option nat) :=
  list_to_map
    [("constructor", Some 1); ("__defineGetter__", Some 2);
     ("__defineSetter__", Some 2); ("hasOwnProperty", Some 1);
     ("__lookupGetter__", Some 1); ("__lookupSetter__", Some 1);
     ("isPrototypeOf", Some 1); ("propertyIsEnumerable", Some 1);
     ("toString", Some 0); ("valueOf", Some 0); ("__proto__", None);
     ("toLocaleString", Some 0)].

(** What [chatHistory?.[selectedProgram] ?? []] gives. *)
Inductive history_read :=
| Conversation (messages : list Chat.message)
| Inherited (length : option nat).

(** The program's own conversation; without one, the member of
    [Object.prototype] of that name, which is neither [null] nor
    [undefined]; and [[]] when there is neither. *)
Definition read_history (program : jsval) (chatHistory : chat_history)
    : history_read :=
  match chatHistory !! template program with
  | Some messages => Conversation messages
  | None =>
      match Object_prototype !! template program with
      | Some len => Inherited len
      | None => Conversation []
      end
  end.

(** The updater [addToChatHistory] hands to [setChatHistory]. *)
Definition addToChatHistory (m : Chat.message) (program : jsval)
    (prev : chat_history) : chat_history :=
  if truthy program
  then <[template program := (selectedHistory program prev ++ [m])%list]> prev
  else prev.

(** The updater [removeFromChatHistory] hands to [setChatHistory]. *)
Definition removeFromChatHistory (program : jsval) (prev : chat_history)
    : chat_history :=
  if truthy program then delete (template program) prev else prev.

(** [l.slice(-n)] *)
Definition slice_last {A} (n : nat) (l : list A) : list A :=
  drop (length l - n) l.

Module ChatInput.
Record t := {
  question : string;
  error : string;
  loading : bool
}.

(** [useState("")], [useState("")], [useState(false)] *)
Definition initial : t :=
  {| question := EmptyString; error := EmptyString; loading := false |}.

Definition setQuestion (q : string) (c : t) : t :=
  {| question := q; error := error c; loading := loading c |}.
Definition setError (e : string) (c : t) : t :=
  {| question := question c; error := e; loading := loading c |}.
Definition setLoading (b : bool) (c : t) : t :=
  {| question := question c; error := error c; loading := b |}.
End ChatInput.

(** *** [String.prototype.trim]

    Text is UTF-8 here.  ECMAScript's white space and line terminators are
    TAB, LF, VT, FF, CR, SP (one byte each), U+00A0 (two bytes), and U+1680,
    U+2000 to U+200A, U+2028, U+2029, U+202F, U+205F, U+3000, U+FEFF (three
    bytes each). *)
Definition white1 (c : ascii) : bool :=
  let n := N_of_ascii c in
  ((9 <=? n) && (n <=? 13) || (n =? 32))%N.

Definition white2 (c1 c2 : ascii) : bool :=
  ((N_of_ascii c1 =? 194) && (N_of_ascii c2 =? 160))%N.

Definition white3 (c1 c2 c3 : ascii) : bool :=
  let a := N_of_ascii c1 in
  let b := N_of_ascii c2 in
  let c := N_of_ascii c3 in
  ((a =? 225) && (b =? 154) && (c =? 128)
   || (a =? 226) && (b =? 128)
      && ((128 <=? c) && (c <=? 138) || (c =? 168) || (c =? 169) || (c =? 175))
   || (a =? 226) && (b =? 129) && (c =? 159)
   || (a =? 227) && (b =? 128) && (c =? 128)
   || (a =? 239) && (b =? 187) && (c =? 191))%N.

(** White space is dropped from the front; [back] reads the bytes of each
    character in reverse, for a text that was turned around. *)
Fixpoint trim_front (back : bool) (s : string) : string :=
  match s with
  | String c1 s1 =>
      if white1 c1 then trim_front back s1
      else
        match s1 with
        | String c2 s2 =>
            if (if back then white2 c2 c1 else white2 c1 c2) then trim_front back s2
            else
              match s2 with
              | String c3 s3 =>
                  if (if back then white3 c3 c2 c1 else white3 c1 c2 c3)
                  then trim_front back s3
                  else s
              | EmptyString => s
              end
        | EmptyString => s
        end
  | EmptyString => s
  end.

Definition trimStart (s : string) : string := trim_front false s.
Definition trimEnd (s : string) : string :=
  String.rev (trim_front true (String.rev s)).
Definition trim (s : string) : string := trimEnd (trimStart s).

(** *** [Message]: the plain-text fast path *)

(** [[^>]+>]: [seen] tells whether a character was taken already. *)
Fixpoint tag_rest (seen : bool) (s : string) : bool :=
  match s with
  | String c s' => if Ascii.eqb c ">" then seen else tag_rest true s'
  | EmptyString => false
  end.

(** [<[^>]+>] matches at the start of [s]. *)
Definition tag_here (s : string) : bool :=
  match s with
  | String c s' => Ascii.eqb c "<" && tag_rest false s'
  | EmptyString => false
  end.

(** [/<[^>]+>/i.test(content)]: there is a match at some position. *)
Fixpoint looksLikeHtml (content : string) : bool :=
  tag_here content ||
  match content with
  | String _ s' => looksLikeHtml s'
  | EmptyString => false
  end.

(** ** Control: state and exceptions *)

Inductive completion (A : Type) :=
| Return (a : A)
| Throw (e : js_error).
Arguments Return {A} a.
Arguments Throw {A} e.

Definition M (A : Type) : Type := World -> completion A * World.

Definition ret {A} (a : A) : M A := fun w => (Return a, w).
Definition throw {A} (e : js_error) : M A := fun w => (Throw e, w).
Definition bind {A B} (m : M A) (k : A -> M B) : M B :=
  fun w => match m w with
           | (Return a, w') => k a w'
           | (Throw e, w') => (Throw e, w')
           end.
(** [try { m } catch (e) { h e }] *)
Definition try_catch {A} (m : M A) (h : js_error -> M A) : M A :=
  fun w => match m w with
           | (Return a, w') => (Return a, w')
           | (Throw e, w') => h e w'
           end.
Definition gets {A} (f : World -> A) : M A := fun w => (Return (f w), w).
Definition modify (f : World -> World) : M unit := fun w => (Return tt, f w).
Definition when (b : bool) (m : M unit) : M unit := if b then m else ret tt.

Declare Scope js_scope.
Delimit Scope js_scope with js.
Notation "x <- m ;; k" := (bind m (fun x => k))
  (at level 100, m at next level, right associativity) : js_scope.
Notation "m ;; k" := (bind m (fun _ => k))
  (at level 100, right associativity) : js_scope.
Local Open Scope js_scope.

(** The world an operation leaves behind, and what it completes with. *)
Definition exec {A} (m : M A) (w : World) : World := snd (m w).
Definition eval {A} (m : M A) (w : World) : completion A := fst (m w).

(** ** The client *)

Section Client.

(** [API_BASE_URL] is imported from [util.js] ("/api" behind the Vite proxy);
    [srv] is the remote side. *)
Variable API_BASE_URL : string.
Variable srv : Server.

(** *** Window primitives *)

(** A [fetch] is issued: it is appended to the log, and its position is what
    the remote side answers to. *)
Definition issue (r : request) : M nat :=
  fun w => let n := length (fetch_log (win w)) in
           (Return n, on_win (set_fetch_log (fetch_log (win w) ++ [r])) w).

(** What [await] on the [n]-th fetch yields. *)
Definition response_to (n : nat) (r : request) : M Http.response :=
  match srv n r with
  | NetworkFailure => throw (TypeError "Failed to fetch")
  | Responds resp => ret resp
  end.

(** [await fetch(...)] *)
Definition fetch (r : request) : M Http.response :=
  n <- issue r ;; response_to n r.

(** [await response.json()] *)
Definition json (r : Http.response) : M Json.t :=
  match Http.json r with
  | Some data => ret data
  | None => throw (SyntaxError "Unexpected token in JSON")
  end.

Definition arm (cb : callback) (delay : Z) (repeat : bool) : M positive :=
  fun w => let t := next_timer (win w) in
           (Return t,
            on_win (set_timers
                      (<[t := {| tm_callback := cb; tm_delay := delay;
                                 tm_repeat := repeat |}]> (timers (win w)))
                      (Pos.succ t)) w).

Definition setTimeout (cb : callback) (delay : Z) : M positive := arm cb delay false.
Definition setInterval (cb : callback) (delay : Z) : M positive := arm cb delay true.

(** Clearing a handle that is not in the table does nothing. *)
Definition clearTimeout (t : positive) : M unit :=
  modify (on_win (fun b => set_timers (delete t (timers b)) (next_timer b) b)).
Definition clearInterval (t : positive) : M unit := clearTimeout t.

Definition new_promise (st : promise) : M positive :=
  fun w => let p := next_promise (win w) in
           (Return p, on_win (set_promises (<[p := st]> (promises (win w))) (Pos.succ p)) w).

Definition settle (p : positive) (st : promise) : M unit :=
  modify (on_win (fun b => set_promises (<[p := st]> (promises b)) (next_promise b) b)).

(** *** AuthService *)

Definition logout_request : request :=
  {| req_origin := ByLogout; req_url := API_BASE_URL +:+ "/auth/logout";
     req_method := Some "POST"; req_headers := ∅; req_body := None;
     req_credentials := "include" |}.

(** [logout()] up to its [await]: the revocation request is sent. *)
Definition logout_begin : M nat :=
  n <- issue logout_request ;;
  modify (on_win (fun b => set_logouts (S (logout_calls b)) (detached_logouts b) b)) ;;
  ret n.

(** [logout()] after its [await]: a rejection is caught and logged, then the
    local state is cleared. *)
Definition logout_resume (n : nat) : M unit :=
  try_catch (response_to n logout_request ;; ret tt) (fun _ => ret tt) ;;
  modify (on_auth (set_accessToken JNull)) ;;
  h <- gets (fun w => tokenRefreshTimeout (auth w)) ;;
  match h with
  | Some t => clearTimeout t ;; modify (on_auth (set_tokenRefreshTimeout None))
  | None => ret tt
  end.

(** [await this.logout()] *)
Definition logout : M unit :=
  n <- logout_begin ;; logout_resume n.

(** [this.logout()] without [await]: the caller goes on while the request is
    outstanding; the rest runs when the response arrives. *)
Definition logout_detached : M unit :=
  n <- logout_begin ;;
  modify (on_win (fun b => set_logouts (logout_calls b) (detached_logouts b ++ [n]) b)).

Definition redirect_to_login : M unit :=
  modify (on_win (set_location_href "/login")).

Definition scheduleTokenRefresh (delay : Z) : M unit :=
  h <- gets (fun w => tokenRefreshTimeout (auth w)) ;;
  match h with
  | Some t => clearTimeout t
  | None => ret tt
  end ;;
  t <- setTimeout RefreshCallback delay ;;
  modify (on_auth (set_tokenRefreshTimeout (Some t))).

(** [data.expires_in || 30 * 60] *)
Definition expiresIn (data : Json.t) : Z :=
  match Json.expires_in data with
  | Some n => if (n =? 0)%Z then 30 * 60 else n
  | None => 30 * 60
  end%Z.

(** [Math.max(60, Math.floor(expiresIn * 0.2))].  On whole seconds the
    double product floors to the integer quotient by 5. *)
Definition refreshBefore (expiresIn : Z) : Z := Z.max 60 (expiresIn / 5).

(** [(expiresIn - refreshBefore) * 1000], in milliseconds *)
Definition refreshIn (expiresIn : Z) : Z :=
  ((expiresIn - refreshBefore expiresIn) * 1000)%Z.

Definition login_request (username password : string) : request :=
  {| req_origin := ByLogin; req_url := API_BASE_URL +:+ "/auth/token";
     req_method := Some "POST"; req_headers := ∅;
     req_body := Some (FormData [("username", username); ("password", password)]);
     req_credentials := "include" |}.

Definition login (username password : string) : M Json.t :=
  response <- fetch (login_request username password) ;;
  if negb (Http.ok response) then throw (Error "Login failed")
  else
    data <- json response ;;
    modify (on_auth (set_accessToken (Json.access_token data))) ;;
    scheduleTokenRefresh (refreshIn (expiresIn data)) ;;
    ret data.

Definition refresh_request : request :=
  {| req_origin := ByRefresh; req_url := API_BASE_URL +:+ "/auth/refresh";
     req_method := Some "POST"; req_headers := ∅; req_body := None;
     req_credentials := "include" |}.

(** [refreshAccessToken()] up to the first [await]: either the promise in
    flight is handed back, or the closure starts (its [fetch] is issued) and
    its promise becomes the in-flight marker. *)
Definition refreshAccessToken : M positive :=
  inflight <- gets (fun w => _refreshPromise (auth w)) ;;
  match inflight with
  | Some p => ret p
  | None =>
      n <- issue refresh_request ;;
      p <- new_promise (Pending n) ;;
      modify (on_auth (set_refreshPromise (Some p))) ;;
      ret p
  end.

(** The closure of [refreshAccessToken] from its [await fetch] on. *)
Definition refresh_closure (n : nat) : M Json.t :=
  response <- response_to n refresh_request ;;
  if negb (Http.ok response) then
    modify (on_auth (set_refreshPromise None)) ;;
    throw (Error "Token refresh failed")
  else
    data <- json response ;;
    modify (on_auth (set_accessToken (Json.access_token data))) ;;
    scheduleTokenRefresh (refreshIn (expiresIn data)) ;;
    modify (on_auth (set_refreshPromise None)) ;;
    ret data.

(** The [.catch] that the scheduled callback hangs on the refresh. *)
Definition scheduled_refresh_failed : M unit :=
  logout_detached ;; redirect_to_login.

Fixpoint run_catch_handlers (p : positive) (hs : list positive) : M unit :=
  match hs with
  | [] => ret tt
  | q :: hs' =>
      when (bool_decide (q = p)) scheduled_refresh_failed ;;
      run_catch_handlers p hs'
  end.

(** The response to the refresh [fetch] behind promise [p] arrives: the
    closure runs to its end and [p] settles; on rejection the handlers
    waiting on [p] run. *)
Definition refresh_responds (p : positive) : M unit :=
  st <- gets (fun w => promises (win w) !! p) ;;
  match st with
  | Some (Pending n) =>
      try_catch
        (data <- refresh_closure n ;; settle p (Fulfilled data))
        (fun e =>
           settle p (Rejected e) ;;
           hs <- gets (fun w => catch_handlers (win w)) ;;
           modify (on_win (set_catch_handlers (filter (fun q => q ≠ p) hs))) ;;
           run_catch_handlers p hs)
  | _ => ret tt
  end.

(** [await p] for the promise [refreshAccessToken()] handed back. *)
Definition await_refresh (p : positive) : M Json.t :=
  refresh_responds p ;;
  st <- gets (fun w => promises (win w) !! p) ;;
  match st with
  | Some (Fulfilled data) => ret data
  | Some (Rejected e) => throw e
  | _ => throw (Error "await on an unknown promise")
  end.

Definition lower (c : ascii) : ascii :=
  let n := N_of_ascii c in
  if ((65 <=? n) && (n <=? 90))%N then ascii_of_N (n + 32) else c.

Fixpoint starts_with_ci (pat s : string) : bool :=
  match pat, s with
  | EmptyString, _ => true
  | String a pat', String b s' => Ascii.eqb a (lower b) && starts_with_ci pat' s'
  | String _ _, EmptyString => false
  end.

(** [/^https?:\/\//i.test(url)] *)
Definition is_http_url (url : string) : bool :=
  starts_with_ci "http://" url || starts_with_ci "https://" url.

Definition resolve (url : string) : string :=
  if is_http_url url then url
  else if String.prefix API_BASE_URL url then url
  else if String.prefix "/" url then API_BASE_URL +:+ url
  else API_BASE_URL +:+ "/" +:+ url.

(** [if (this.accessToken) headers['Authorization'] = `Bearer ${...}`] *)
Definition authorize (hs : gmap string string) : M (gmap string string) :=
  tok <- gets (fun w => accessToken (auth w)) ;;
  ret (if truthy tok then <["Authorization" := "Bearer " +:+ template tok]> hs else hs).

(** [fetch(fullUrl, {...options, headers, credentials: 'include'})] *)
Definition outgoing (url : string) (o : options) (hs : gmap string string) : request :=
  {| req_origin := ByRequest; req_url := resolve url; req_method := method o;
     req_headers := hs; req_body := body o; req_credentials := "include" |}.

Definition apiRequest (url : string) (o : options) : M Http.response :=
  hs <- authorize (headers o) ;;
  response <- fetch (outgoing url o hs) ;;
  if (Http.status response =? 401)%Z then
    try_catch
      (p <- refreshAccessToken ;;
       await_refresh p ;;
       hs' <- authorize hs ;;
       fetch (outgoing url o hs'))
      (fun e => logout_detached ;; redirect_to_login ;; throw e)
  else ret response.

(** [apiRequest] from the answer to its first [fetch] on. *)
Definition after_first_fetch (url : string) (o : options)
    (hs : gmap string string) (n : nat) : M Http.response :=
  response <- response_to n (outgoing url o hs) ;;
  if (Http.status response =? 401)%Z then
    try_catch
      (p <- refreshAccessToken ;;
       await_refresh p ;;
       hs' <- authorize hs ;;
       fetch (outgoing url o hs'))
      (fun e => logout_detached ;; redirect_to_login ;; throw e)
  else ret response.

Definition logoutAllDevices : M unit :=
  apiRequest "/auth/logout-all" {| method := Some "POST"; headers := ∅; body := None |} ;;
  logout.

(** The scheduled callback: [this.refreshAccessToken().catch(...)]. *)
Definition refresh_timer_fires : M unit :=
  p <- refreshAccessToken ;;
  st <- gets (fun w => promises (win w) !! p) ;;
  match st with
  | Some (Pending _) =>
      modify (on_win (fun b => set_catch_handlers (catch_handlers b ++ [p]) b))
  | Some (Rejected _) => scheduled_refresh_failed
  | _ => ret tt
  end.

(** *** ProgramContext *)

Definition GET : options := {| method := Some "GET"; headers := ∅; body := None |}.

Definition getProgramList : M unit :=
  resp <- apiRequest (API_BASE_URL +:+ "/program/list") GET ;;
  response <- json resp ;;
  match Json.programs response with
  | Some ps => modify (on_win (set_programList ps))
  | None => throw (TypeError "Cannot read properties of undefined (reading 'map')")
  end.

(** *** SideBar *)

Definition setTaskId (v : jsval) : M unit := modify (on_ui (set_taskId v)).
Definition setTaskStatus (v : jsval) : M unit := modify (on_ui (set_taskStatus v)).
Definition setError (v : jsval) : M unit := modify (on_ui (set_error v)).
Definition setLoading (b : bool) : M unit := modify (on_ui (set_loading b)).
Definition setProgramAction (a : string) : M unit := modify (on_ui (set_programAction a)).
Definition setProgramName (n : string) : M unit := modify (on_ui (set_programName n)).
Definition setSelectedProgram (v : jsval) : M unit := modify (on_ui (set_selectedProgram v)).
Definition setFile (f : option string) : M unit := modify (on_ui (set_file f)).

Definition status_url (id : jsval) : string :=
  API_BASE_URL +:+ "/tasks/" +:+ template id.

(** [pollTaskStatus(id)] up to its first [await], the [fetch] inside
    [apiRequest]: the status request is sent. *)
Definition pollTaskStatus (id : jsval) : M unit :=
  hs <- authorize (headers GET) ;;
  n <- issue (outgoing (status_url id) GET hs) ;;
  modify (on_win (fun b =>
    set_outstanding_polls
      (outstanding_polls b ++ [{| poll_id := id; poll_headers := hs; poll_fetch := n |}])
      b)).

(** The [try] block of [pollTaskStatus], from the answer to that request
    on. *)
Definition pollTaskStatus_try (k : poll) : M unit :=
  resp <- after_first_fetch (status_url (poll_id k)) GET (poll_headers k) (poll_fetch k) ;;
  response <- json resp ;;
  let status := Json.status response in
  let task_id := Json.task_id response in
  let taskError := Json.error response in
  setTaskStatus status ;;
  if strict_eq status "completed" && truthy task_id then
    getProgramList ;;
    setLoading false ;;
    setTaskStatus (JString "completed") ;;
    setProgramAction "" ;;
    setProgramName ""
  else if strict_eq status "failed" || truthy taskError then
    setError (js_or taskError (JString "Program task failed")) ;;
    setLoading false ;;
    setProgramAction "" ;;
    setSelectedProgram (JString "")
  else ret tt.

(** Its [catch (e)] block. *)
Definition pollTaskStatus_catch (e : js_error) : M unit :=
  if bool_decide (response_status e <> Some 404%Z) then
    setError (JString ("Failed to check Program status: " +:+ message e)) ;;
    setLoading false ;;
    setProgramAction "" ;;
    setSelectedProgram (JString "")
  else ret tt.

(** The rest of a [pollTaskStatus] call, run when the answer to its status
    request arrives. *)
Definition pollTaskStatus_resume (k : poll) : M unit :=
  try_catch (pollTaskStatus_try k) pollTaskStatus_catch.

(** [error?.message || fallback] *)
Definition message_or (e : js_error) (fallback : string) : jsval :=
  js_or (JString (message e)) (JString fallback).

(** The two handlers call [pollTaskStatus(task_id)] without [await]: the
    status request goes out and the handler ends; the statements after the
    call touch only modal and chat state, which is not part of this
    world. *)
Definition handleNewProgramSubmit : M unit :=
  f <- gets (fun w => file (ui w)) ;;
  name <- gets (fun w => programName (ui w)) ;;
  match f with
  | None => ret tt
  | Some f =>
      if String.eqb name "" then ret tt
      else
        setProgramAction "ingest" ;;
        setLoading true ;;
        setError JNull ;;
        try_catch
          (apiRequest (API_BASE_URL +:+ "/program/upload")
             {| method := Some "POST"; headers := ∅;
                body := Some (FormData [("program_name", name); ("file", f)]) |} ;;
           ret tt)
          (fun err => setError (JString ("Failed to upload program: " +:+ message err))) ;;
        try_catch
          (resp <- apiRequest (API_BASE_URL +:+ "/program/ingest")
                     {| method := Some "POST";
                        headers := {[ "Content-Type" := "application/json" ]};
                        body := Some (JsonText [("program_name", name)]) |} ;;
           response <- json resp ;;
           setTaskId (Json.task_id response) ;;
           setTaskStatus (Json.status response) ;;
           pollTaskStatus (Json.task_id response))
          (fun e =>
             setLoading false ;;
             setError (message_or e "An error occurred while ingesting the program."))
  end.

Definition handleDeleteProgram (name : string) : M unit :=
  try_catch
    (setLoading true ;;
     setProgramAction "delete" ;;
     resp <- apiRequest (API_BASE_URL +:+ "/program/delete/" +:+ name)
               {| method := Some "DELETE"; headers := ∅; body := None |} ;;
     response <- json resp ;;
     setTaskId (Json.task_id response) ;;
     setTaskStatus (Json.status response) ;;
     pollTaskStatus (Json.task_id response))
    (fun e =>
       setLoading false ;;
       setError (message_or e "An error occurred while deleting the program.")).

(** The polling [useEffect], as React runs it after a render: nothing when
    [[taskId, taskStatus]] are what the last run saw; otherwise the cleanup
    of the last run, then the body. *)
Definition useEffect : M unit :=
  deps <- gets (fun w => (taskId (ui w), taskStatus (ui w))) ;;
  last <- gets (fun w => effect_deps (ui w)) ;;
  if bool_decide (last = Some deps) then ret tt
  else
    old <- gets (fun w => pollIntervall (ui w)) ;;
    match old with
    | Some h => clearInterval h
    | None => ret tt
    end ;;
    if truthy (fst deps) && strict_eq (snd deps) "processing" then
      h <- setInterval (PollCallback (fst deps)) 5000 ;;
      modify (on_ui (set_effect (Some h) deps))
    else modify (on_ui (set_effect None deps)).

(** *** The event loop *)

(** A timer comes due.  A handle that was cleared is no longer in the table
    and nothing runs; a timeout leaves the table when it runs, an interval
    stays. *)
Definition timer_fires (t : positive) : M unit :=
  tm <- gets (fun w => timers (win w) !! t) ;;
  match tm with
  | None => ret tt
  | Some tm =>
      when (negb (tm_repeat tm)) (clearTimeout t) ;;
      match tm_callback tm with
      | RefreshCallback => refresh_timer_fires
      | PollCallback id => pollTaskStatus id
      end
  end.

(** The answer to the [i]-th unanswered status request arrives (answers may
    overtake each other). *)
Definition poll_responds (i : nat) : M unit :=
  ks <- gets (fun w => outstanding_polls (win w)) ;;
  match ks !! i with
  | None => ret tt
  | Some k =>
      modify (on_win (set_outstanding_polls (delete i ks))) ;;
      pollTaskStatus_resume k
  end.

(** The response to the oldest detached [logout()] arrives. *)
Definition logout_responds : M unit :=
  l <- gets (fun w => detached_logouts (win w)) ;;
  match l with
  | [] => ret tt
  | n :: l' =>
      modify (on_win (fun b => set_logouts (logout_calls b) l' b)) ;;
      logout_resume n
  end.

Inductive event :=
| Login (username password : string)
| Logout
| LogoutAllDevices
| RefreshCalled
| RefreshResponds (p : positive)
| LogoutResponds
| ApiRequest (url : string) (o : options)
| TimerFires (t : positive)
| PollResponds (i : nat)
| ProgramNameTyped (name : string)
| FileChosen (f : option string)
| ProgramSubmitted
| DeleteConfirmed (name : string).

Definition handle (ev : event) : M unit :=
  match ev with
  | Login u p => login u p ;; ret tt
  | Logout => logout
  | LogoutAllDevices => logoutAllDevices
  | RefreshCalled => refreshAccessToken ;; ret tt
  | RefreshResponds p => refresh_responds p
  | LogoutResponds => logout_responds
  | ApiRequest url o => apiRequest url o ;; ret tt
  | TimerFires t => timer_fires t
  | PollResponds i => poll_responds i
  | ProgramNameTyped name => setProgramName name
  | FileChosen f => setFile f
  | ProgramSubmitted => handleNewProgramSubmit
  | DeleteConfirmed name => handleDeleteProgram name
  end.

(** One turn of the loop: the task runs (what it throws is its caller's to
    drop), then React commits and the effect runs. *)
Definition react (ev : event) : M unit :=
  try_catch (handle ev) (fun _ => ret tt) ;; useEffect.

Definition run (evs : list event) (w : World) : World :=
  fold_left (fun w ev => exec (react ev) w) evs w.

(** ** Observations and invariants *)

(** The fetches issued between two worlds of one run. *)
Definition issued (w w' : World) : list request :=
  drop (length (fetch_log (win w))) (fetch_log (win w')).

Definition by_origin (o : origin) (l : list request) : list request :=
  filter (fun r => req_origin r = o) l.

(** The proactive refresh timers that are armed. *)
Definition refresh_timers (w : World) : gmap positive timer :=
  filter (fun kv => tm_callback kv.2 = RefreshCallback) (timers (win w)).

Definition is_pending (st : promise) : bool :=
  match st with
  | Pending _ => true
  | _ => false
  end.

(** The refresh calls that are outstanding. *)
Definition outstanding_refreshes (w : World) : gmap positive promise :=
  filter (fun kv => is_pending kv.2 = true) (promises (win w)).

(** An interval that polls the tracked task is armed. *)
Definition polling_active (w : World) : Prop :=
  exists t tm, timers (win w) !! t = Some tm /\
               tm_callback tm = PollCallback (taskId (ui w)).

(** The session state that [logout] is about. *)
Definition local_session (w : World) : AuthService * gmap positive timer :=
  (auth w, timers (win w)).

(** [n] callers enter [refreshAccessToken()] one after the other, before any
    response arrives. *)
Fixpoint concurrent_calls (n : nat) : M (list positive) :=
  match n with
  | O => ret []
  | S n' =>
      p <- refreshAccessToken ;;
      ps <- concurrent_calls n' ;;
      ret (p :: ps)
  end.


(** What holds of every world the event loop reaches. *)
Record wf (w : World) : Prop := {
  wf_timers_fresh : forall t, is_Some (timers (win w) !! t) ->
    (t < next_timer (win w))%positive;
  wf_handle_fresh : forall t, tokenRefreshTimeout (auth w) = Some t ->
    (t < next_timer (win w))%positive;
  wf_interval_fresh : forall h, pollIntervall (ui w) = Some h ->
    (h < next_timer (win w))%positive;
  wf_handles_apart : forall t, tokenRefreshTimeout (auth w) = Some t ->
    pollIntervall (ui w) <> Some t;
  wf_refresh_owned : forall t tm, timers (win w) !! t = Some tm ->
    tm_callback tm = RefreshCallback ->
    tokenRefreshTimeout (auth w) = Some t /\ tm_repeat tm = false;
  wf_poll_owned : forall t tm id, timers (win w) !! t = Some tm ->
    tm_callback tm = PollCallback id -> pollIntervall (ui w) = Some t;
  wf_poll_armed : forall h, pollIntervall (ui w) = Some h ->
    exists a b, effect_deps (ui w) = Some (a, b) /\
      timers (win w) !! h = Some {| tm_callback := PollCallback a;
                                    tm_delay := 5000; tm_repeat := true |} /\
      truthy a && strict_eq b "processing" = true;
  wf_poll_idle : pollIntervall (ui w) = None ->
    exists a b, effect_deps (ui w) = Some (a, b) /\
      truthy a && strict_eq b "processing" = false;
  wf_inflight : forall p n, promises (win w) !! p = Some (Pending n) ->
    _refreshPromise (auth w) = Some p;
  wf_marker_known : forall p, _refreshPromise (auth w) = Some p ->
    is_Some (promises (win w) !! p);
  wf_promises_fresh : forall p, is_Some (promises (win w) !! p) ->
    (p < next_promise (win w))%positive;
  wf_rejections_plain : forall p e, promises (win w) !! p = Some (Rejected e) ->
    response_status e = None
}.

(** The effect has run on the current [taskId] and [taskStatus]. *)
Definition committed (w : World) : Prop :=
  effect_deps (ui w) = Some (taskId (ui w), taskStatus (ui w)).

(** The part of the world [wf] reads. *)
Definition core (w : World) :=
  (tokenRefreshTimeout (auth w), _refreshPromise (auth w),
   pollIntervall (ui w), effect_deps (ui w),
   timers (win w), next_timer (win w),
   promises (win w), next_promise (win w)).

Definition preserves {A} (I : World -> Prop) (m : M A) : Prop :=
  forall w, I w -> I (exec m w).

(** The local session once [logout] has cleared it. *)
Definition cleared (w : World) : AuthService * gmap positive timer :=
  ({| accessToken := JNull; tokenRefreshTimeout := None;
      _refreshPromise := _refreshPromise (auth w) |},
   match tokenRefreshTimeout (auth w) with
   | Some t => delete t (timers (win w))
   | None => timers (win w)
   end).

(** An operation [respects] a relation when every run of it relates the
    world before to the world after. *)
Definition respects {A} (R : World -> World -> Prop) (m : M A) : Prop :=
  forall w, R w (exec m w).

(** The log only grows. *)
Definition grows (w w' : World) : Prop :=
  exists l, fetch_log (win w') = (fetch_log (win w) ++ l)%list.

(** What the tracker can see of the world. *)
Definition tracker_view (w : World) :=
  (taskId (ui w), taskStatus (ui w), pollIntervall (ui w), effect_deps (ui w),
   outstanding_polls (win w)).

(** A step of the session alone: it sends no request of a caller's and
    leaves the tracker as it is. *)
Definition quiet (w w' : World) : Prop :=
  (exists l, fetch_log (win w') = (fetch_log (win w) ++ l)%list /\
             by_origin ByRequest l = []) /\
  tracker_view w' = tracker_view w /\
  logout_calls (win w) <= logout_calls (win w').

(** A step that leaves the tracker as it is (it may send a caller's
    request). *)
Definition calm (w w' : World) : Prop :=
  grows w w' /\
  tracker_view w' = tracker_view w /\
  logout_calls (win w) <= logout_calls (win w').

(** A step that sends neither a caller's request nor a refresh call. *)
Definition hush (w w' : World) : Prop :=
  exists l, fetch_log (win w') = (fetch_log (win w) ++ l)%list /\
            by_origin ByRequest l = [] /\ by_origin ByRefresh l = [].

(** The headers [authorize] yields in world [w]. *)
Definition authorized (w : World) (hs : gmap string string) : gmap string string :=
  if truthy (accessToken (auth w))
  then <["Authorization" := "Bearer " +:+ template (accessToken (auth w))]> hs
  else hs.

(** Every exception the operation raises is a plain one: it carries no
    [response]. *)
Definition throws_plain {A} (m : M A) : Prop :=
  forall w e, wf w -> eval m w = Throw e -> response_status e = None.

(** The world in which the answer to the [i]-th unanswered status request
    is taken up: the request has left the list. *)
Definition answering (i : nat) (w : World) : World :=
  on_win (set_outstanding_polls (delete i (outstanding_polls (win w)))) w.

(** ** The rest of the client *)

(** *** AuthService, continued *)

(** [options = {}] *)
Definition no_options : options := {| method := None; headers := ∅; body := None |}.

Definition getActiveSessions : M Json.t :=
  response <- apiRequest "/auth/users/me/sessions" no_options ;;
  json response.

(** *** AuthContext *)


(** The context's [login]: what it returns, and the state it leaves.
    What [login] hands back here is a parsed object, which [if (data)] lets
    through; the [return false] behind that test answers as the [catch]
    does, with the context as it was. *)
Definition AuthProvider_login (username password : string) (c : AuthContext.t)
    : M (bool * AuthContext.t) :=
  try_catch
    (login username password ;;
     c' <- try_catch
             (resp <- apiRequest "/auth/users/me/" no_options ;;
              if Http.ok resp then
                u <- json resp ;;
                ret (AuthContext.setUser (Some u) c)
              else ret c)
             (fun _ => ret c) ;;
     ret (true, AuthContext.setIsAuthenticated true c'))
    (fun _ => ret (false, c)).

(** The context's [logout]. *)
Definition AuthProvider_logout (c : AuthContext.t) : M AuthContext.t :=
  logout ;;
  ret (AuthContext.setUser None (AuthContext.setIsAuthenticated false c)).

(** *** LoginPage *)

Definition LoginPage_handleSubmit (c : AuthContext.t) (pg : LoginPage.t)
    : M (AuthContext.t * LoginPage.t) :=
  let pg := LoginPage.setError JNull pg in
  try_catch
    (r <- AuthProvider_login (LoginPage.username pg) (LoginPage.password pg) c ;;
     ret (r.2, LoginPage.navigate "/" pg))
    (fun _ =>
       ret (c, LoginPage.setError (JString "Login failed. Check credentials.") pg)).

(** *** SideBar and the conversations *)

(** [handleDeleteProgram] with the conversations it reaches through
    [removeFromChatHistory]: the state [setChatHistory] is left with. *)
Definition handleDeleteProgram_history (name : string) (chatHistory : chat_history)
    : M chat_history :=
  try_catch
    (setLoading true ;;
     setProgramAction "delete" ;;
     resp <- apiRequest (API_BASE_URL +:+ "/program/delete/" +:+ name)
               {| method := Some "DELETE"; headers := ∅; body := None |} ;;
     response <- json resp ;;
     setTaskId (Json.task_id response) ;;
     setTaskStatus (Json.status response) ;;
     pollTaskStatus (Json.task_id response) ;;
     ret (removeFromChatHistory (JString name) chatHistory))
    (fun e =>
       setLoading false ;;
       setError (message_or e "An error occurred while deleting the program.") ;;
       ret chatHistory).

(** *** ChatInput *)

(** The call [handleSubmit] makes: [apiRequest(url, { method: 'POST',
    headers: { 'Content-Type': 'application/json' },
    body: JSON.stringify({ messages }) })], and the key it gave the
    question. *)
Record chat_call := {
  call_url : string;
  call_messages : list Chat.message;
  call_key : nat
}.

(** [handleSubmit] up to its [await]: the state it leaves and the call it
    makes, if any.  Where [messages] is no array, the spread
    [[...messages, requestMessage]] throws, after the question went into
    the conversations: no call is made, and the state is the one the
    [catch] and the [finally] leave. *)
Definition ChatInput_handleSubmit (selectedProgram : jsval)
    (chatHistory : chat_history) (c : ChatInput.t)
    : ChatInput.t * chat_history * option chat_call :=
  if String.eqb (trim (ChatInput.question c)) "" then
    (ChatInput.setError "Please enter a question" c, chatHistory, None)
  else if ChatInput.loading c then (c, chatHistory, None)
  else
    match read_history selectedProgram chatHistory with
    | Conversation messages =>
        let requestMessage :=
          {| Chat.role := "user"; Chat.content := trim (ChatInput.question c);
             Chat.key := Some (length messages + 1) |} in
        let payloadMessages :=
          map Chat.strip (slice_last 6 (messages ++ [requestMessage])%list) in
        (ChatInput.setLoading true c,
         addToChatHistory requestMessage selectedProgram chatHistory,
         Some {| call_url := API_BASE_URL +:+ "/chat/" +:+ template selectedProgram;
                 call_messages := payloadMessages;
                 call_key := length messages + 1 |})
    | Inherited len =>
        let requestMessage :=
          {| Chat.role := "user"; Chat.content := trim (ChatInput.question c);
             Chat.key := option_map (fun n => n + 1) len |} in
        (ChatInput.setLoading false
           (ChatInput.setError "An error occurred while processing your question."
              (ChatInput.setLoading true c)),
         addToChatHistory requestMessage selectedProgram chatHistory,
         None)
    end.

(** The rest of [handleSubmit], run when the exchange is over: [Some reply]
    when [resp.json()] gave an object with a [message], [None] when
    something in the [try] block threw.  [selectedProgram] is the one of the
    render that made the call, [chatHistory] the state at this time. *)
Definition ChatInput_handleSubmit_resume (selectedProgram : jsval) (k : chat_call)
    (outcome : option Chat.message) (chatHistory : chat_history) (c : ChatInput.t)
    : ChatInput.t * chat_history :=
  match outcome with
  | Some reply =>
      (ChatInput.setLoading false
         (ChatInput.setQuestion "" (ChatInput.setError "" c)),
       addToChatHistory (Chat.with_key (call_key k + 1) reply) selectedProgram
         chatHistory)
  | None =>
      (ChatInput.setLoading false
         (ChatInput.setError "An error occurred while processing your question." c),
       chatHistory)
  end.

(** *** More observations *)

(** The polling intervals that are armed. *)
Definition poll_timers (w : World) : gmap positive timer :=
  filter (fun kv => tm_callback kv.2 <> RefreshCallback) (timers (win w)).

(** A request as the client means to send it: with the cookies, and to an
    absolute address or one under [API_BASE_URL]. *)
Definition well_addressed (r : request) : Prop :=
  req_credentials r = "include" /\
  (is_http_url (req_url r) = true \/ String.prefix API_BASE_URL (req_url r) = true).

(** A step that only adds such requests to the log. *)
Definition sends_well (w w' : World) : Prop :=
  exists l, fetch_log (win w') = (fetch_log (win w) ++ l)%list /\
            Forall well_addressed l.

(** The keys of a conversation count up from 1. *)
Definition keys_in_order (l : list Chat.message) : Prop :=
  map Chat.key l = map Some (seq 1 (length l)).

(** ** Reasoning about operations *)

Ltac unM :=
  unfold bind, ret, throw, gets, modify, try_catch, when, exec, eval in *.

Lemma wf_core w w' : core w = core w' -> wf w -> wf w'.
Proof.
  unfold core. intros [= H1 H2 H3 H4 H5 H6 H7 H8] [].
  constructor; rewrite <- ?H1, <- ?H2, <- ?H3, <- ?H4, <- ?H5, <- ?H6, <- ?H7, <- ?H8;
    assumption.
Qed.

Lemma preserves_ret {A} (I : World -> Prop) (a : A) : preserves I (ret a).
Proof. intros w H. exact H. Qed.

Lemma preserves_throw {A} (I : World -> Prop) e : preserves I (@throw A e).
Proof. intros w H. exact H. Qed.

Lemma preserves_gets {A} (I : World -> Prop) (f : World -> A) : preserves I (gets f).
Proof. intros w H. exact H. Qed.


Lemma preserves_bind {A B} (I : World -> Prop) (m : M A) (k : A -> M B) :
  preserves I m -> (forall a, preserves I (k a)) -> preserves I (bind m k).
Proof.
  intros Hm Hk w H. specialize (Hm w H). unM.
  destruct (m w) as [[a|e] w1]; simpl in *; [apply Hk, Hm | exact Hm].
Qed.

Lemma preserves_try_catch {A} (I : World -> Prop) (m : M A) h :
  preserves I m -> (forall e, preserves I (h e)) -> preserves I (try_catch m h).
Proof.
  intros Hm Hh w H. specialize (Hm w H). unM.
  destruct (m w) as [[a|e] w1]; simpl in *; [exact Hm | apply Hh, Hm].
Qed.

Lemma preserves_when (I : World -> Prop) b m :
  preserves I m -> preserves I (when b m).
Proof. destruct b; intros Hm; [exact Hm | apply preserves_ret]. Qed.

Lemma preserves_core {A} (m : M A) :
  (forall w, core (exec m w) = core w) -> preserves wf m.
Proof. intros Hc w H. apply (wf_core w); [symmetry; apply Hc | exact H]. Qed.

Lemma issue_wf r : preserves wf (issue r).
Proof. apply preserves_core. reflexivity. Qed.

Lemma response_to_wf n r : preserves wf (response_to n r).
Proof. unfold response_to. destruct (srv n r); intros w H; exact H. Qed.

Lemma fetch_wf r : preserves wf (fetch r).
Proof.
  apply preserves_bind; [apply issue_wf | intros; apply response_to_wf].
Qed.

Lemma json_wf r : preserves wf (json r).
Proof. unfold json. destruct (Http.json r); intros w H; exact H. Qed.

Lemma wf_init : wf init.
Proof.
  constructor; simpl; try (intros ? [? H]; rewrite lookup_empty in H; discriminate);
    try (intros; rewrite lookup_empty in *; discriminate); try discriminate.
  - intros _. exists JNull, JNull. split; reflexivity.
Qed.

(** *** The timer table *)

Lemma clearTimeout_wf t w :
  wf w -> pollIntervall (ui w) <> Some t -> wf (exec (clearTimeout t) w).
Proof.
  intros [] Hne. constructor; simpl; try assumption.
  - intros t0 [tm Ht0]. apply lookup_delete_Some in Ht0 as [_ Ht0]. eauto.
  - intros t0 tm Ht0. apply lookup_delete_Some in Ht0 as [_ Ht0]. eauto.
  - intros t0 tm id Ht0. apply lookup_delete_Some in Ht0 as [_ Ht0]. eauto.
  - intros h Hh. destruct (wf_poll_armed0 h Hh) as (a & b & Hd & Hl & Hb).
    exists a, b. split; [exact Hd|]. split; [|exact Hb].
    rewrite lookup_delete_ne; [exact Hl | congruence].
Qed.

Lemma clearTimeout_no_refresh t w :
  wf w -> tokenRefreshTimeout (auth w) = Some t ->
  refresh_timers (exec (clearTimeout t) w) = ∅.
Proof.
  intros [] Ht. unfold refresh_timers. simpl.
  apply map_empty_filter_2. intros t0 tm Ht0 Hcb. simpl in Hcb.
  apply lookup_delete_Some in Ht0 as [Hne Ht0].
  destruct (wf_refresh_owned0 t0 tm Ht0 Hcb) as [Heq _]. congruence.
Qed.

Lemma no_handle_no_refresh w :
  wf w -> tokenRefreshTimeout (auth w) = None -> refresh_timers w = ∅.
Proof.
  intros [] Ht. unfold refresh_timers.
  apply map_empty_filter_2. intros t0 tm Ht0 Hcb. simpl in Hcb.
  destruct (wf_refresh_owned0 t0 tm Ht0 Hcb) as [Heq _]. congruence.
Qed.

(** Arming the refresh timeout in a table that holds none, and keeping its
    handle. *)
Lemma arm_refresh_wf delay w :
  wf w -> refresh_timers w = ∅ ->
  wf (exec (t <- setTimeout RefreshCallback delay ;;
            modify (on_auth (set_tokenRefreshTimeout (Some t)))) w).
Proof.
  intros [] Hnone. unfold refresh_timers in Hnone.
  pose proof (map_empty_filter_1 _ _ Hnone) as Hno. unfold map_Forall in Hno. simpl in Hno.
  constructor; simpl; try assumption.
  - intros t0 Hs. apply lookup_insert_is_Some in Hs as [<- | [_ Hs]]; [lia|].
    specialize (wf_timers_fresh0 _ Hs). lia.
  - intros t0 [= <-]. lia.
  - intros h Hh. specialize (wf_interval_fresh0 _ Hh). lia.
  - intros t0 [= <-] Hh. specialize (wf_interval_fresh0 _ Hh). lia.
  - intros t0 tm Ht0 Hcb. apply lookup_insert_Some in Ht0 as [[<- <-] | [_ Ht0]].
    + split; reflexivity.
    + exfalso. exact (Hno t0 tm Ht0 Hcb).
  - intros t0 tm id Ht0 Hcb. apply lookup_insert_Some in Ht0 as [[<- <-] | [_ Ht0]].
    + discriminate.
    + eauto.
  - intros h Hh. destruct (wf_poll_armed0 h Hh) as (a & b & Hd & Hl & Hb).
    exists a, b. split; [exact Hd|]. split; [|exact Hb].
    rewrite lookup_insert_ne; [exact Hl|].
    specialize (wf_interval_fresh0 _ Hh). lia.
Qed.

Lemma scheduleTokenRefresh_wf delay : preserves wf (scheduleTokenRefresh delay).
Proof.
  intros w H. unfold scheduleTokenRefresh.
  destruct (tokenRefreshTimeout (auth w)) as [t|] eqn:Ht.
  - assert (Hw : wf (exec (clearTimeout t) w)).
    { apply clearTimeout_wf; [exact H | apply (wf_handles_apart _ H), Ht]. }
    pose proof (arm_refresh_wf delay _ Hw (clearTimeout_no_refresh t w H Ht)) as Hw'.
    unM. simpl in *. rewrite Ht. exact Hw'.
  - pose proof (arm_refresh_wf delay _ H (no_handle_no_refresh w H Ht)) as Hw'.
    unM. simpl in *. rewrite Ht. exact Hw'.
Qed.

(** *** Logout *)

Lemma logout_begin_wf : preserves wf logout_begin.
Proof. apply preserves_core. reflexivity. Qed.

Lemma logout_detached_wf : preserves wf logout_detached.
Proof. apply preserves_core. reflexivity. Qed.

Lemma redirect_to_login_wf : preserves wf redirect_to_login.
Proof. apply preserves_core. reflexivity. Qed.

(** What [logout_resume] leaves, whatever the revocation request met. *)
Lemma logout_resume_exec n w :
  exec (logout_resume n) w =
  match tokenRefreshTimeout (auth w) with
  | Some t => on_auth (set_tokenRefreshTimeout None)
                (exec (clearTimeout t) (on_auth (set_accessToken JNull) w))
  | None => on_auth (set_accessToken JNull) w
  end.
Proof.
  unfold logout_resume, response_to. unM.
  destruct (srv n logout_request); simpl;
    destruct (tokenRefreshTimeout (auth w)); reflexivity.
Qed.

Lemma logout_resume_returns n w : eval (logout_resume n) w = Return tt.
Proof.
  unfold logout_resume, response_to. unM.
  destruct (srv n logout_request); simpl;
    destruct (tokenRefreshTimeout (auth w)); reflexivity.
Qed.

Lemma drop_handle_wf w :
  wf w -> refresh_timers w = ∅ -> wf (on_auth (set_tokenRefreshTimeout None) w).
Proof.
  intros [] Hnone.
  pose proof (map_empty_filter_1 _ _ Hnone) as Hno. unfold map_Forall in Hno.
  simpl in Hno.
  constructor; simpl; try assumption; try discriminate.
  intros t tm Ht Hcb. exfalso. exact (Hno t tm Ht Hcb).
Qed.

Lemma logout_resume_wf n : preserves wf (logout_resume n).
Proof.
  intros w H. rewrite logout_resume_exec.
  assert (H0 : wf (on_auth (set_accessToken JNull) w))
    by (apply (wf_core w); [reflexivity | exact H]).
  destruct (tokenRefreshTimeout (auth w)) as [t|] eqn:Ht; [|exact H0].
  apply drop_handle_wf.
  - apply clearTimeout_wf; [exact H0 | apply (wf_handles_apart _ H), Ht].
  - apply clearTimeout_no_refresh; [exact H0 | exact Ht].
Qed.

Lemma logout_wf : preserves wf logout.
Proof.
  apply preserves_bind; [apply logout_begin_wf | intros; apply logout_resume_wf].
Qed.

Lemma logout_responds_wf : preserves wf logout_responds.
Proof.
  intros w H. unfold logout_responds. unM.
  destruct (detached_logouts (win w)) as [|n l]; [exact H|]. simpl.
  apply logout_resume_wf. apply (wf_core w); [reflexivity | exact H].
Qed.

(** *** Refresh *)

Lemma refreshAccessToken_wf : preserves wf refreshAccessToken.
Proof.
  intros w H. unfold refreshAccessToken, issue, new_promise. unM.
  destruct (_refreshPromise (auth w)) as [p|] eqn:Hm; [exact H|]. simpl.
  destruct H. constructor; simpl; try assumption.
  - intros p n Hp. apply lookup_insert_Some in Hp as [[<- _] | [_ Hp]]; [reflexivity|].
    specialize (wf_inflight0 _ _ Hp). congruence.
  - intros p [= <-]. rewrite lookup_insert_eq. eauto.
  - intros p Hs. apply lookup_insert_is_Some in Hs as [<- | [_ Hs]]; [lia|].
    specialize (wf_promises_fresh0 _ Hs). lia.
  - intros p e Hp. apply lookup_insert_Some in Hp as [[_ [=]] | [_ Hp]]. eauto.
Qed.

Lemma scheduled_refresh_failed_wf : preserves wf scheduled_refresh_failed.
Proof.
  apply preserves_bind; [apply logout_detached_wf | intros; apply redirect_to_login_wf].
Qed.

Lemma run_catch_handlers_wf p hs : preserves wf (run_catch_handlers p hs).
Proof.
  induction hs as [|q hs IH]; simpl; [apply preserves_ret|].
  apply preserves_bind; [|intros; exact IH].
  apply preserves_when, scheduled_refresh_failed_wf.
Qed.

(** Settling the promise in flight, with the marker kept or dropped. *)
Lemma settle_wf p n st w :
  wf w -> promises (win w) !! p = Some (Pending n) -> is_pending st = false ->
  (forall e, st = Rejected e -> response_status e = None) ->
  wf (exec (settle p st) w) /\
  wf (exec (settle p st) (on_auth (set_refreshPromise None) w)).
Proof.
  intros [] Hp Hst Hplain. split; constructor; simpl; try assumption.
  - intros q m Hq. apply lookup_insert_Some in Hq as [[_ ->] | [_ Hq]]; [discriminate|].
    eauto.
  - intros q Hq. apply lookup_insert_is_Some'. right. eauto.
  - intros q Hs. apply lookup_insert_is_Some' in Hs as [<- | Hs]; eauto.
  - intros q e Hq. apply lookup_insert_Some in Hq as [[_ ->] | [_ Hq]]; eauto.
  - intros q m Hq. apply lookup_insert_Some in Hq as [[_ ->] | [Hne Hq]]; [discriminate|].
    pose proof (wf_inflight0 _ _ Hq). pose proof (wf_inflight0 _ _ Hp). congruence.
  - discriminate.
  - intros q Hs. apply lookup_insert_is_Some' in Hs as [<- | Hs]; eauto.
  - intros q e Hq. apply lookup_insert_Some in Hq as [[_ ->] | [_ Hq]]; eauto.
Qed.

Lemma scheduleTokenRefresh_frame delay w :
  let w' := exec (scheduleTokenRefresh delay) w in
  promises (win w') = promises (win w) /\
  next_promise (win w') = next_promise (win w) /\
  _refreshPromise (auth w') = _refreshPromise (auth w) /\
  accessToken (auth w') = accessToken (auth w) /\
  ui w' = ui w /\
  fetch_log (win w') = fetch_log (win w) /\
  location_href (win w') = location_href (win w) /\
  logout_calls (win w') = logout_calls (win w) /\
  detached_logouts (win w') = detached_logouts (win w) /\
  catch_handlers (win w') = catch_handlers (win w) /\
  outstanding_polls (win w') = outstanding_polls (win w).
Proof.
  unfold scheduleTokenRefresh. unM.
  destruct (tokenRefreshTimeout (auth w)); simpl; repeat split; reflexivity.
Qed.

Lemma scheduleTokenRefresh_returns delay w :
  eval (scheduleTokenRefresh delay) w = Return tt.
Proof.
  unfold scheduleTokenRefresh. unM.
  destruct (tokenRefreshTimeout (auth w)); reflexivity.
Qed.

Lemma bind_gets {A B} (f : World -> A) (k : A -> M B) w :
  bind (gets f) k w = k (f w) w.
Proof. reflexivity. Qed.

Lemma bind_modify {B} f (k : unit -> M B) w :
  bind (modify f) k w = k tt (f w).
Proof. reflexivity. Qed.

Lemma bind_ret {A B} (a : A) (k : A -> M B) w : bind (ret a) k w = k a w.
Proof. reflexivity. Qed.

(** The closure, case by case. *)
Lemma refresh_closure_eq n w :
  refresh_closure n w =
  match srv n refresh_request with
  | NetworkFailure => (Throw (TypeError "Failed to fetch"), w)
  | Responds response =>
      if Http.ok response then
        match Http.json response with
        | None => (Throw (SyntaxError "Unexpected token in JSON"), w)
        | Some data =>
            (Return data,
             on_auth (set_refreshPromise None)
               (exec (scheduleTokenRefresh (refreshIn (expiresIn data)))
                  (on_auth (set_accessToken (Json.access_token data)) w)))
        end
      else (Throw (Error "Token refresh failed"), on_auth (set_refreshPromise None) w)
  end.
Proof.
  unfold refresh_closure, response_to, json. unM.
  destruct (srv n refresh_request) as [|response]; simpl; [reflexivity|].
  destruct (Http.ok response); simpl; [|reflexivity].
  destruct (Http.json response) as [data|]; simpl; [|reflexivity].
  pose proof (scheduleTokenRefresh_returns (refreshIn (expiresIn data))
                (on_auth (set_accessToken (Json.access_token data)) w)) as Hr.
  unM. destruct (scheduleTokenRefresh _ _) as [r w']. simpl in *. subst r.
  reflexivity.
Qed.

Lemma after_rejection_wf p e w :
  wf (exec (settle p (Rejected e)) w) ->
  wf (exec (settle p (Rejected e) ;;
            hs <- gets (fun w => catch_handlers (win w)) ;;
            modify (on_win (set_catch_handlers (filter (fun q => q <> p) hs))) ;;
            run_catch_handlers p hs) w).
Proof.
  intros H. unM. simpl in *.
  apply (run_catch_handlers_wf p (catch_handlers (win w))).
  eapply wf_core; [|exact H]. reflexivity.
Qed.

Lemma refresh_responds_wf p : preserves wf (refresh_responds p).
Proof.
  intros w H. unfold refresh_responds, exec. rewrite bind_gets.
  destruct (promises (win w) !! p) as [[n| |]|] eqn:Hp; try exact H.
  unfold try_catch, bind at 1. rewrite refresh_closure_eq.
  destruct (srv n refresh_request) as [|response].
  { apply after_rejection_wf. eapply settle_wf; eauto. intros e [= <-]. reflexivity. }
  destruct (Http.ok response).
  2:{ apply after_rejection_wf. eapply settle_wf; eauto. intros e [= <-]. reflexivity. }
  destruct (Http.json response) as [data|].
  2:{ apply after_rejection_wf. eapply settle_wf; eauto. intros e [= <-]. reflexivity. }
  set (w1 := exec (scheduleTokenRefresh (refreshIn (expiresIn data)))
               (on_auth (set_accessToken (Json.access_token data)) w)).
  assert (H1 : wf w1).
  { apply scheduleTokenRefresh_wf. apply (wf_core w); [reflexivity | exact H]. }
  assert (Hp1 : promises (win w1) !! p = Some (Pending n)).
  { unfold w1.
    destruct (scheduleTokenRefresh_frame (refreshIn (expiresIn data))
                (on_auth (set_accessToken (Json.access_token data)) w)) as (-> & _).
    exact Hp. }
  refine (proj2 (settle_wf p n (Fulfilled data) w1 H1 Hp1 eq_refl _)). discriminate.
Qed.

Lemma await_refresh_wf p : preserves wf (await_refresh p).
Proof.
  apply preserves_bind; [apply refresh_responds_wf|]. intros _.
  intros w H. unM. destruct (promises (win w) !! p) as [[| |]|]; exact H.
Qed.

(** *** Requests *)

Lemma authorize_wf hs : preserves wf (authorize hs).
Proof. intros w H. exact H. Qed.

Lemma apiRequest_wf url o : preserves wf (apiRequest url o).
Proof.
  unfold apiRequest.
  apply preserves_bind; [apply authorize_wf | intros hs].
  apply preserves_bind; [apply fetch_wf | intros response].
  destruct (Http.status response =? 401)%Z; [|apply preserves_ret].
  apply preserves_try_catch.
  - apply preserves_bind; [apply refreshAccessToken_wf | intros p].
    apply preserves_bind; [apply await_refresh_wf | intros _].
    apply preserves_bind; [apply authorize_wf | intros hs'].
    apply fetch_wf.
  - intros e.
    apply preserves_bind; [apply logout_detached_wf | intros _].
    apply preserves_bind; [apply redirect_to_login_wf | intros _].
    apply preserves_throw.
Qed.

Lemma login_wf u p : preserves wf (login u p).
Proof.
  unfold login.
  apply preserves_bind; [apply fetch_wf | intros response].
  destruct (negb (Http.ok response)); [apply preserves_throw|].
  apply preserves_bind; [apply json_wf | intros data].
  apply preserves_bind; [apply preserves_core; reflexivity | intros _].
  apply preserves_bind; [apply scheduleTokenRefresh_wf | intros _].
  apply preserves_ret.
Qed.

Lemma logoutAllDevices_wf : preserves wf logoutAllDevices.
Proof.
  apply preserves_bind; [apply apiRequest_wf | intros _; apply logout_wf].
Qed.

Lemma refresh_timer_fires_wf : preserves wf refresh_timer_fires.
Proof.
  unfold refresh_timer_fires.
  apply preserves_bind; [apply refreshAccessToken_wf | intros p].
  intros w H. unfold exec. rewrite bind_gets.
  destruct (promises (win w) !! p) as [[| |]|]; try exact H.
  - apply (wf_core w); [reflexivity | exact H].
  - apply scheduled_refresh_failed_wf, H.
Qed.

(** *** The tracker *)

Lemma getProgramList_wf : preserves wf getProgramList.
Proof.
  unfold getProgramList.
  apply preserves_bind; [apply apiRequest_wf | intros resp].
  apply preserves_bind; [apply json_wf | intros response].
  destruct (Json.programs response); [|apply preserves_throw].
  apply preserves_core. reflexivity.
Qed.

Ltac ui_setter :=
  first [ apply preserves_core; reflexivity | apply preserves_ret | apply preserves_throw ].

Lemma after_first_fetch_wf url o hs n : preserves wf (after_first_fetch url o hs n).
Proof.
  unfold after_first_fetch.
  apply preserves_bind; [apply response_to_wf | intros response].
  destruct (Http.status response =? 401)%Z; [|apply preserves_ret].
  apply preserves_try_catch.
  - apply preserves_bind; [apply refreshAccessToken_wf | intros p].
    apply preserves_bind; [apply await_refresh_wf | intros _].
    apply preserves_bind; [apply authorize_wf | intros hs'].
    apply fetch_wf.
  - intros e.
    apply preserves_bind; [apply logout_detached_wf | intros _].
    apply preserves_bind; [apply redirect_to_login_wf | intros _].
    apply preserves_throw.
Qed.

Lemma pollTaskStatus_wf id : preserves wf (pollTaskStatus id).
Proof.
  unfold pollTaskStatus.
  apply preserves_bind; [apply authorize_wf | intros hs].
  apply preserves_bind; [apply issue_wf | intros n]. ui_setter.
Qed.

Lemma pollTaskStatus_resume_wf k : preserves wf (pollTaskStatus_resume k).
Proof.
  unfold pollTaskStatus_resume, pollTaskStatus_try, pollTaskStatus_catch.
  apply preserves_try_catch.
  - apply preserves_bind; [apply after_first_fetch_wf | intros resp].
    apply preserves_bind; [apply json_wf | intros response]. cbv zeta.
    apply preserves_bind; [ui_setter | intros _].
    destruct (_ && _).
    + apply preserves_bind; [apply getProgramList_wf | intros _].
      repeat (apply preserves_bind; [ui_setter | intros _]). ui_setter.
    + destruct (_ || _); [|ui_setter].
      repeat (apply preserves_bind; [ui_setter | intros _]). ui_setter.
  - intros e. destruct (bool_decide _); [|ui_setter].
    repeat (apply preserves_bind; [ui_setter | intros _]). ui_setter.
Qed.

Lemma poll_responds_wf i : preserves wf (poll_responds i).
Proof.
  intros w H. unfold poll_responds, exec. rewrite bind_gets.
  destruct (outstanding_polls (win w) !! i) as [k|]; [|exact H].
  rewrite bind_modify. apply pollTaskStatus_resume_wf.
  apply (wf_core w); [reflexivity | exact H].
Qed.

Lemma handleNewProgramSubmit_wf : preserves wf handleNewProgramSubmit.
Proof.
  intros w H. unfold handleNewProgramSubmit, exec. rewrite !bind_gets.
  destruct (file (ui w)) as [f|]; [|exact H].
  destruct (String.eqb _ _); [exact H|].
  generalize (programName (ui w)). intros name. revert w H.
  change (preserves wf
    (setProgramAction "ingest" ;; setLoading true ;; setError JNull ;;
     try_catch
       (apiRequest (API_BASE_URL +:+ "/program/upload")
          {| method := Some "POST"; headers := ∅;
             body := Some (FormData [("program_name", name); ("file", f)]) |} ;;
        ret tt)
       (fun err => setError (JString ("Failed to upload program: " +:+ message err))) ;;
     try_catch
       (resp <- apiRequest (API_BASE_URL +:+ "/program/ingest")
                  {| method := Some "POST";
                     headers := {[ "Content-Type" := "application/json" ]};
                     body := Some (JsonText [("program_name", name)]) |} ;;
        response <- json resp ;;
        setTaskId (Json.task_id response) ;;
        setTaskStatus (Json.status response) ;;
        pollTaskStatus (Json.task_id response))
       (fun e =>
          setLoading false ;;
          setError (message_or e "An error occurred while ingesting the program.")))).
  repeat (apply preserves_bind; [ui_setter | intros _]).
  apply preserves_bind.
  - apply preserves_try_catch; [|intros; ui_setter].
    apply preserves_bind; [apply apiRequest_wf | intros; ui_setter].
  - intros _. apply preserves_try_catch.
    + apply preserves_bind; [apply apiRequest_wf | intros resp].
      apply preserves_bind; [apply json_wf | intros response].
      repeat (apply preserves_bind; [ui_setter | intros _]).
      apply pollTaskStatus_wf.
    + intros e. apply preserves_bind; [ui_setter | intros _]. ui_setter.
Qed.

Lemma handleDeleteProgram_wf name : preserves wf (handleDeleteProgram name).
Proof.
  unfold handleDeleteProgram. apply preserves_try_catch.
  - repeat (apply preserves_bind; [ui_setter | intros _]).
    apply preserves_bind; [apply apiRequest_wf | intros resp].
    apply preserves_bind; [apply json_wf | intros response].
    repeat (apply preserves_bind; [ui_setter | intros _]).
    apply pollTaskStatus_wf.
  - intros e. apply preserves_bind; [ui_setter | intros _]. ui_setter.
Qed.

(** What the effect leaves, case by case. *)
Lemma useEffect_exec w :
  exec useEffect w =
  let deps := (taskId (ui w), taskStatus (ui w)) in
  if bool_decide (effect_deps (ui w) = Some deps) then w
  else
    let w1 := match pollIntervall (ui w) with
              | Some h => exec (clearInterval h) w
              | None => w
              end in
    if truthy (taskId (ui w)) && strict_eq (taskStatus (ui w)) "processing" then
      on_ui (set_effect (Some (next_timer (win w1))) deps)
        (exec (setInterval (PollCallback (taskId (ui w))) 5000) w1)
    else on_ui (set_effect None deps) w1.
Proof.
  unfold useEffect, exec. rewrite !bind_gets. cbv zeta.
  destruct (bool_decide _); [reflexivity|]. rewrite bind_gets.
  destruct (pollIntervall (ui w)) as [h|]; simpl;
    destruct (truthy (taskId (ui w)) && strict_eq (taskStatus (ui w)) "processing");
    reflexivity.
Qed.

Lemma useEffect_wf : preserves wf useEffect.
Proof.
  intros w H. rewrite useEffect_exec. cbv zeta.
  destruct (bool_decide _); [exact H|].
  set (w1 := match pollIntervall (ui w) with
             | Some h => exec (clearInterval h) w
             | None => w
             end).
  assert (Hfresh : forall t, is_Some (timers (win w1) !! t) ->
                             (t < next_timer (win w1))%positive).
  { intros t. unfold w1. destruct (pollIntervall (ui w)); simpl.
    - intros [tm Ht]. apply lookup_delete_Some in Ht as [_ Ht].
      apply (wf_timers_fresh _ H). eauto.
    - apply (wf_timers_fresh _ H). }
  assert (Hnext : next_timer (win w1) = next_timer (win w)).
  { unfold w1. destruct (pollIntervall (ui w)); reflexivity. }
  assert (Hauth : auth w1 = auth w).
  { unfold w1. destruct (pollIntervall (ui w)); reflexivity. }
  assert (Hprom : promises (win w1) = promises (win w) /\
                  next_promise (win w1) = next_promise (win w)).
  { unfold w1. destruct (pollIntervall (ui w)); split; reflexivity. }
  assert (Hsub : forall t tm, timers (win w1) !! t = Some tm ->
                              timers (win w) !! t = Some tm).
  { intros t tm. unfold w1. destruct (pollIntervall (ui w)); simpl; [|tauto].
    intros Ht. apply lookup_delete_Some in Ht as [_ Ht]. exact Ht. }
  assert (Hnopoll : forall t tm id, timers (win w1) !! t = Some tm ->
                                    tm_callback tm <> PollCallback id).
  { intros t tm id Ht Hcb. unfold w1 in Ht.
    destruct (pollIntervall (ui w)) as [h|] eqn:Hh; simpl in Ht.
    - apply lookup_delete_Some in Ht as [Hne Ht].
      pose proof (wf_poll_owned _ H _ _ _ Ht Hcb). congruence.
    - pose proof (wf_poll_owned _ H _ _ _ Ht Hcb). congruence. }
  destruct H. destruct Hprom as [Hp1 Hp2].
  destruct (truthy (taskId (ui w)) && strict_eq (taskStatus (ui w)) "processing") eqn:Hg.
  - constructor; simpl; rewrite ?Hauth, ?Hp1, ?Hp2; try assumption.
    + intros t Hs. apply lookup_insert_is_Some in Hs as [<- | [_ Hs]]; [lia|].
      specialize (Hfresh _ Hs). lia.
    + intros t Ht. specialize (wf_handle_fresh0 _ Ht). lia.
    + intros h [= <-]. lia.
    + intros t Ht [= <-]. specialize (wf_handle_fresh0 _ Ht). lia.
    + intros t tm Ht Hcb. apply lookup_insert_Some in Ht as [[<- <-] | [_ Ht]].
      * discriminate.
      * eauto.
    + intros t tm id Ht Hcb. apply lookup_insert_Some in Ht as [[<- <-] | [_ Ht]].
      * reflexivity.
      * exfalso. exact (Hnopoll _ _ _ Ht Hcb).
    + intros h [= <-]. eexists _, _. split; [reflexivity|].
      rewrite lookup_insert_eq. split; [reflexivity | exact Hg].
    + discriminate.
  - constructor; simpl; rewrite ?Hauth, ?Hp1, ?Hp2, ?Hnext; try assumption;
      try discriminate.
    + intros t Hs. rewrite <- Hnext. auto.
    + intros t tm Ht Hcb. eauto.
    + intros t tm id Ht Hcb. exfalso. exact (Hnopoll _ _ _ Ht Hcb).
    + intros _. eexists _, _. split; [reflexivity | exact Hg].
Qed.

Lemma useEffect_committed w : committed (exec useEffect w).
Proof.
  rewrite useEffect_exec. cbv zeta. unfold committed.
  destruct (bool_decide _) eqn:Hd.
  - apply bool_decide_eq_true in Hd. exact Hd.
  - destruct (pollIntervall (ui w));
      destruct (truthy (taskId (ui w)) && strict_eq (taskStatus (ui w)) "processing");
      reflexivity.
Qed.

Lemma timer_fires_wf t : preserves wf (timer_fires t).
Proof.
  intros w H. unfold timer_fires, exec. rewrite bind_gets.
  destruct (timers (win w) !! t) as [tm|] eqn:Ht; [|exact H].
  assert (H1 : wf (exec (when (negb (tm_repeat tm)) (clearTimeout t)) w)).
  { destruct (tm_repeat tm) eqn:Hr; [exact H|]. simpl.
    apply clearTimeout_wf; [exact H|]. intros Hh.
    destruct (wf_poll_armed _ H _ Hh) as (a & b & _ & Hl & _).
    rewrite Ht in Hl. injection Hl as ->. discriminate. }
  revert H1. unfold exec, bind.
  destruct (when (negb (tm_repeat tm)) (clearTimeout t) w) as [[[]|e] w1] eqn:Hw; simpl.
  - intros H1. destruct (tm_callback tm).
    + apply refresh_timer_fires_wf, H1.
    + apply pollTaskStatus_wf, H1.
  - tauto.
Qed.

Lemma handle_wf ev : preserves wf (handle ev).
Proof.
  destruct ev; simpl.
  - apply preserves_bind; [apply login_wf | intros; apply preserves_ret].
  - apply logout_wf.
  - apply logoutAllDevices_wf.
  - apply preserves_bind; [apply refreshAccessToken_wf | intros; apply preserves_ret].
  - apply refresh_responds_wf.
  - apply logout_responds_wf.
  - apply preserves_bind; [apply apiRequest_wf | intros; apply preserves_ret].
  - apply timer_fires_wf.
  - apply poll_responds_wf.
  - ui_setter.
  - ui_setter.
  - apply handleNewProgramSubmit_wf.
  - apply handleDeleteProgram_wf.
Qed.

Lemma react_wf ev : preserves wf (react ev).
Proof.
  apply preserves_bind; [|intros; apply useEffect_wf].
  apply preserves_try_catch; [apply handle_wf | intros; apply preserves_ret].
Qed.

Lemma run_app evs ev w : run (evs ++ [ev]) w = exec (react ev) (run evs w).
Proof. unfold run. rewrite fold_left_app. reflexivity. Qed.

Lemma run_wf evs w : wf w -> wf (run evs w).
Proof.
  revert w. induction evs as [|ev evs IH]; intros w H; [exact H|].
  simpl. apply IH, react_wf, H.
Qed.

Lemma reachable_wf evs : wf (run evs init).
Proof. apply run_wf, wf_init. Qed.

(** ** The proactive refresh timer *)

Lemma refresh_timers_size w : wf w -> size (refresh_timers w) <= 1.
Proof.
  intros H. destruct (tokenRefreshTimeout (auth w)) as [t|] eqn:Ht.
  - rewrite <- size_dom.
    transitivity (size ({[t]} : gset positive)); [|rewrite size_singleton; lia].
    apply subseteq_size. intros t0 Hin. apply elem_of_dom in Hin as [tm Htm].
    apply map_lookup_filter_Some in Htm as [Htm Hcb]. simpl in Hcb.
    destruct (wf_refresh_owned _ H _ _ Htm Hcb) as [Heq _].
    rewrite Ht in Heq. injection Heq as ->. apply elem_of_singleton. reflexivity.
  - rewrite (no_handle_no_refresh w H Ht), map_size_empty. lia.
Qed.

Lemma arm_refresh_timers delay w :
  refresh_timers w = ∅ ->
  refresh_timers (exec (t <- setTimeout RefreshCallback delay ;;
                        modify (on_auth (set_tokenRefreshTimeout (Some t)))) w)
  = {[ next_timer (win w) := {| tm_callback := RefreshCallback; tm_delay := delay;
                                tm_repeat := false |} ]}.
Proof.
  unfold refresh_timers. simpl. intros Hnone.
  rewrite map_filter_insert_True by reflexivity. rewrite Hnone. reflexivity.
Qed.

(** C8: [scheduleTokenRefresh] first cancels the pending refresh timer (the
    table then holds no refresh timer, and the old handle stays out of it),
    and only then arms the new one, which is the single refresh timer
    afterwards; in every world the event loop reaches, at most one refresh
    timer is armed. *)
Theorem scheduleTokenRefresh_cancels_then_arms evs delay :
  let w := run evs init in
  let w' := exec (scheduleTokenRefresh delay) w in
  let cancelled := match tokenRefreshTimeout (auth w) with
                   | Some t => exec (clearTimeout t) w
                   | None => w
                   end in
  size (refresh_timers w) <= 1 /\
  refresh_timers cancelled = ∅ /\
  w' = exec (t <- setTimeout RefreshCallback delay ;;
             modify (on_auth (set_tokenRefreshTimeout (Some t)))) cancelled /\
  (forall t, tokenRefreshTimeout (auth w) = Some t -> timers (win w') !! t = None) /\
  (exists t', tokenRefreshTimeout (auth w') = Some t' /\
              refresh_timers w' =
              {[ t' := {| tm_callback := RefreshCallback; tm_delay := delay;
                          tm_repeat := false |} ]}) /\
  size (refresh_timers w') = 1.
Proof.
  intros w w' cancelled. pose proof (reachable_wf evs) as H. fold w in H.
  assert (Hnone : refresh_timers cancelled = ∅).
  { unfold cancelled. destruct (tokenRefreshTimeout (auth w)) eqn:Ht.
    - apply clearTimeout_no_refresh; assumption.
    - apply no_handle_no_refresh; assumption. }
  assert (Hw' : w' = exec (t <- setTimeout RefreshCallback delay ;;
                           modify (on_auth (set_tokenRefreshTimeout (Some t)))) cancelled).
  { unfold w', cancelled, scheduleTokenRefresh, exec. rewrite bind_gets.
    destruct (tokenRefreshTimeout (auth w)); reflexivity. }
  pose proof (arm_refresh_timers delay cancelled Hnone) as Harm. rewrite <- Hw' in Harm.
  split; [apply refresh_timers_size, H|]. split; [exact Hnone|]. split; [exact Hw'|].
  split; [|split].
  - intros t Ht. rewrite Hw'. unfold cancelled. rewrite Ht. simpl.
    rewrite lookup_insert_ne, lookup_delete_eq; [reflexivity|].
    pose proof (wf_handle_fresh _ H _ Ht). lia.
  - exists (next_timer (win cancelled)). split; [|exact Harm].
    rewrite Hw'. reflexivity.
  - rewrite Harm. apply map_size_singleton.
Qed.

(** ** Logout *)

Lemma logout_eq w :
  logout w =
  logout_resume (length (fetch_log (win w)))
    (on_win (fun b => set_logouts (S (logout_calls b)) (detached_logouts b) b)
       (on_win (set_fetch_log (fetch_log (win w) ++ [logout_request])) w)).
Proof. reflexivity. Qed.

Lemma logout_local_session w :
  local_session (exec logout w) = cleared w /\ eval logout w = Return tt.
Proof.
  unfold exec, eval. rewrite logout_eq.
  match goal with |- context [logout_resume ?n ?w0] =>
    pose proof (logout_resume_exec n w0) as He;
    pose proof (logout_resume_returns n w0) as Hr end.
  unfold exec, eval in He, Hr. rewrite He, Hr. simpl.
  split; [|reflexivity]. unfold local_session, cleared. simpl.
  destruct (tokenRefreshTimeout (auth w)) eqn:Ht; simpl;
    unfold set_accessToken; rewrite ?Ht; reflexivity.
Qed.

Lemma logout_resume_local_session n w :
  local_session (exec (logout_resume n) w) = cleared w.
Proof.
  rewrite logout_resume_exec. unfold local_session, cleared.
  destruct (tokenRefreshTimeout (auth w)) eqn:Ht; simpl;
    unfold set_accessToken; rewrite ?Ht; reflexivity.
Qed.

(** C10: [logout] always completes; it leaves the access token [null], no
    handle and no refresh timer armed, whatever the revocation request met
    (the state left is [cleared], which does not mention the remote side,
    and it is what the part of [logout] after its [await] leaves whenever it
    runs); a second [logout] leaves that local state as it is. *)
Theorem logout_idempotent evs :
  let w := run evs init in
  let w1 := exec logout w in
  eval logout w = Return tt /\
  (forall n, local_session (exec (logout_resume n) w) = cleared w) /\
  local_session w1 = cleared w /\
  accessToken (auth w1) = JNull /\
  tokenRefreshTimeout (auth w1) = None /\
  refresh_timers w1 = ∅ /\
  eval logout w1 = Return tt /\
  local_session (exec logout w1) = local_session w1.
Proof.
  intros w w1. pose proof (reachable_wf evs) as H. fold w in H.
  destruct (logout_local_session w) as [Hl Hr]. fold w1 in Hl.
  assert (Ha : auth w1 = fst (cleared w)) by (rewrite <- Hl; reflexivity).
  assert (Htok : accessToken (auth w1) = JNull) by (rewrite Ha; reflexivity).
  assert (Hh : tokenRefreshTimeout (auth w1) = None) by (rewrite Ha; reflexivity).
  split; [exact Hr|]. split; [intros n; apply logout_resume_local_session|].
  split; [exact Hl|]. split; [exact Htok|]. split; [exact Hh|].
  split; [|split].
  - apply no_handle_no_refresh; [apply logout_wf, H | exact Hh].
  - apply logout_local_session.
  - destruct (logout_local_session w1) as [-> _]. unfold cleared, local_session.
    rewrite Hh. f_equal. destruct (auth w1); simpl in *. congruence.
Qed.

(** ** Single-flight refresh *)

Lemma outstanding_size w : wf w -> size (outstanding_refreshes w) <= 1.
Proof.
  intros H. destruct (_refreshPromise (auth w)) as [p|] eqn:Hm.
  - rewrite <- size_dom.
    transitivity (size ({[p]} : gset positive)); [|rewrite size_singleton; lia].
    apply subseteq_size. intros q Hin. apply elem_of_dom in Hin as [st Hst].
    apply map_lookup_filter_Some in Hst as [Hst Hp]. simpl in Hp.
    destruct st as [n| |]; try discriminate.
    pose proof (wf_inflight _ H _ _ Hst) as Heq. rewrite Hm in Heq.
    injection Heq as ->. apply elem_of_singleton. reflexivity.
  - replace (outstanding_refreshes w) with (∅ : gmap positive promise);
      [rewrite map_size_empty; lia|].
    symmetry. apply map_empty_filter_2. intros q st Hst Hp. simpl in Hp.
    destruct st as [n| |]; try discriminate.
    pose proof (wf_inflight _ H _ _ Hst). congruence.
Qed.

(** While the marker is set, a caller gets the promise in flight and
    nothing else happens. *)
Lemma refreshAccessToken_inflight p w :
  _refreshPromise (auth w) = Some p -> refreshAccessToken w = (Return p, w).
Proof. intros Hm. unfold refreshAccessToken. rewrite bind_gets, Hm. reflexivity. Qed.

Lemma concurrent_calls_inflight n p w :
  _refreshPromise (auth w) = Some p ->
  concurrent_calls n w = (Return (replicate n p), w).
Proof.
  intros Hm. induction n as [|n IH]; [reflexivity|]. simpl.
  unfold bind at 1. rewrite (refreshAccessToken_inflight p w Hm).
  unfold bind at 1. rewrite IH. reflexivity.
Qed.

(** With no refresh in flight, a caller starts one. *)
Lemma refreshAccessToken_starts w :
  _refreshPromise (auth w) = None ->
  let p := next_promise (win w) in
  let w' := exec refreshAccessToken w in
  eval refreshAccessToken w = Return p /\
  _refreshPromise (auth w') = Some p /\
  promises (win w') !! p = Some (Pending (length (fetch_log (win w)))) /\
  fetch_log (win w') = (fetch_log (win w) ++ [refresh_request])%list.
Proof.
  intros Hm. unfold refreshAccessToken, exec, eval. rewrite bind_gets, Hm. simpl.
  rewrite lookup_insert_eq. repeat split; reflexivity.
Qed.

Lemma issued_app w w' l :
  fetch_log (win w') = (fetch_log (win w) ++ l)%list -> issued w w' = l.
Proof. intros H. unfold issued. rewrite H. apply drop_app_length. Qed.

Lemma issued_same w w' :
  fetch_log (win w') = fetch_log (win w) -> issued w w' = [].
Proof. intros H. unfold issued. rewrite H. apply drop_all. Qed.

(** The awaited outcome, once [p] is settled. *)
Lemma await_settled p w :
  (forall n, promises (win w) !! p <> Some (Pending n)) ->
  await_refresh p w =
  (match promises (win w) !! p with
   | Some (Fulfilled data) => Return data
   | Some (Rejected e) => Throw e
   | _ => Throw (Error "await on an unknown promise")
   end, w).
Proof.
  intros Hs. unfold await_refresh, refresh_responds. unfold bind at 1.
  rewrite bind_gets.
  destruct (promises (win w) !! p) as [[n| |]|] eqn:Hp; simpl;
    try (rewrite bind_gets, Hp; reflexivity).
  exfalso. exact (Hs n eq_refl).
Qed.

Lemma run_catch_handlers_frame p hs w :
  let w' := exec (run_catch_handlers p hs) w in
  promises (win w') = promises (win w) /\ auth w' = auth w /\
  timers (win w') = timers (win w).
Proof.
  revert w. induction hs as [|q hs IH]; intros w; [repeat split|].
  cbn [run_catch_handlers]. unfold exec, bind, when.
  destruct (bool_decide (q = p)); simpl;
    match goal with |- context [run_catch_handlers p hs ?w0] =>
      destruct (IH w0) as (H1 & H2 & H3) end;
    unfold exec in H1, H2, H3; rewrite H1, H2, H3; repeat split; reflexivity.
Qed.

Lemma refresh_responds_eq p n w :
  promises (win w) !! p = Some (Pending n) ->
  refresh_responds p w =
  match refresh_closure n w with
  | (Return data, w1) => (Return tt, exec (settle p (Fulfilled data)) w1)
  | (Throw e, w1) =>
      run_catch_handlers p (catch_handlers (win w1))
        (on_win (set_catch_handlers (filter (fun q => q <> p) (catch_handlers (win w1))))
           (exec (settle p (Rejected e)) w1))
  end.
Proof.
  intros Hp. unfold refresh_responds. rewrite bind_gets, Hp.
  unfold try_catch, bind at 1.
  destruct (refresh_closure n w) as [[data|e] w1]; reflexivity.
Qed.

(** What the response to the refresh in flight leaves behind. *)
Lemma refresh_responds_outcome p n w :
  promises (win w) !! p = Some (Pending n) ->
  let w' := exec (refresh_responds p) w in
  match refresh_closure n w with
  | (Return data, w1) =>
      promises (win w') !! p = Some (Fulfilled data) /\
      accessToken (auth w') = Json.access_token data /\
      _refreshPromise (auth w') = None /\
      auth w' = auth w1 /\ timers (win w') = timers (win w1)
  | (Throw e, w1) =>
      promises (win w') !! p = Some (Rejected e) /\
      auth w' = auth w1 /\ timers (win w') = timers (win w1)
  end.
Proof.
  intros Hp w'. unfold w', exec. rewrite (refresh_responds_eq p n w Hp).
  destruct (refresh_closure n w) as [[data|e] w1] eqn:Hc.
  - simpl. rewrite lookup_insert_eq. split; [reflexivity|].
    rewrite refresh_closure_eq in Hc.
    destruct (srv n refresh_request) as [|response]; [discriminate|].
    destruct (Http.ok response); [|discriminate].
    destruct (Http.json response) as [d|]; [|discriminate].
    injection Hc as <- <-.
    destruct (scheduleTokenRefresh_frame (refreshIn (expiresIn d))
                (on_auth (set_accessToken (Json.access_token d)) w))
      as (_ & _ & _ & Htok & _).
    simpl in *. rewrite Htok. repeat split; reflexivity.
  - match goal with |- context [run_catch_handlers p ?hs ?w0] =>
      destruct (run_catch_handlers_frame p hs w0) as (Hf1 & Hf2 & Hf3) end.
    unfold exec in *. rewrite Hf1, Hf2, Hf3. simpl.
    rewrite lookup_insert_eq. repeat split; reflexivity.
Qed.

Lemma concurrent_calls_wf n : preserves wf (concurrent_calls n).
Proof.
  induction n as [|n IH]; simpl; [apply preserves_ret|].
  apply preserves_bind; [apply refreshAccessToken_wf | intros p].
  apply preserves_bind; [exact IH | intros; apply preserves_ret].
Qed.

(** C2: in every world the event loop reaches at most one refresh call is
    outstanding; callers that enter [refreshAccessToken] one after the other
    before the response arrives all get the same promise, which is the
    in-flight marker; together they issue one refresh [fetch] when none was
    in flight and none otherwise; and when the response arrives that one
    promise settles for all of them, the token held being the one it was
    fulfilled with. *)
Theorem refresh_single_flight evs n :
  let w := run evs init in
  let w' := exec (concurrent_calls (S n)) w in
  size (outstanding_refreshes w) <= 1 /\
  size (outstanding_refreshes w') <= 1 /\
  exists p,
    eval (concurrent_calls (S n)) w = Return (replicate (S n) p) /\
    _refreshPromise (auth w') = Some p /\
    by_origin ByRefresh (issued w w') =
      match _refreshPromise (auth w) with
      | Some _ => []
      | None => [refresh_request]
      end /\
    (forall k, promises (win w') !! p = Some (Pending k) ->
       let w'' := exec (refresh_responds p) w' in
       match promises (win w'') !! p with
       | Some (Fulfilled data) => accessToken (auth w'') = Json.access_token data
       | Some (Rejected e) => True
       | _ => False
       end).
Proof.
  intros w w'. pose proof (reachable_wf evs) as H. fold w in H.
  split; [apply outstanding_size, H|].
  split; [apply outstanding_size, concurrent_calls_wf, H|].
  assert (Hout : forall p k, promises (win w') !! p = Some (Pending k) ->
            match promises (win (exec (refresh_responds p) w')) !! p with
            | Some (Fulfilled data) =>
                accessToken (auth (exec (refresh_responds p) w')) = Json.access_token data
            | Some (Rejected e) => True
            | _ => False
            end).
  { intros p k Hk. pose proof (refresh_responds_outcome p k w' Hk) as Ho.
    cbv zeta in Ho. destruct (refresh_closure k w') as [[data|e] w1].
    - destruct Ho as (-> & Htok & _). exact Htok.
    - destruct Ho as (-> & _). exact I. }
  destruct (_refreshPromise (auth w)) as [p|] eqn:Hm.
  - pose proof (concurrent_calls_inflight (S n) p w Hm) as Hcalls.
    assert (Hw' : w' = w) by (unfold w', exec; rewrite Hcalls; reflexivity).
    exists p. split; [unfold eval; rewrite Hcalls; reflexivity|].
    split; [rewrite Hw'; exact Hm|].
    split; [rewrite Hw', issued_same; reflexivity|].
    intros k Hk. exact (Hout p k Hk).
  - destruct (refreshAccessToken_starts w Hm) as (Hr & Hm1 & Hp1 & Hlog).
    set (p := next_promise (win w)) in *.
    set (w1 := exec refreshAccessToken w) in *.
    assert (Hcalls : concurrent_calls (S n) w = (Return (replicate (S n) p), w1)).
    { cbn [concurrent_calls]. unfold bind at 1.
      unfold eval in Hr. unfold w1, exec in *.
      destruct (refreshAccessToken w) as [r w0]. cbn [fst snd] in *. subst r.
      unfold bind at 1.
      rewrite (concurrent_calls_inflight n p w0 Hm1). reflexivity. }
    assert (Hw' : w' = w1) by (unfold w', exec; rewrite Hcalls; reflexivity).
    exists p. split; [unfold eval; rewrite Hcalls; reflexivity|].
    split; [rewrite Hw'; exact Hm1|].
    split; [rewrite Hw', (issued_app w w1 _ Hlog); reflexivity|].
    intros k Hk. exact (Hout p k Hk).
Qed.

(** ** What an operation leaves alone *)

Lemma by_origin_app o l1 l2 :
  by_origin o (l1 ++ l2) = (by_origin o l1 ++ by_origin o l2)%list.
Proof. apply filter_app. Qed.

Lemma quiet_refl w : quiet w w.
Proof.
  split; [|split; [reflexivity | lia]].
  exists []. split; [symmetry; apply app_nil_r | reflexivity].
Qed.

Lemma quiet_trans w1 w2 w3 : quiet w1 w2 -> quiet w2 w3 -> quiet w1 w3.
Proof.
  intros ((l1 & Hl1 & Hn1) & Hv1 & Hc1) ((l2 & Hl2 & Hn2) & Hv2 & Hc2).
  split; [|split; [congruence | lia]].
  exists (l1 ++ l2)%list. split.
  - rewrite Hl2, Hl1, app_assoc. reflexivity.
  - rewrite by_origin_app, Hn1, Hn2. reflexivity.
Qed.

Lemma calm_refl w : calm w w.
Proof.
  split; [|split; [reflexivity | lia]]. exists []. symmetry. apply app_nil_r.
Qed.

Lemma calm_trans w1 w2 w3 : calm w1 w2 -> calm w2 w3 -> calm w1 w3.
Proof.
  intros ((l1 & Hl1) & Hv1 & Hc1) ((l2 & Hl2) & Hv2 & Hc2).
  split; [|split; [congruence | lia]].
  exists (l1 ++ l2)%list. rewrite Hl2, Hl1, app_assoc. reflexivity.
Qed.

Lemma quiet_calm w w' : quiet w w' -> calm w w'.
Proof. intros ((l & Hl & _) & Hv & Hc). split; [exists l; exact Hl | split; assumption]. Qed.

Section Respects.
Variable R : World -> World -> Prop.
Hypothesis R_refl : forall w, R w w.
Hypothesis R_trans : forall w1 w2 w3, R w1 w2 -> R w2 w3 -> R w1 w3.

Lemma respects_ret {A} (a : A) : respects R (ret a).
Proof. intros w. apply R_refl. Qed.

Lemma respects_throw {A} e : respects R (@throw A e).
Proof. intros w. apply R_refl. Qed.

Lemma respects_gets {A} (f : World -> A) : respects R (gets f).
Proof. intros w. apply R_refl. Qed.

Lemma respects_bind {A B} (m : M A) (k : A -> M B) :
  respects R m -> (forall a, respects R (k a)) -> respects R (bind m k).
Proof.
  intros Hm Hk w. specialize (Hm w). unfold exec, bind in *.
  destruct (m w) as [[a|e] w1]; simpl in *; [|exact Hm].
  eapply R_trans; [exact Hm | apply Hk].
Qed.

Lemma respects_try_catch {A} (m : M A) h :
  respects R m -> (forall e, respects R (h e)) -> respects R (try_catch m h).
Proof.
  intros Hm Hh w. specialize (Hm w). unfold exec, try_catch in *.
  destruct (m w) as [[a|e] w1]; simpl in *; [exact Hm|].
  eapply R_trans; [exact Hm | apply Hh].
Qed.

Lemma respects_when b m : respects R m -> respects R (when b m).
Proof. destruct b; intros Hm; [exact Hm | apply respects_ret]. Qed.

End Respects.

Lemma respects_quiet_calm {A} (m : M A) : respects quiet m -> respects calm m.
Proof. intros H w. apply quiet_calm, H. Qed.

(** A step that touches neither the log, nor the tracker's view, nor the
    logout count is quiet. *)
Lemma quiet_silent w w' :
  fetch_log (win w') = fetch_log (win w) ->
  tracker_view w' = tracker_view w ->
  logout_calls (win w') = logout_calls (win w) ->
  quiet w w'.
Proof.
  intros Hl Hv Hc. split; [|split; [exact Hv | lia]].
  exists []. split; [rewrite Hl, app_nil_r; reflexivity | reflexivity].
Qed.

Lemma issue_quiet r : req_origin r <> ByRequest -> respects quiet (issue r).
Proof.
  intros Hr w. split; [|split; [reflexivity | simpl; lia]].
  exists [r]. split; [reflexivity|].
  unfold by_origin. rewrite filter_cons_False by exact Hr. reflexivity.
Qed.

Lemma issue_calm r : respects calm (issue r).
Proof.
  intros w. split; [|split; [reflexivity | simpl; lia]]. exists [r]. reflexivity.
Qed.

Lemma response_to_quiet n r : respects quiet (response_to n r).
Proof. intros w. unfold response_to. destruct (srv n r); apply quiet_refl. Qed.

Lemma json_quiet r : respects quiet (json r).
Proof. intros w. unfold json. destruct (Http.json r); apply quiet_refl. Qed.

Lemma fetch_quiet r : req_origin r <> ByRequest -> respects quiet (fetch r).
Proof.
  intros Hr. apply respects_bind; [apply quiet_trans | apply issue_quiet, Hr|].
  intros n. apply response_to_quiet.
Qed.

Lemma fetch_calm r : respects calm (fetch r).
Proof.
  apply respects_bind; [apply calm_trans | apply issue_calm|].
  intros n. apply respects_quiet_calm, response_to_quiet.
Qed.

Lemma scheduleTokenRefresh_quiet delay : respects quiet (scheduleTokenRefresh delay).
Proof.
  intros w.
  destruct (scheduleTokenRefresh_frame delay w)
    as (_ & _ & _ & _ & Hui & Hlog & _ & Hc & _ & _ & Hop).
  apply quiet_silent;
    [exact Hlog | unfold tracker_view; rewrite Hui, Hop; reflexivity | exact Hc].
Qed.

Ltac quiet_step :=
  first
    [ apply respects_ret; apply quiet_refl
    | apply respects_throw; apply quiet_refl
    | apply respects_gets; apply quiet_refl
    | apply response_to_quiet
    | apply json_quiet
    | apply scheduleTokenRefresh_quiet
    | apply issue_quiet; discriminate
    | apply fetch_quiet; discriminate
    | intros ?; apply quiet_silent; reflexivity ].

Ltac quiet_bind :=
  apply respects_bind; [apply quiet_trans | | intros ?].

Lemma logout_begin_quiet : respects quiet logout_begin.
Proof.
  unfold logout_begin. quiet_bind; [quiet_step|].
  quiet_bind; [|quiet_step].
  intros w. split; [|split; [reflexivity | simpl; lia]].
  exists []. split; [symmetry; apply app_nil_r | reflexivity].
Qed.

Lemma logout_resume_quiet n : respects quiet (logout_resume n).
Proof.
  intros w. rewrite logout_resume_exec.
  destruct (tokenRefreshTimeout (auth w)); apply quiet_silent; reflexivity.
Qed.

Lemma logout_quiet : respects quiet logout.
Proof.
  unfold logout. quiet_bind; [apply logout_begin_quiet | apply logout_resume_quiet].
Qed.

Lemma logout_detached_quiet : respects quiet logout_detached.
Proof.
  unfold logout_detached. quiet_bind; [apply logout_begin_quiet | quiet_step].
Qed.

Lemma scheduled_refresh_failed_quiet : respects quiet scheduled_refresh_failed.
Proof.
  unfold scheduled_refresh_failed, redirect_to_login.
  quiet_bind; [apply logout_detached_quiet | quiet_step].
Qed.

Lemma run_catch_handlers_quiet p hs : respects quiet (run_catch_handlers p hs).
Proof.
  induction hs as [|q hs IH]; simpl; [quiet_step|].
  quiet_bind; [|exact IH].
  apply respects_when; [apply quiet_refl | apply scheduled_refresh_failed_quiet].
Qed.


Lemma refreshAccessToken_quiet : respects quiet refreshAccessToken.
Proof.
  intros w. unfold refreshAccessToken, exec. rewrite bind_gets.
  destruct (_refreshPromise (auth w)); [apply quiet_refl|].
  revert w. change (respects quiet
    (n <- issue refresh_request ;; p <- new_promise (Pending n) ;;
     modify (on_auth (set_refreshPromise (Some p))) ;; ret p)).
  quiet_bind; [quiet_step|]. quiet_bind; [quiet_step|].
  quiet_bind; [quiet_step|]. quiet_step.
Qed.

Lemma refresh_closure_quiet n : respects quiet (refresh_closure n).
Proof.
  unfold refresh_closure. quiet_bind; [quiet_step|].
  destruct (negb _).
  - quiet_bind; [quiet_step|]. quiet_step.
  - quiet_bind; [quiet_step|]. quiet_bind; [quiet_step|].
    quiet_bind; [quiet_step|]. quiet_bind; [quiet_step|]. quiet_step.
Qed.

Lemma refresh_responds_quiet p : respects quiet (refresh_responds p).
Proof.
  intros w. unfold refresh_responds, exec. rewrite bind_gets.
  destruct (promises (win w) !! p) as [[n| |]|]; try apply quiet_refl.
  revert w. apply respects_try_catch; [apply quiet_trans | |intros e].
  - quiet_bind; [apply refresh_closure_quiet | quiet_step].
  - quiet_bind; [quiet_step|]. quiet_bind; [quiet_step|].
    quiet_bind; [quiet_step|]. apply run_catch_handlers_quiet.
Qed.

Lemma await_refresh_quiet p : respects quiet (await_refresh p).
Proof.
  unfold await_refresh. quiet_bind; [apply refresh_responds_quiet|].
  intros w. unfold exec. rewrite bind_gets.
  destruct (promises (win w) !! p) as [[| |]|]; apply quiet_refl.
Qed.



Ltac calm_bind :=
  apply respects_bind; [apply calm_trans | | intros ?].

Lemma authorize_quiet hs : respects quiet (authorize hs).
Proof. intros w. apply quiet_refl. Qed.

Lemma apiRequest_eq url o w :
  let hs := authorized w (headers o) in
  apiRequest url o w =
  after_first_fetch url o hs (length (fetch_log (win w)))
    (exec (issue (outgoing url o hs)) w).
Proof. reflexivity. Qed.

Lemma after_first_fetch_calm url o hs n : respects calm (after_first_fetch url o hs n).
Proof.
  unfold after_first_fetch.
  calm_bind; [apply respects_quiet_calm, response_to_quiet|].
  destruct (_ =? _)%Z; [|apply respects_ret, calm_refl].
  apply respects_try_catch; [apply calm_trans | |intros e].
  - calm_bind; [apply respects_quiet_calm, refreshAccessToken_quiet|].
    calm_bind; [apply respects_quiet_calm, await_refresh_quiet|].
    calm_bind; [apply respects_quiet_calm, authorize_quiet|].
    apply fetch_calm.
  - calm_bind; [apply respects_quiet_calm, logout_detached_quiet|].
    calm_bind; [apply respects_quiet_calm; quiet_step|].
    apply respects_throw, calm_refl.
Qed.

Lemma apiRequest_calm url o : respects calm (apiRequest url o).
Proof.
  intros w. unfold exec. rewrite apiRequest_eq. cbv zeta.
  eapply calm_trans; [apply issue_calm | apply after_first_fetch_calm].
Qed.


Lemma logoutAllDevices_calm : respects calm logoutAllDevices.
Proof.
  unfold logoutAllDevices. calm_bind; [apply apiRequest_calm|].
  apply respects_quiet_calm, logout_quiet.
Qed.

(** ** Requests without a token *)

(** C9: with [accessToken] null, [apiRequest] still sends the request: the
    next entry of the log is the request with the caller's own headers and
    nothing added, so without an [Authorization] header unless the caller
    brought one. *)
Theorem apiRequest_without_token url o w :
  accessToken (auth w) = JNull ->
  let w' := exec (apiRequest url o) w in
  fetch_log (win w') !! length (fetch_log (win w)) = Some (outgoing url o (headers o)) /\
  req_headers (outgoing url o (headers o)) = headers o /\
  (headers o !! "Authorization" = None ->
   req_headers (outgoing url o (headers o)) !! "Authorization" = None).
Proof.
  intros Htok w'. split; [|split; [reflexivity | tauto]].
  unfold w', exec. rewrite apiRequest_eq. unfold authorized. rewrite Htok.
  cbv zeta. cbn [truthy].
  destruct (after_first_fetch_calm url o (headers o) (length (fetch_log (win w)))
              (exec (issue (outgoing url o (headers o))) w)) as ((l & Hl) & _).
  unfold exec in *. rewrite Hl. simpl.
  rewrite <- app_assoc. rewrite lookup_app_r by lia.
  rewrite Nat.sub_diag. reflexivity.
Qed.

Lemma hush_refl w : hush w w.
Proof. exists []. rewrite app_nil_r. repeat split. Qed.

Lemma hush_trans w1 w2 w3 : hush w1 w2 -> hush w2 w3 -> hush w1 w3.
Proof.
  intros (l1 & Hl1 & Hn1 & Hr1) (l2 & Hl2 & Hn2 & Hr2).
  exists (l1 ++ l2)%list. rewrite Hl2, Hl1, app_assoc, !by_origin_app, Hn1, Hn2, Hr1, Hr2.
  repeat split.
Qed.

Lemma hush_silent w w' : fetch_log (win w') = fetch_log (win w) -> hush w w'.
Proof. intros Hl. exists []. rewrite Hl, app_nil_r. repeat split. Qed.

Ltac hush_bind :=
  apply respects_bind; [apply hush_trans | | intros ?].

Ltac hush_step :=
  first
    [ apply respects_ret; apply hush_refl
    | apply respects_throw; apply hush_refl
    | apply respects_gets; apply hush_refl
    | intros ?; apply hush_silent; reflexivity ].

Lemma logout_detached_hush : respects hush logout_detached.
Proof.
  unfold logout_detached, logout_begin.
  hush_bind; [|hush_step]. hush_bind; [|].
  - intros w. exists [logout_request]. repeat split.
  - hush_bind; [hush_step | hush_step].
Qed.

Lemma scheduled_refresh_failed_hush : respects hush scheduled_refresh_failed.
Proof.
  unfold scheduled_refresh_failed, redirect_to_login.
  hush_bind; [apply logout_detached_hush | hush_step].
Qed.

Lemma run_catch_handlers_hush p hs : respects hush (run_catch_handlers p hs).
Proof.
  induction hs as [|q hs IH]; simpl; [hush_step|].
  hush_bind; [|exact IH].
  apply respects_when; [apply hush_refl | apply scheduled_refresh_failed_hush].
Qed.

Lemma refresh_closure_hush n : respects hush (refresh_closure n).
Proof.
  intros w. unfold exec. rewrite refresh_closure_eq.
  destruct (srv n refresh_request) as [|response]; [apply hush_refl|].
  destruct (Http.ok response); [|apply hush_silent; reflexivity].
  destruct (Http.json response) as [data|]; [|apply hush_refl].
  apply hush_silent. simpl.
  destruct (scheduleTokenRefresh_frame (refreshIn (expiresIn data))
              (on_auth (set_accessToken (Json.access_token data)) w))
    as (_ & _ & _ & _ & _ & Hlog & _).
  exact Hlog.
Qed.

Lemma refresh_responds_hush p : respects hush (refresh_responds p).
Proof.
  intros w. unfold refresh_responds, exec. rewrite bind_gets.
  destruct (promises (win w) !! p) as [[n| |]|]; try apply hush_refl.
  revert w. apply respects_try_catch; [apply hush_trans | |intros e].
  - hush_bind; [apply refresh_closure_hush | hush_step].
  - hush_bind; [hush_step|]. hush_bind; [hush_step|].
    hush_bind; [hush_step|]. apply run_catch_handlers_hush.
Qed.

Lemma await_refresh_hush p : respects hush (await_refresh p).
Proof.
  unfold await_refresh. hush_bind; [apply refresh_responds_hush|].
  intros w. unfold exec. rewrite bind_gets.
  destruct (promises (win w) !! p) as [[| |]|]; apply hush_refl.
Qed.

Lemma run_catch_handlers_returns p hs w :
  eval (run_catch_handlers p hs) w = Return tt.
Proof.
  revert w. induction hs as [|q hs IH]; intros w; [reflexivity|].
  cbn [run_catch_handlers]. unfold eval, bind, when.
  destruct (bool_decide (q = p)); simpl; apply IH.
Qed.

(** [await] on the refresh in flight: the closure runs to its end. *)
Lemma await_refresh_pending p n w :
  promises (win w) !! p = Some (Pending n) ->
  await_refresh p w =
  match refresh_closure n w with
  | (Return data, w1) => (Return data, exec (settle p (Fulfilled data)) w1)
  | (Throw e, _) => (Throw e, exec (refresh_responds p) w)
  end.
Proof.
  intros Hp. pose proof (refresh_responds_outcome p n w Hp) as Ho. cbv zeta in Ho.
  unfold await_refresh. unfold bind at 1. unfold exec in *.
  rewrite (refresh_responds_eq p n w Hp) in *.
  destruct (refresh_closure n w) as [[data|e] w1].
  - unfold exec in *. cbn [fst snd] in *.
    rewrite bind_gets. destruct Ho as (-> & _). reflexivity.
  - match goal with |- context [run_catch_handlers p ?hs ?w0] =>
      pose proof (run_catch_handlers_returns p hs w0) as Hret;
      unfold eval in Hret;
      destruct (run_catch_handlers p hs w0) as [r w2] end.
    unfold exec in *. cbn [fst snd] in *. subst r.
    rewrite bind_gets. destruct Ho as (-> & _). reflexivity.
Qed.

(** When the awaited refresh succeeds, nobody was logged out and nothing was
    sent. *)
Lemma await_refresh_returns p w d :
  eval (await_refresh p) w = Return d ->
  let w' := exec (await_refresh p) w in
  fetch_log (win w') = fetch_log (win w) /\
  logout_calls (win w') = logout_calls (win w) /\
  location_href (win w') = location_href (win w).
Proof.
  intros Hr w'. unfold w', eval, exec in *.
  destruct (promises (win w) !! p) as [[n| |]|] eqn:Hp.
  - rewrite (await_refresh_pending p n w Hp) in *.
    rewrite refresh_closure_eq in *.
    destruct (srv n refresh_request) as [|response]; [discriminate|].
    destruct (Http.ok response); [|discriminate].
    destruct (Http.json response) as [data|]; [|discriminate].
    destruct (scheduleTokenRefresh_frame (refreshIn (expiresIn data))
                (on_auth (set_accessToken (Json.access_token data)) w))
      as (_ & _ & _ & _ & _ & Hlog & Hhref & Hcalls & _).
    unfold exec in *. simpl. rewrite Hlog, Hhref, Hcalls. repeat split.
  - rewrite await_settled by (intros n; rewrite Hp; discriminate). repeat split.
  - rewrite await_settled by (intros n; rewrite Hp; discriminate). repeat split.
  - rewrite await_settled by (intros n; rewrite Hp; discriminate). repeat split.
Qed.

(** ** One retry on 401 *)

Lemma refreshAccessToken_spec w :
  exists p,
    eval refreshAccessToken w = Return p /\
    let w' := exec refreshAccessToken w in
    (exists l, fetch_log (win w') = (fetch_log (win w) ++ l)%list /\
               by_origin ByRequest l = [] /\ length (by_origin ByRefresh l) <= 1) /\
    logout_calls (win w') = logout_calls (win w) /\
    location_href (win w') = location_href (win w).
Proof.
  destruct (_refreshPromise (auth w)) as [p|] eqn:Hm.
  - exists p. unfold eval, exec. rewrite (refreshAccessToken_inflight p w Hm). simpl.
    split; [reflexivity|]. split; [|split; reflexivity].
    exists []. rewrite app_nil_r. repeat split. simpl. lia.
  - destruct (refreshAccessToken_starts w Hm) as (Hr & _ & _ & Hlog).
    exists (next_promise (win w)). split; [exact Hr|]. cbv zeta.
    split; [|unfold refreshAccessToken, exec; rewrite bind_gets, Hm; split; reflexivity].
    exists [refresh_request]. split; [exact Hlog|]. split; [reflexivity|]. simpl. lia.
Qed.

Lemma by_origin_request_outgoing url o hs :
  by_origin ByRequest [outgoing url o hs] = [outgoing url o hs].
Proof. reflexivity. Qed.

(** The handler of [apiRequest]: the logout starts, the page is sent to the
    login surface, the error goes on to the caller. *)
Lemma apiRequest_catch e w :
  let m : M Http.response := (logout_detached ;; redirect_to_login ;; throw e) in
  eval m w = Throw e /\
  fetch_log (win (exec m w)) = (fetch_log (win w) ++ [logout_request])%list /\
  logout_calls (win (exec m w)) = S (logout_calls (win w)) /\
  location_href (win (exec m w)) = Some "/login" /\
  accessToken (auth (exec m w)) = accessToken (auth w).
Proof. repeat split. Qed.

(** C1 (amended): when the first response is 401, [apiRequest] calls
    [refreshAccessToken] once and awaits it: a refresh call goes out unless
    one is in flight already, and no second one.  When the refresh
    succeeds, the request is resent once with the token then held (the one
    the refresh brought, when it was this call that started it), and the
    answer to the resend, a 401 included, is what the caller gets: nobody
    is logged out.  The caller gets an error in two cases only: the refresh
    failed, and then nothing is resent, or the resend itself could not be
    sent; in both the logout starts, the page goes to the login surface and
    the error is the one rethrown.  The request is sent twice at most. *)
Theorem apiRequest_retries_once url o w r1 :
  let req1 := outgoing url o (authorized w (headers o)) in
  srv (length (fetch_log (win w))) req1 = Responds r1 ->
  Http.status r1 = 401%Z ->
  let refresh : M Json.t := (p <- refreshAccessToken ;; await_refresh p) in
  let w1 := exec (issue req1) w in
  let wr := exec refresh w1 in
  let req2 := outgoing url o (authorized wr (authorized w (headers o))) in
  let w' := exec (apiRequest url o) w in
  let sent := by_origin ByRequest (issued w w') in
  by_origin ByRefresh (issued w w') =
    match _refreshPromise (auth w) with
    | Some _ => []
    | None => [refresh_request]
    end /\
  accessToken (auth w') = accessToken (auth wr) /\
  match eval refresh w1 with
  | Return data =>
      (_refreshPromise (auth w) = None ->
       accessToken (auth wr) = Json.access_token data) /\
      sent = [req1; req2] /\
      match srv (length (fetch_log (win wr))) req2 with
      | Responds r2 =>
          eval (apiRequest url o) w = Return r2 /\
          fetch_log (win w') = (fetch_log (win wr) ++ [req2])%list /\
          logout_calls (win w') = logout_calls (win w) /\
          location_href (win w') = location_href (win w)
      | NetworkFailure =>
          eval (apiRequest url o) w = Throw (TypeError "Failed to fetch") /\
          logout_calls (win w') = S (logout_calls (win w)) /\
          location_href (win w') = Some "/login"
      end
  | Throw e =>
      sent = [req1] /\
      eval (apiRequest url o) w = Throw e /\
      logout_calls (win w) < logout_calls (win w') /\
      location_href (win w') = Some "/login"
  end.
Proof.
  intros req1 Hsrv H401 refresh w1 wr req2 w' sent.
  set (hs := authorized w (headers o)) in *.
  assert (Hlog1 : fetch_log (win w1) = (fetch_log (win w) ++ [req1])%list) by reflexivity.
  assert (Hm1 : _refreshPromise (auth w1) = _refreshPromise (auth w)) by reflexivity.
  set (rl := match _refreshPromise (auth w) with
             | Some _ => []
             | None => [refresh_request]
             end).
  (* the call of [refreshAccessToken] *)
  assert (Hcall : exists p,
            eval refreshAccessToken w1 = Return p /\
            let w2 := exec refreshAccessToken w1 in
            fetch_log (win w2) = (fetch_log (win w1) ++ rl)%list /\
            logout_calls (win w2) = logout_calls (win w1) /\
            location_href (win w2) = location_href (win w1) /\
            (_refreshPromise (auth w) = None ->
             promises (win w2) !! p = Some (Pending (length (fetch_log (win w1)))))).
  { unfold rl. destruct (_refreshPromise (auth w)) as [q|] eqn:Hm.
    - exists q. unfold eval, exec. rewrite (refreshAccessToken_inflight q w1 Hm1). simpl.
      rewrite app_nil_r. repeat split. intros [=].
    - destruct (refreshAccessToken_starts w1 Hm1) as (Hr & _ & Hpend & Hlog).
      exists (next_promise (win w1)). split; [exact Hr|]. cbv zeta.
      split; [exact Hlog|].
      split; [|split; [|intros _; exact Hpend]];
        unfold refreshAccessToken, exec; rewrite bind_gets, Hm1; reflexivity. }
  destruct Hcall as (p & Hp & Hlog2 & Hc2 & Hh2 & Hpend).
  assert (Hreq2 : by_origin ByRequest rl = []).
  { unfold rl. destruct (_refreshPromise (auth w)); reflexivity. }
  assert (Href2 : by_origin ByRefresh rl = rl).
  { unfold rl. destruct (_refreshPromise (auth w)); reflexivity. }
  set (w2 := exec refreshAccessToken w1) in *.
  destruct (await_refresh_hush p w2) as (l3 & Hlog3 & Hreq3 & Href3).
  pose proof (await_refresh_quiet p w2) as (_ & _ & Hc3).
  assert (Hrefresh : refresh w1 = await_refresh p w2).
  { unfold refresh, bind. unfold eval in Hp. unfold w2, exec.
    destruct (refreshAccessToken w1) as [rp w2']. cbn [fst snd] in *. subst rp.
    reflexivity. }
  assert (Hwr : wr = exec (await_refresh p) w2).
  { unfold wr, exec. rewrite Hrefresh. reflexivity. }
  assert (Hev : eval refresh w1 = eval (await_refresh p) w2).
  { unfold eval. rewrite Hrefresh. reflexivity. }
  (* the run, step by step *)
  assert (Hrun : apiRequest url o w =
            match eval refresh w1 with
            | Return _ =>
                match srv (length (fetch_log (win wr))) req2 with
                | Responds r2 => (Return r2, exec (issue req2) wr)
                | NetworkFailure =>
                    (logout_detached ;; redirect_to_login ;;
                     throw (TypeError "Failed to fetch")) (exec (issue req2) wr)
                end
            | Throw e => (logout_detached ;; redirect_to_login ;; throw e) wr
            end).
  { rewrite apiRequest_eq. cbv zeta. fold hs. fold req1. fold w1.
    unfold after_first_fetch, response_to. fold req1. rewrite Hsrv.
    rewrite bind_ret, H401. cbn [Z.eqb Pos.eqb].
    unfold req2. rewrite Hev, Hwr.
    unfold try_catch. unfold bind at 1.
    unfold eval in Hp. unfold w2, exec, eval.
    destruct (refreshAccessToken w1) as [rp w2']. cbn [fst snd] in *. subst rp.
    unfold bind at 1.
    destruct (await_refresh p w2') as [[d|e] w3']; cbn [fst snd]; [|reflexivity].
    change ((hs' <- authorize hs;; fetch (outgoing url o hs')) w3')
      with (fetch (outgoing url o (authorized w3' hs)) w3').
    unfold fetch, response_to, bind, issue. cbn [fst snd].
    destruct (srv (length (fetch_log (win w3'))) (outgoing url o (authorized w3' hs)));
      reflexivity. }
  unfold sent, w'.
  change (eval (apiRequest url o) w) with ((apiRequest url o w).1).
  change (exec (apiRequest url o) w) with ((apiRequest url o w).2).
  rewrite Hrun, Hev. clear Hrun.
  destruct (eval (await_refresh p) w2) as [d|e] eqn:Hres.
  - destruct (await_refresh_returns p w2 d Hres) as (Hl3 & Hcalls3 & Hhref3).
    rewrite <- Hwr in Hl3, Hcalls3, Hhref3.
    assert (Hlog4 : fetch_log (win (exec (issue req2) wr))
                    = (fetch_log (win w) ++ [req1] ++ rl ++ [req2])%list).
    { simpl. rewrite Hl3, Hlog2, Hlog1, <- !app_assoc. reflexivity. }
    assert (Htok : _refreshPromise (auth w) = None ->
                   accessToken (auth wr) = Json.access_token d).
    { intros Hm. specialize (Hpend Hm). rewrite Hwr. unfold eval, exec in *.
      rewrite (await_refresh_pending p _ w2 Hpend) in *.
      rewrite refresh_closure_eq in *.
      destruct (srv (length (fetch_log (win w1))) refresh_request) as [|response];
        [discriminate|].
      destruct (Http.ok response); [|discriminate].
      destruct (Http.json response) as [data|]; [|discriminate].
      cbn [fst snd] in Hres. injection Hres as ->.
      destruct (scheduleTokenRefresh_frame (refreshIn (expiresIn d))
                  (on_auth (set_accessToken (Json.access_token d)) w2))
        as (_ & _ & _ & Htok & _).
      simpl. rewrite Htok. reflexivity. }
    destruct (srv (length (fetch_log (win wr))) req2) as [|r2] eqn:Hsrv2.
    + (* the resend cannot be sent *)
      destruct (apiRequest_catch (TypeError "Failed to fetch") (exec (issue req2) wr))
        as (Hev5 & Hlog5 & Hc5 & Hh5 & Htok5).
      cbv zeta in Hev5, Hlog5, Hc5, Hh5, Htok5.
      set (m := (logout_detached;; redirect_to_login;;
                 throw (TypeError "Failed to fetch")) : M Http.response) in *.
      change ((m (exec (issue req2) wr)).1) with (eval m (exec (issue req2) wr)).
      change ((m (exec (issue req2) wr)).2) with (exec m (exec (issue req2) wr)).
      set (w5 := exec m (exec (issue req2) wr)) in *.
      rewrite (issued_app w w5 ([req1] ++ rl ++ [req2] ++ [logout_request])).
      2:{ rewrite Hlog5, Hlog4, <- !app_assoc. reflexivity. }
      rewrite !by_origin_app, Hreq2, Href2.
      split; [simpl; rewrite app_nil_r; reflexivity|].
      split; [exact Htok5|].
      split; [exact Htok|].
      split; [reflexivity|].
      split; [exact Hev5|].
      split; [rewrite Hc5; simpl; rewrite Hcalls3, Hc2; reflexivity | exact Hh5].
    + cbn [fst snd].
      rewrite (issued_app w _ _ Hlog4).
      rewrite !by_origin_app, Hreq2, Href2.
      split; [simpl; rewrite app_nil_r; reflexivity|].
      split; [reflexivity|].
      split; [exact Htok|].
      split; [reflexivity|].
      split; [reflexivity|].
      split; [reflexivity|].
      split.
      * simpl. rewrite Hcalls3, Hc2. reflexivity.
      * simpl. rewrite Hhref3, Hh2. reflexivity.
  - destruct (apiRequest_catch e wr) as (Hev5 & Hlog5 & Hc5 & Hh5 & Htok5).
    cbv zeta in Hev5, Hlog5, Hc5, Hh5, Htok5.
    set (m := (logout_detached;; redirect_to_login;; throw e) : M Http.response) in *.
    change ((m wr).1) with (eval m wr). change ((m wr).2) with (exec m wr).
    set (w5 := exec m wr) in *.
    rewrite (issued_app w w5 ([req1] ++ rl ++ l3 ++ [logout_request])).
    2:{ rewrite Hlog5, Hwr, Hlog3, Hlog2, Hlog1, <- !app_assoc. reflexivity. }
    rewrite !by_origin_app, Hreq2, Hreq3, Href2, Href3.
    split; [simpl; rewrite app_nil_r; reflexivity|].
    split; [exact Htok5|].
    split; [reflexivity|].
    split; [exact Hev5|].
    split; [rewrite Hc5, Hwr; simpl in *; lia | exact Hh5].
Qed.

(** ** The refresh schedule *)

(** The delay of the code is the one of the specification's formula for a
    multiple of 5, where a fifth is a whole number, and below 300, where
    the margin is the 60 seconds in both; nowhere else. *)
Lemma refreshIn_spec_iff e :
  refreshIn e = spec_refresh_delay_ms e <-> (e mod 5 = 0)%Z \/ (e < 300)%Z.
Proof.
  unfold refreshIn, refreshBefore, spec_refresh_delay_ms.
  pose proof (Z.div_mod e 5 ltac:(lia)) as Hd.
  pose proof (Z.mod_pos_bound e 5 ltac:(lia)) as Hb.
  lia.
Qed.

(** C3 (amended): a successful login whose response reports [expires_in = e]
    seconds ([e] not 0) stores the token and arms the refresh timer with
    delay [(e - max 60 (floor (e / 5))) * 1000] ms; this is 1440 s for
    [e = 1800] and 60 s for [e = 120], and it is the delay of the
    specification's formula, [1000 * e - max 60000 (200 * e)] ms, exactly
    when [e] is a multiple of 5 or below 300. *)
Theorem login_schedules_refresh u p w response data e :
  srv (length (fetch_log (win w))) (login_request u p) = Responds response ->
  Http.ok response = true ->
  Http.json response = Some data ->
  Json.expires_in data = Some e ->
  e <> 0%Z ->
  let w' := exec (login u p) w in
  eval (login u p) w = Return data /\
  accessToken (auth w') = Json.access_token data /\
  (exists t, tokenRefreshTimeout (auth w') = Some t /\
             timers (win w') !! t =
             Some {| tm_callback := RefreshCallback;
                     tm_delay := ((e - Z.max 60 (e / 5)) * 1000)%Z;
                     tm_repeat := false |}) /\
  (e = 1800%Z -> refreshIn e = (1440 * 1000)%Z) /\
  (e = 120%Z -> refreshIn e = (60 * 1000)%Z) /\
  (refreshIn e = spec_refresh_delay_ms e <-> (e mod 5 = 0)%Z \/ (e < 300)%Z).
Proof.
  intros Hsrv Hok Hjson He Hne w'.
  assert (Hexp : expiresIn data = e).
  { unfold expiresIn. rewrite He. destruct (Z.eqb_spec e 0); [contradiction | reflexivity]. }
  assert (Hrun : login u p w =
            (Return data,
             exec (scheduleTokenRefresh (refreshIn e))
               (on_auth (set_accessToken (Json.access_token data))
                  (exec (issue (login_request u p)) w)))).
  { unfold login, fetch, response_to. unfold bind at 1. unfold bind at 1.
    change (issue (login_request u p) w)
      with (Return (length (fetch_log (win w))), exec (issue (login_request u p)) w).
    cbv beta iota. rewrite Hsrv. unfold ret at 1. cbv beta iota.
    rewrite Hok. cbn [negb]. unfold json. rewrite Hjson.
    rewrite bind_ret, bind_modify, Hexp. unfold bind at 1.
    match goal with |- context [scheduleTokenRefresh ?d ?w0] =>
      pose proof (scheduleTokenRefresh_returns d w0) as Hr end.
    unfold eval, exec in *.
    destruct (scheduleTokenRefresh _ _) as [r w2]. cbn [fst snd] in *. subst r.
    reflexivity. }
  unfold w', eval, exec. rewrite Hrun. cbn [fst snd].
  match goal with |- context [exec (scheduleTokenRefresh ?d) ?w0] =>
    destruct (scheduleTokenRefresh_frame d w0) as (_ & _ & _ & Htok & _) end.
  split; [reflexivity|]. split; [rewrite Htok; reflexivity|].
  split; [|split; [|split]].
  - unfold scheduleTokenRefresh, exec. rewrite bind_gets. simpl.
    destruct (tokenRefreshTimeout (auth w)); simpl;
      (eexists; split; [reflexivity | rewrite lookup_insert_eq; reflexivity]).
  - intros ->. reflexivity.
  - intros ->. reflexivity.
  - apply refreshIn_spec_iff.
Qed.

(** ** What can be thrown *)

Lemma throws_plain_ret {A} (a : A) : throws_plain (ret a).
Proof. intros w e _ [=]. Qed.

Lemma throws_plain_gets {A} (f : World -> A) : throws_plain (gets f).
Proof. intros w e _ [=]. Qed.

Lemma throws_plain_modify f : throws_plain (modify f).
Proof. intros w e _ [=]. Qed.

Lemma throws_plain_throw {A} e : response_status e = None -> throws_plain (@throw A e).
Proof. intros He w e' _ [= <-]. exact He. Qed.

Lemma throws_plain_bind {A B} (m : M A) (k : A -> M B) :
  preserves wf m -> throws_plain m -> (forall a, throws_plain (k a)) ->
  throws_plain (bind m k).
Proof.
  intros Hwf Hm Hk w e H. specialize (Hwf w H). specialize (Hm w).
  unfold eval, exec, bind in *.
  destruct (m w) as [[a|e0] w1]; cbn [fst snd] in *.
  - apply Hk, Hwf.
  - intros [= <-]. apply Hm; [exact H | reflexivity].
Qed.

Lemma throws_plain_try_catch {A} (m : M A) h :
  preserves wf m -> throws_plain m ->
  (forall e, response_status e = None -> throws_plain (h e)) ->
  throws_plain (try_catch m h).
Proof.
  intros Hwf Hm Hh w e H. specialize (Hwf w H). specialize (Hm w).
  unfold eval, exec, try_catch in *.
  destruct (m w) as [[a|e0] w1]; cbn [fst snd] in *; [discriminate|].
  apply Hh; [apply Hm; [exact H | reflexivity] | exact Hwf].
Qed.

Lemma issue_throws_plain r : throws_plain (issue r).
Proof. intros w e _ [=]. Qed.

Lemma response_to_throws_plain n r : throws_plain (response_to n r).
Proof.
  intros w e _. unfold response_to, eval. destruct (srv n r); intros [= <-]. reflexivity.
Qed.

Lemma fetch_throws_plain r : throws_plain (fetch r).
Proof.
  apply throws_plain_bind; [apply issue_wf | apply issue_throws_plain|].
  intros n. apply response_to_throws_plain.
Qed.

Lemma json_throws_plain r : throws_plain (json r).
Proof.
  intros w e _. unfold json, eval. destruct (Http.json r); intros [= <-]. reflexivity.
Qed.

Lemma refreshAccessToken_throws_plain : throws_plain refreshAccessToken.
Proof.
  intros w e _ He. destruct (refreshAccessToken_spec w) as (p & Hp & _). congruence.
Qed.

Lemma refresh_responds_returns p w : eval (refresh_responds p) w = Return tt.
Proof.
  unfold eval. destruct (promises (win w) !! p) as [[n| |]|] eqn:Hp.
  - rewrite (refresh_responds_eq p n w Hp).
    destruct (refresh_closure n w) as [[data|e] w1]; [reflexivity|].
    apply run_catch_handlers_returns.
  - unfold refresh_responds. rewrite bind_gets, Hp. reflexivity.
  - unfold refresh_responds. rewrite bind_gets, Hp. reflexivity.
  - unfold refresh_responds. rewrite bind_gets, Hp. reflexivity.
Qed.

Lemma await_refresh_throws_plain p : throws_plain (await_refresh p).
Proof.
  intros w e H. pose proof (refresh_responds_wf p w H) as H1.
  pose proof (refresh_responds_returns p w) as Hr.
  unfold await_refresh, eval, exec in *. unfold bind at 1.
  destruct (refresh_responds p w) as [r w1]. cbn [fst snd] in *. subst r.
  rewrite bind_gets.
  destruct (promises (win w1) !! p) as [[n|data|e0]|] eqn:Hp; intros [= <-];
    try reflexivity.
  exact (wf_rejections_plain _ H1 _ _ Hp).
Qed.

(** Whatever [apiRequest] throws carries no [response]: a [fetch] rejects
    with a [TypeError] and resolves on every HTTP status, 404 included. *)
Lemma apiRequest_throws_plain url o : throws_plain (apiRequest url o).
Proof.
  unfold apiRequest.
  apply throws_plain_bind; [apply authorize_wf | intros w e _ [=] | intros hs].
  apply throws_plain_bind; [apply fetch_wf | apply fetch_throws_plain | intros response].
  destruct (_ =? _)%Z; [|apply throws_plain_ret].
  apply throws_plain_try_catch.
  - apply preserves_bind; [apply refreshAccessToken_wf | intros p].
    apply preserves_bind; [apply await_refresh_wf | intros _].
    apply preserves_bind; [apply authorize_wf | intros hs'].
    apply fetch_wf.
  - apply throws_plain_bind;
      [apply refreshAccessToken_wf | apply refreshAccessToken_throws_plain | intros p].
    apply throws_plain_bind;
      [apply await_refresh_wf | apply await_refresh_throws_plain | intros _].
    apply throws_plain_bind; [apply authorize_wf | intros w e _ [=] | intros hs'].
    apply fetch_throws_plain.
  - intros e He.
    apply throws_plain_bind; [apply logout_detached_wf | intros w e0 _ [=] | intros _].
    apply throws_plain_bind; [apply redirect_to_login_wf | intros w e0 _ [=] | intros _].
    apply throws_plain_throw, He.
Qed.

Lemma getProgramList_throws_plain : throws_plain getProgramList.
Proof.
  unfold getProgramList.
  apply throws_plain_bind; [apply apiRequest_wf | apply apiRequest_throws_plain | intros resp].
  apply throws_plain_bind; [apply json_wf | apply json_throws_plain | intros response].
  destruct (Json.programs response); [apply throws_plain_modify|].
  apply throws_plain_throw. reflexivity.
Qed.
Lemma after_first_fetch_throws_plain url o hs n :
  throws_plain (after_first_fetch url o hs n).
Proof.
  unfold after_first_fetch.
  apply throws_plain_bind;
    [apply response_to_wf | apply response_to_throws_plain | intros response].
  destruct (_ =? _)%Z; [|apply throws_plain_ret].
  apply throws_plain_try_catch.
  - apply preserves_bind; [apply refreshAccessToken_wf | intros p].
    apply preserves_bind; [apply await_refresh_wf | intros _].
    apply preserves_bind; [apply authorize_wf | intros hs'].
    apply fetch_wf.
  - apply throws_plain_bind;
      [apply refreshAccessToken_wf | apply refreshAccessToken_throws_plain | intros p].
    apply throws_plain_bind;
      [apply await_refresh_wf | apply await_refresh_throws_plain | intros _].
    apply throws_plain_bind; [apply authorize_wf | intros w e _ [=] | intros hs'].
    apply fetch_throws_plain.
  - intros e He.
    apply throws_plain_bind; [apply logout_detached_wf | intros w e0 _ [=] | intros _].
    apply throws_plain_bind; [apply redirect_to_login_wf | intros w e0 _ [=] | intros _].
    apply throws_plain_throw, He.
Qed.

Ltac plain_setter :=
  first [ apply throws_plain_modify | apply throws_plain_ret ].

Ltac plain_setters :=
  repeat (apply throws_plain_bind; [ui_setter | plain_setter | intros _]); plain_setter.

Lemma pollTaskStatus_try_throws_plain k : throws_plain (pollTaskStatus_try k).
Proof.
  unfold pollTaskStatus_try.
  apply throws_plain_bind;
    [apply after_first_fetch_wf | apply after_first_fetch_throws_plain | intros resp].
  apply throws_plain_bind; [apply json_wf | apply json_throws_plain | intros response].
  cbv zeta.
  apply throws_plain_bind; [ui_setter | plain_setter | intros _].
  destruct (_ && _).
  - apply throws_plain_bind;
      [apply getProgramList_wf | apply getProgramList_throws_plain | intros _].
    unfold setLoading, setTaskStatus, setProgramAction, setProgramName. plain_setters.
  - destruct (_ || _); [|plain_setter].
    unfold setError, setLoading, setProgramAction, setSelectedProgram. plain_setters.
Qed.

(** The not-found branch of the [catch] leaves everything as it is ... *)
Lemma pollTaskStatus_catch_not_found msg w :
  pollTaskStatus_catch (HttpError 404 msg) w = (Return tt, w).
Proof. reflexivity. Qed.

(** ... but nothing sends an error into it: the guard
    [e.response?.status !== 404] is true of every error the [try] block can
    raise. *)
Lemma pollTaskStatus_catch_guard k w e :
  wf w ->
  eval (pollTaskStatus_try k) w = Throw e ->
  bool_decide (response_status e <> Some 404%Z) = true.
Proof.
  intros H He. apply bool_decide_eq_true_2.
  rewrite (pollTaskStatus_try_throws_plain k w e H He). discriminate.
Qed.

(** ** Failed refreshes *)

(** The failure the closure handles: on a response that is not ok the marker
    is cleared before the error goes out. *)
Lemma refresh_not_ok_clears_marker p n w response :
  promises (win w) !! p = Some (Pending n) ->
  srv n refresh_request = Responds response ->
  Http.ok response = false ->
  let w' := exec (refresh_responds p) w in
  _refreshPromise (auth w') = None /\
  promises (win w') !! p = Some (Rejected (Error "Token refresh failed")).
Proof.
  intros Hp Hsrv Hok w'. pose proof (refresh_responds_outcome p n w Hp) as Ho.
  cbv zeta in Ho. rewrite refresh_closure_eq, Hsrv, Hok in Ho.
  destruct Ho as (Hrej & Hauth & _). fold w' in Hrej, Hauth.
  split; [rewrite Hauth; reflexivity | exact Hrej].
Qed.

(** The failures it misses: when the [fetch] itself is rejected, or the body
    of an ok response does not parse, the exception leaves the closure
    before any of its two assignments, and the marker keeps pointing to the
    rejected promise. *)
Lemma refresh_exception_keeps_marker p n w :
  wf w ->
  promises (win w) !! p = Some (Pending n) ->
  srv n refresh_request = NetworkFailure \/
  (exists response, srv n refresh_request = Responds response /\
                    Http.ok response = true /\ Http.json response = None) ->
  let w' := exec (refresh_responds p) w in
  _refreshPromise (auth w') = Some p /\
  (exists e, promises (win w') !! p = Some (Rejected e)) /\
  refreshAccessToken w' = (Return p, w').
Proof.
  intros H Hp Hsrv w'. pose proof (refresh_responds_outcome p n w Hp) as Ho.
  cbv zeta in Ho. rewrite refresh_closure_eq in Ho. fold w' in Ho.
  pose proof (wf_inflight _ H _ _ Hp) as Hm.
  assert (Hres : _refreshPromise (auth w') = Some p /\
                 exists e, promises (win w') !! p = Some (Rejected e)).
  { destruct Hsrv as [Hsrv | (response & Hsrv & Hok & Hjson)].
    - rewrite Hsrv in Ho. destruct Ho as (Hrej & Hauth & _).
      split; [rewrite Hauth; exact Hm | eauto].
    - rewrite Hsrv, Hok, Hjson in Ho. destruct Ho as (Hrej & Hauth & _).
      split; [rewrite Hauth; exact Hm | eauto]. }
  destruct Hres as [Hm' Hrej]. split; [exact Hm'|]. split; [exact Hrej|].
  apply refreshAccessToken_inflight, Hm'.
Qed.
(** ** Polling *)

Lemma react_exec ev w :
  exec (react ev) w =
  exec useEffect (exec (try_catch (handle ev) (fun _ => ret tt)) w).
Proof.
  unfold react, exec, bind, try_catch.
  destruct (handle ev w) as [[[]|e] w1]; reflexivity.
Qed.

Lemma reachable_committed evs : committed (run evs init).
Proof.
  induction evs as [|ev evs _] using rev_ind; [reflexivity|].
  rewrite run_app, react_exec. apply useEffect_committed.
Qed.

Lemma strict_eq_true v lit : strict_eq v lit = true <-> v = JString lit.
Proof.
  destruct v as [| |s]; simpl; try (split; [discriminate | discriminate]).
  rewrite String.eqb_eq. split; [intros ->; reflexivity | intros [= ->]; reflexivity].
Qed.

Lemma polling_active_iff w :
  wf w -> committed w ->
  polling_active w <->
  truthy (taskId (ui w)) = true /\ taskStatus (ui w) = JString "processing".
Proof.
  intros H Hc. unfold committed in Hc. rewrite <- strict_eq_true, <- andb_true_iff.
  split.
  - intros (t & tm & Ht & Hcb).
    pose proof (wf_poll_owned _ H _ _ _ Ht Hcb) as Hh.
    destruct (wf_poll_armed _ H _ Hh) as (a & b & Hd & _ & Hg).
    rewrite Hc in Hd. injection Hd as <- <-. exact Hg.
  - intros Hg. destruct (pollIntervall (ui w)) as [h|] eqn:Hh.
    + destruct (wf_poll_armed _ H _ Hh) as (a & b & Hd & Hl & _).
      rewrite Hc in Hd. injection Hd as <- <-.
      exists h. eexists. split; [exact Hl | reflexivity].
    + destruct (wf_poll_idle _ H Hh) as (a & b & Hd & Hf).
      rewrite Hc in Hd. injection Hd as <- <-. congruence.
Qed.


Lemma useEffect_committed_id w : committed w -> exec useEffect w = w.
Proof.
  intros Hc. rewrite useEffect_exec. cbv zeta.
  rewrite bool_decide_eq_true_2; [reflexivity | exact Hc].
Qed.

Lemma useEffect_keeps_status w :
  taskStatus (ui (exec useEffect w)) = taskStatus (ui w) /\
  taskId (ui (exec useEffect w)) = taskId (ui w) /\
  error (ui (exec useEffect w)) = error (ui w) /\
  loading (ui (exec useEffect w)) = loading (ui w) /\
  fetch_log (win (exec useEffect w)) = fetch_log (win w) /\
  outstanding_polls (win (exec useEffect w)) = outstanding_polls (win w).
Proof.
  rewrite useEffect_exec. cbv zeta.
  destruct (bool_decide _); [repeat split; reflexivity|].
  destruct (pollIntervall (ui w));
    destruct (truthy (taskId (ui w)) && strict_eq (taskStatus (ui w)) "processing");
    repeat split; reflexivity.
Qed.






(** The status request was answered with [resp], and not with 401. *)
Lemma after_first_fetch_answered url o hs n resp w :
  srv n (outgoing url o hs) = Responds resp ->
  Http.status resp <> 401%Z ->
  after_first_fetch url o hs n w = (Return resp, w).
Proof.
  intros Hsrv Hne. unfold after_first_fetch, response_to. rewrite Hsrv, bind_ret.
  destruct (Z.eqb_spec (Http.status resp) 401); [contradiction | reflexivity].
Qed.



(** The answer to the [i]-th unanswered status request is taken up. *)
Lemma poll_answer i k w :
  outstanding_polls (win w) !! i = Some k ->
  exec (react (PollResponds i)) w =
  exec useEffect (exec (pollTaskStatus_resume k) (answering i w)).
Proof.
  intros Hk. rewrite react_exec. f_equal.
  unfold exec, try_catch. simpl. unfold poll_responds. rewrite bind_gets, Hk.
  rewrite bind_modify. fold (answering i w).
  assert (Hret : forall w0, exists w1, pollTaskStatus_resume k w0 = (Return tt, w1)).
  { intros w0. unfold pollTaskStatus_resume, try_catch.
    destruct (pollTaskStatus_try k w0) as [[[]|e] w1]; [eauto|].
    unfold pollTaskStatus_catch. destruct (bool_decide _); eauto. }
  destruct (Hret (answering i w)) as (w1 & ->). reflexivity.
Qed.


(** ** Errors while polling *)

(** C4 (amended): when a status request, or the parsing of its answer, fails
    with an error other than the not-found one, the error is surfaced and
    the loading state reset, but the task and its status are left as they
    are: a task that was [processing] stays so, its interval stays armed
    and polling goes on. *)
Theorem poll_error_keeps_polling evs i k e :
  let w := run evs init in
  outstanding_polls (win w) !! i = Some k ->
  eval (resp <- after_first_fetch (status_url (poll_id k)) GET
                  (poll_headers k) (poll_fetch k) ;;
        json resp) (answering i w) = Throw e ->
  response_status e <> Some 404%Z ->
  let w1 := run (evs ++ [PollResponds i]) init in
  error (ui w1) = JString ("Failed to check Program status: " +:+ message e) /\
  loading (ui w1) = false /\
  taskId (ui w1) = taskId (ui w) /\
  taskStatus (ui w1) = taskStatus (ui w) /\
  pollIntervall (ui w1) = pollIntervall (ui w) /\
  (polling_active w -> polling_active w1).
Proof.
  intros w Hk Hev Hne w1.
  pose proof (reachable_wf evs) as H. pose proof (reachable_committed evs) as Hc.
  fold w in H, Hc.
  (* the try block stops at the request, the catch runs *)
  assert (Hpoll : exists w0, calm (answering i w) w0 /\
            exec (pollTaskStatus_resume k) (answering i w) =
            on_ui (set_selectedProgram (JString ""))
              (on_ui (set_programAction "")
                 (on_ui (set_loading false)
                    (on_ui (set_error (JString ("Failed to check Program status: "
                                                +:+ message e))) w0)))).
  { pose proof (after_first_fetch_calm (status_url (poll_id k)) GET (poll_headers k)
                  (poll_fetch k) (answering i w)) as Hcalm.
    unfold pollTaskStatus_resume, pollTaskStatus_try, pollTaskStatus_catch,
      exec, try_catch in *.
    unfold eval in Hev. unfold bind at 1 in Hev. unfold bind at 1.
    destruct (after_first_fetch (status_url (poll_id k)) GET (poll_headers k)
                (poll_fetch k) (answering i w)) as [[resp|e0] w0]; cbn [fst snd] in *.
    - exists w0. split; [exact Hcalm|]. unfold json in *.
      destruct (Http.json resp) as [data|]; [discriminate|].
      cbn [fst] in Hev. injection Hev as <-.
      unfold bind at 1. cbn. reflexivity.
    - exists w0. split; [exact Hcalm|]. injection Hev as ->.
      rewrite bool_decide_eq_true_2 by exact Hne. reflexivity. }
  destruct Hpoll as (w0 & (_ & Hv & _) & Hpoll).
  unfold tracker_view in Hv. injection Hv as Hv1 Hv2 Hv3 Hv4 _.
  simpl in Hv1, Hv2, Hv3, Hv4.
  assert (Hw1 : w1 = exec (pollTaskStatus_resume k) (answering i w)).
  { unfold w1. rewrite run_app. fold w. rewrite (poll_answer i k w Hk).
    apply useEffect_committed_id. rewrite Hpoll. unfold committed in *. simpl.
    congruence. }
  assert (Hst1 : taskStatus (ui w1) = taskStatus (ui w))
    by (rewrite Hw1, Hpoll; simpl; congruence).
  assert (Hid1 : taskId (ui w1) = taskId (ui w))
    by (rewrite Hw1, Hpoll; simpl; congruence).
  split; [rewrite Hw1, Hpoll; reflexivity|].
  split; [rewrite Hw1, Hpoll; reflexivity|].
  split; [exact Hid1|]. split; [exact Hst1|].
  split; [rewrite Hw1, Hpoll; simpl; congruence|].
  intros Ha. apply (polling_active_iff w H Hc) in Ha.
  apply polling_active_iff.
  - unfold w1. apply reachable_wf.
  - unfold w1. apply reachable_committed.
  - rewrite Hid1, Hst1. exact Ha.
Qed.

(** A status request answered with a body that has neither a [status] nor
    an [error] field (whatever the HTTP status short of 401, 404 included)
    makes the status [undefined]; no error is recorded, and no interval
    polls the task any more. *)
Lemma poll_answer_without_status evs i k resp data :
  let w := run evs init in
  outstanding_polls (win w) !! i = Some k ->
  srv (poll_fetch k) (outgoing (status_url (poll_id k)) GET (poll_headers k))
    = Responds resp ->
  Http.status resp <> 401%Z ->
  Http.json resp = Some data ->
  Json.status data = JUndefined ->
  Json.error data = JUndefined ->
  let w1 := run (evs ++ [PollResponds i]) init in
  taskStatus (ui w1) = JUndefined /\ error (ui w1) = error (ui w) /\
  loading (ui w1) = loading (ui w) /\ ~ polling_active w1.
Proof.
  intros w Hk Hsrv Hne Hjson Hst Herr w1.
  assert (Hw1 : w1 = exec useEffect (on_ui (set_taskStatus JUndefined) (answering i w))).
  { unfold w1. rewrite run_app. fold w. rewrite (poll_answer i k w Hk). f_equal.
    unfold pollTaskStatus_resume, pollTaskStatus_try, exec, try_catch.
    unfold bind at 1.
    rewrite (after_first_fetch_answered _ _ _ _ resp (answering i w) Hsrv Hne).
    unfold json. rewrite Hjson, bind_ret. cbv zeta. rewrite Hst, Herr. reflexivity. }
  assert (Hs : taskStatus (ui w1) = JUndefined).
  { rewrite Hw1.
    destruct (useEffect_keeps_status
                (on_ui (set_taskStatus JUndefined) (answering i w))) as [-> _].
    reflexivity. }
  split; [exact Hs|].
  split; [|split].
  - rewrite Hw1.
    destruct (useEffect_keeps_status
                (on_ui (set_taskStatus JUndefined) (answering i w)))
      as (_ & _ & -> & _). reflexivity.
  - rewrite Hw1.
    destruct (useEffect_keeps_status
                (on_ui (set_taskStatus JUndefined) (answering i w)))
      as (_ & _ & _ & -> & _). reflexivity.
  - intros Ha. apply polling_active_iff in Ha as [_ Ha].
    + rewrite Hs in Ha. discriminate.
    + unfold w1. apply reachable_wf.
    + unfold w1. apply reachable_committed.
Qed.

(** ** Where requests go *)

Lemma prefix_app p s : String.prefix p (p +:+ s) = true.
Proof.
  induction p as [|c p IH]; simpl; [destruct s; reflexivity|].
  destruct (Ascii.ascii_dec c c) as [_|Hn]; [exact IH | contradiction].
Qed.

(** X1: Resolving an address twice is resolving it once; a resolved address is
    absolute or lies under [API_BASE_URL]; an address that already is so
    goes out unchanged. *)
Theorem resolve_idempotent url :
  resolve (resolve url) = resolve url /\
  (is_http_url (resolve url) = true \/
   String.prefix API_BASE_URL (resolve url) = true) /\
  (is_http_url url = true \/ String.prefix API_BASE_URL url = true ->
   resolve url = url).
Proof.
  assert (Hfix : forall u, is_http_url u = true \/ String.prefix API_BASE_URL u = true ->
                           resolve u = u).
  { intros u [Hu | Hu]; unfold resolve; rewrite Hu; [reflexivity|].
    destruct (is_http_url u); reflexivity. }
  assert (Hrange : is_http_url (resolve url) = true \/
                   String.prefix API_BASE_URL (resolve url) = true).
  { unfold resolve. destruct (is_http_url url) eqn:Hh; [left; exact Hh|].
    destruct (String.prefix API_BASE_URL url) eqn:Hp; [right; exact Hp|].
    destruct (String.prefix "/" url); right; apply prefix_app. }
  split; [apply Hfix, Hrange|]. split; [exact Hrange | apply Hfix].
Qed.

Lemma apiRequest_first_answer url o w :
  let req := outgoing url o (authorized w (headers o)) in
  match srv (length (fetch_log (win w))) req with
  | Responds r => Http.status r <> 401%Z
  | NetworkFailure => True
  end ->
  apiRequest url o w =
  (match srv (length (fetch_log (win w))) req with
   | Responds r => Return r
   | NetworkFailure => Throw (TypeError "Failed to fetch")
   end,
   on_win (set_fetch_log (fetch_log (win w) ++ [req])) w).
Proof.
  intros req Hsrv. rewrite apiRequest_eq. cbv zeta. subst req.
  destruct (srv _ _) as [|r] eqn:Hr.
  - unfold after_first_fetch, response_to. rewrite Hr. reflexivity.
  - rewrite (after_first_fetch_answered _ _ _ _ r _ Hr Hsrv). reflexivity.
Qed.

(** X2: Unless the first answer is 401, [apiRequest] sends its one request and
    touches nothing else: a response is handed back whatever its status, a
    network failure is rethrown, and there is no refresh, no logout and no
    redirect. *)
Theorem apiRequest_hands_back url o w :
  let req := outgoing url o (authorized w (headers o)) in
  let w' := exec (apiRequest url o) w in
  match srv (length (fetch_log (win w))) req with
  | Responds r => Http.status r <> 401%Z
  | NetworkFailure => True
  end ->
  eval (apiRequest url o) w =
    match srv (length (fetch_log (win w))) req with
    | Responds r => Return r
    | NetworkFailure => Throw (TypeError "Failed to fetch")
    end /\
  w' = on_win (set_fetch_log (fetch_log (win w) ++ [req])) w /\
  issued w w' = [req] /\
  auth w' = auth w /\
  logout_calls (win w') = logout_calls (win w) /\
  location_href (win w') = location_href (win w).
Proof.
  intros req w' Hsrv.
  pose proof (apiRequest_first_answer url o w Hsrv) as Hrun. fold req in Hrun.
  unfold w', eval, exec. rewrite Hrun. cbn [fst snd].
  split; [reflexivity|]. split; [reflexivity|].
  split; [apply issued_app; reflexivity|]. repeat split.
Qed.

(** ** What every request carries *)

Lemma sends_well_refl w : sends_well w w.
Proof. exists []. split; [symmetry; apply app_nil_r | constructor]. Qed.

Lemma sends_well_trans w1 w2 w3 : sends_well w1 w2 -> sends_well w2 w3 -> sends_well w1 w3.
Proof.
  intros (l1 & Hl1 & H1) (l2 & Hl2 & H2). exists (l1 ++ l2)%list. split.
  - rewrite Hl2, Hl1, app_assoc. reflexivity.
  - apply Forall_app. split; assumption.
Qed.

Lemma sends_well_silent w w' :
  fetch_log (win w') = fetch_log (win w) -> sends_well w w'.
Proof. intros Hl. exists []. split; [rewrite Hl, app_nil_r; reflexivity | constructor]. Qed.

Lemma issue_sends_well r : well_addressed r -> respects sends_well (issue r).
Proof. intros Hr w. exists [r]. split; [reflexivity | constructor; [exact Hr | constructor]]. Qed.

Lemma outgoing_well_addressed url o hs : well_addressed (outgoing url o hs).
Proof.
  split; [reflexivity|]. simpl. unfold resolve.
  destruct (is_http_url url) eqn:Hh; [left; exact Hh|].
  destruct (String.prefix API_BASE_URL url) eqn:Hp; [right; exact Hp|].
  destruct (String.prefix "/" url); right; apply prefix_app.
Qed.

Lemma session_requests_well_addressed u p :
  well_addressed (login_request u p) /\ well_addressed refresh_request /\
  well_addressed logout_request.
Proof. repeat split; right; apply prefix_app. Qed.

Create HintDb sends_well.

Ltac well_leaf :=
  first
    [ apply issue_sends_well;
      first [ apply outgoing_well_addressed
            | apply (session_requests_well_addressed EmptyString EmptyString)
            | apply session_requests_well_addressed ]
    | intros ?; apply sends_well_silent; reflexivity ].

Ltac well_step :=
  first
    [ solve [auto 1 with sends_well nocore]
    | apply respects_bind; [apply sends_well_trans | | intros ?]
    | apply respects_try_catch; [apply sends_well_trans | | intros ?]
    | apply respects_when; [apply sends_well_refl |]
    | match goal with
      | |- respects _ (match ?x with _ => _ end) => destruct x
      end
    | well_leaf ].

Ltac well := repeat well_step.

Lemma response_to_sends_well n r : respects sends_well (response_to n r).
Proof. unfold response_to. well. Qed.

Lemma json_sends_well r : respects sends_well (json r).
Proof. unfold json. well. Qed.

#[local] Hint Resolve response_to_sends_well json_sends_well : sends_well.

Lemma fetch_sends_well r : well_addressed r -> respects sends_well (fetch r).
Proof. intros Hr. unfold fetch. well. apply issue_sends_well, Hr. Qed.

Lemma logout_begin_sends_well : respects sends_well logout_begin.
Proof. unfold logout_begin. well. Qed.

Lemma logout_resume_sends_well n : respects sends_well (logout_resume n).
Proof. unfold logout_resume, clearTimeout. well. Qed.

#[local] Hint Resolve logout_begin_sends_well logout_resume_sends_well : sends_well.

Lemma logout_sends_well : respects sends_well logout.
Proof. unfold logout. well. Qed.

Lemma logout_detached_sends_well : respects sends_well logout_detached.
Proof. unfold logout_detached. well. Qed.

#[local] Hint Resolve logout_sends_well logout_detached_sends_well : sends_well.

Lemma scheduleTokenRefresh_sends_well delay : respects sends_well (scheduleTokenRefresh delay).
Proof.
  intros w. apply sends_well_silent.
  destruct (scheduleTokenRefresh_frame delay w) as (_ & _ & _ & _ & _ & Hlog & _).
  exact Hlog.
Qed.

#[local] Hint Resolve scheduleTokenRefresh_sends_well : sends_well.

Lemma login_sends_well u p : respects sends_well (login u p).
Proof. unfold login, fetch. well. Qed.

Lemma refreshAccessToken_sends_well : respects sends_well refreshAccessToken.
Proof. unfold refreshAccessToken. well. Qed.

Lemma refresh_closure_sends_well n : respects sends_well (refresh_closure n).
Proof. unfold refresh_closure. well. Qed.

Lemma scheduled_refresh_failed_sends_well : respects sends_well scheduled_refresh_failed.
Proof. unfold scheduled_refresh_failed, redirect_to_login. well. Qed.

#[local] Hint Resolve login_sends_well refreshAccessToken_sends_well
  refresh_closure_sends_well scheduled_refresh_failed_sends_well : sends_well.

Lemma run_catch_handlers_sends_well p hs : respects sends_well (run_catch_handlers p hs).
Proof. induction hs as [|q hs IH]; simpl; well. Qed.

#[local] Hint Resolve run_catch_handlers_sends_well : sends_well.

Lemma refresh_responds_sends_well p : respects sends_well (refresh_responds p).
Proof. unfold refresh_responds, settle. well. Qed.

#[local] Hint Resolve refresh_responds_sends_well : sends_well.

Lemma await_refresh_sends_well p : respects sends_well (await_refresh p).
Proof. unfold await_refresh. well. Qed.

#[local] Hint Resolve await_refresh_sends_well : sends_well.

Lemma after_first_fetch_sends_well url o hs n :
  respects sends_well (after_first_fetch url o hs n).
Proof. unfold after_first_fetch, authorize, fetch, redirect_to_login. well. Qed.

Lemma apiRequest_sends_well url o : respects sends_well (apiRequest url o).
Proof. unfold apiRequest, authorize, fetch, redirect_to_login. well. Qed.

#[local] Hint Resolve after_first_fetch_sends_well apiRequest_sends_well : sends_well.

Lemma getProgramList_sends_well : respects sends_well getProgramList.
Proof. unfold getProgramList. well. Qed.

Lemma pollTaskStatus_sends_well id : respects sends_well (pollTaskStatus id).
Proof. unfold pollTaskStatus, authorize. well. Qed.

#[local] Hint Resolve getProgramList_sends_well pollTaskStatus_sends_well : sends_well.

Lemma pollTaskStatus_resume_sends_well k : respects sends_well (pollTaskStatus_resume k).
Proof.
  unfold pollTaskStatus_resume, pollTaskStatus_try, pollTaskStatus_catch.
  cbv zeta. well.
Qed.

Lemma refresh_timer_fires_sends_well : respects sends_well refresh_timer_fires.
Proof. unfold refresh_timer_fires. well. Qed.

#[local] Hint Resolve pollTaskStatus_resume_sends_well refresh_timer_fires_sends_well
  : sends_well.

Lemma handle_sends_well ev : respects sends_well (handle ev).
Proof.
  destruct ev; simpl;
    unfold logoutAllDevices, timer_fires, poll_responds, logout_responds,
      handleNewProgramSubmit, handleDeleteProgram, clearTimeout;
    well.
Qed.

Lemma useEffect_sends_well : respects sends_well useEffect.
Proof.
  intros w. apply sends_well_silent.
  destruct (useEffect_keeps_status w) as (_ & _ & _ & _ & Hlog & _). exact Hlog.
Qed.

Lemma react_sends_well ev : respects sends_well (react ev).
Proof.
  pose proof (handle_sends_well ev). pose proof useEffect_sends_well.
  unfold react. well; assumption.
Qed.

Lemma run_sends_well evs w : sends_well w (run evs w).
Proof.
  induction evs as [|ev evs IH] using rev_ind; [apply sends_well_refl|].
  rewrite run_app. eapply sends_well_trans; [exact IH | apply react_sends_well].
Qed.

(** X3: Whatever happens, every request the client has sent carries the cookies
    ([credentials: 'include']) and went to an absolute address or to one
    under [API_BASE_URL]. *)
Theorem requests_well_addressed evs :
  Forall well_addressed (fetch_log (win (run evs init))).
Proof.
  destruct (run_sends_well evs init) as (l & Hl & Hall).
  rewrite Hl. exact Hall.
Qed.

(** ** Login *)

Lemma login_eq u p w :
  login u p w =
  let w1 := exec (issue (login_request u p)) w in
  match srv (length (fetch_log (win w))) (login_request u p) with
  | NetworkFailure => (Throw (TypeError "Failed to fetch"), w1)
  | Responds response =>
      if Http.ok response then
        match Http.json response with
        | None => (Throw (SyntaxError "Unexpected token in JSON"), w1)
        | Some data =>
            (Return data,
             exec (scheduleTokenRefresh (refreshIn (expiresIn data)))
               (on_auth (set_accessToken (Json.access_token data)) w1))
        end
      else (Throw (Error "Login failed"), w1)
  end.
Proof.
  cbv zeta. unfold login, fetch, response_to. unfold bind at 1. unfold bind at 1.
  change (issue (login_request u p) w)
    with (Return (length (fetch_log (win w))), exec (issue (login_request u p)) w).
  cbv beta iota.
  destruct (srv (length (fetch_log (win w))) (login_request u p)) as [|response];
    [reflexivity|].
  unfold ret at 1. cbv beta iota.
  destruct (Http.ok response); cbn [negb]; [|reflexivity].
  unfold json. destruct (Http.json response) as [data|]; [|reflexivity].
  rewrite bind_ret, bind_modify. unfold bind at 1.
  match goal with |- context [scheduleTokenRefresh ?d ?w0] =>
    pose proof (scheduleTokenRefresh_returns d w0) as Hr end.
  unfold eval, exec in *.
  destruct (scheduleTokenRefresh _ _) as [r w2]. cbn [fst snd] in *. subst r.
  reflexivity.
Qed.

(** X4: A login that fails, for whatever reason, leaves the session as it was:
    the token held, the refresh timer and the in-flight marker are those
    from before, and a single request went out.  A response that is not ok
    makes the error "Login failed". *)
Theorem login_failure_keeps_session u p w e :
  eval (login u p) w = Throw e ->
  let w' := exec (login u p) w in
  auth w' = auth w /\
  timers (win w') = timers (win w) /\
  issued w w' = [login_request u p] /\
  (forall response,
     srv (length (fetch_log (win w))) (login_request u p) = Responds response ->
     Http.ok response = false -> e = Error "Login failed").
Proof.
  intros He w'. unfold w', eval, exec in *. rewrite login_eq in *. cbv zeta in *.
  assert (Hlog : issued w (exec (issue (login_request u p)) w) = [login_request u p])
    by (apply issued_app; reflexivity).
  destruct (srv (length (fetch_log (win w))) (login_request u p)) as [|response].
  - injection He as <-. cbn [snd]. split; [reflexivity|]. split; [reflexivity|].
    split; [exact Hlog | discriminate].
  - destruct (Http.ok response) eqn:Hok.
    + destruct (Http.json response) as [data|]; [discriminate|].
      injection He as <-. cbn [snd]. split; [reflexivity|]. split; [reflexivity|].
      split; [exact Hlog|]. intros r [= <-] Hr. congruence.
    + injection He as <-. cbn [snd]. split; [reflexivity|]. split; [reflexivity|].
      split; [exact Hlog|]. intros; reflexivity.
Qed.

Lemma scheduleTokenRefresh_arms delay w :
  let w' := exec (scheduleTokenRefresh delay) w in
  exists t, tokenRefreshTimeout (auth w') = Some t /\
            timers (win w') !! t =
            Some {| tm_callback := RefreshCallback; tm_delay := delay;
                    tm_repeat := false |}.
Proof.
  unfold scheduleTokenRefresh, exec. rewrite bind_gets. simpl.
  destruct (tokenRefreshTimeout (auth w)); simpl;
    (eexists; split; [reflexivity | rewrite lookup_insert_eq; reflexivity]).
Qed.

(** X5: A login whose response has no [expires_in], or reports 0, counts the
    token as good for 30 minutes: the refresh is due after 24 minutes. *)
Theorem login_default_expiry u p w response data :
  srv (length (fetch_log (win w))) (login_request u p) = Responds response ->
  Http.ok response = true ->
  Http.json response = Some data ->
  Json.expires_in data = None \/ Json.expires_in data = Some 0%Z ->
  let w' := exec (login u p) w in
  exists t, tokenRefreshTimeout (auth w') = Some t /\
            timers (win w') !! t =
            Some {| tm_callback := RefreshCallback; tm_delay := 1440000;
                    tm_repeat := false |}.
Proof.
  intros Hsrv Hok Hjson Hexp w'. unfold w', exec. rewrite login_eq. cbv zeta.
  rewrite Hsrv, Hok, Hjson. cbn [snd].
  assert (Hd : refreshIn (expiresIn data) = 1440000%Z).
  { unfold expiresIn. destruct Hexp as [-> | ->]; reflexivity. }
  rewrite Hd. apply scheduleTokenRefresh_arms.
Qed.

(** X6: After a successful login the refresh is due at least 60 seconds before
    the token expires and no later than four fifths into its lifetime (give
    or take the 800 ms the rounding can add); for a lifetime of 60 seconds
    or less the delay is not positive, so the refresh is due at once. *)
Theorem login_refresh_margin u p w response data :
  srv (length (fetch_log (win w))) (login_request u p) = Responds response ->
  Http.ok response = true ->
  Http.json response = Some data ->
  let w' := exec (login u p) w in
  let lifetime := expiresIn data in
  exists t tm,
    tokenRefreshTimeout (auth w') = Some t /\
    timers (win w') !! t = Some tm /\
    tm_callback tm = RefreshCallback /\
    (1000 * lifetime - tm_delay tm >= 60000)%Z /\
    (tm_delay tm <= 800 * lifetime + 800)%Z /\
    (tm_delay tm <= 0 <-> lifetime <= 60)%Z.
Proof.
  intros Hsrv Hok Hjson w' lifetime. unfold w', exec. rewrite login_eq. cbv zeta.
  rewrite Hsrv, Hok, Hjson. cbn [snd]. fold lifetime.
  match goal with |- context [exec (scheduleTokenRefresh ?d) ?w0] =>
    destruct (scheduleTokenRefresh_arms d w0) as (t & Ht & Htm) end.
  exists t. eexists. split; [exact Ht|]. split; [exact Htm|]. cbn [tm_callback tm_delay].
  split; [reflexivity|]. unfold refreshIn, refreshBefore.
  pose proof (Z.div_mod lifetime 5 ltac:(lia)) as Hdiv.
  pose proof (Z.mod_pos_bound lifetime 5 ltac:(lia)) as Hmod.
  clearbody lifetime.
  repeat split; lia.
Qed.

(** ** A refresh that succeeds *)

Lemma scheduleTokenRefresh_single delay w :
  wf w ->
  let w' := exec (scheduleTokenRefresh delay) w in
  exists t, tokenRefreshTimeout (auth w') = Some t /\
            refresh_timers w' =
            {[ t := {| tm_callback := RefreshCallback; tm_delay := delay;
                       tm_repeat := false |} ]}.
Proof.
  intros H w'.
  set (cancelled := match tokenRefreshTimeout (auth w) with
                    | Some t => exec (clearTimeout t) w
                    | None => w
                    end).
  assert (Hnone : refresh_timers cancelled = ∅).
  { unfold cancelled. destruct (tokenRefreshTimeout (auth w)) eqn:Ht.
    - apply clearTimeout_no_refresh; assumption.
    - apply no_handle_no_refresh; assumption. }
  assert (Hw' : w' = exec (t <- setTimeout RefreshCallback delay ;;
                           modify (on_auth (set_tokenRefreshTimeout (Some t)))) cancelled).
  { unfold w', cancelled, scheduleTokenRefresh, exec. rewrite bind_gets.
    destruct (tokenRefreshTimeout (auth w)); reflexivity. }
  pose proof (arm_refresh_timers delay cancelled Hnone) as Harm. rewrite <- Hw' in Harm.
  exists (next_timer (win cancelled)). split; [rewrite Hw'; reflexivity | exact Harm].
Qed.

(** X7: When the refresh call is answered with a token, the token replaces the
    one held, the in-flight marker is cleared, the promise is fulfilled, and
    the next refresh is armed from the new expiry: it is the one refresh
    timer there is. *)
Theorem refresh_success_rearms evs p n response data :
  let w := run evs init in
  promises (win w) !! p = Some (Pending n) ->
  srv n refresh_request = Responds response ->
  Http.ok response = true ->
  Http.json response = Some data ->
  let w' := exec (refresh_responds p) w in
  accessToken (auth w') = Json.access_token data /\
  _refreshPromise (auth w') = None /\
  promises (win w') !! p = Some (Fulfilled data) /\
  exists t, tokenRefreshTimeout (auth w') = Some t /\
            refresh_timers w' =
            {[ t := {| tm_callback := RefreshCallback;
                       tm_delay := refreshIn (expiresIn data);
                       tm_repeat := false |} ]}.
Proof.
  intros w Hp Hsrv Hok Hjson w'.
  pose proof (reachable_wf evs) as H. fold w in H.
  pose proof (refresh_responds_outcome p n w Hp) as Ho. cbv zeta in Ho.
  rewrite refresh_closure_eq, Hsrv, Hok, Hjson in Ho. fold w' in Ho.
  destruct Ho as (Hful & Htok & Hm & Hauth & Htimers).
  split; [exact Htok|]. split; [exact Hm|]. split; [exact Hful|].
  set (w0 := on_auth (set_accessToken (Json.access_token data)) w) in *.
  assert (H0 : wf w0) by (apply (wf_core w); [reflexivity | exact H]).
  destruct (scheduleTokenRefresh_single (refreshIn (expiresIn data)) w0 H0)
    as (t & Ht & Hone).
  exists t. split; [rewrite Hauth; exact Ht|].
  unfold refresh_timers in *. rewrite Htimers. exact Hone.
Qed.

(** ** A scheduled refresh that fails *)

Lemma scheduled_refresh_failed_spec w :
  let w' := exec scheduled_refresh_failed w in
  logout_calls (win w') = S (logout_calls (win w)) /\
  location_href (win w') = Some "/login" /\
  accessToken (auth w') = accessToken (auth w) /\
  fetch_log (win w') = (fetch_log (win w) ++ [logout_request])%list /\
  detached_logouts (win w') =
    (detached_logouts (win w) ++ [length (fetch_log (win w))])%list.
Proof. repeat split. Qed.

Lemma run_catch_handlers_grows p hs w :
  let w' := exec (run_catch_handlers p hs) w in
  logout_calls (win w) <= logout_calls (win w') /\
  (location_href (win w) = Some "/login" -> location_href (win w') = Some "/login") /\
  accessToken (auth w') = accessToken (auth w) /\
  (exists l, fetch_log (win w') = (fetch_log (win w) ++ l)%list) /\
  (exists l, detached_logouts (win w') = (detached_logouts (win w) ++ l)%list).
Proof.
  revert w. induction hs as [|q hs IH]; intros w.
  - cbv zeta. change (exec (run_catch_handlers p []) w) with w.
    split; [lia|]. split; [auto|]. split; [reflexivity|].
    split; exists []; symmetry; apply app_nil_r.
  - cbn [run_catch_handlers]. cbv zeta. destruct (bool_decide (q = p)).
    + change (exec (when true scheduled_refresh_failed ;; run_catch_handlers p hs) w)
        with (exec (run_catch_handlers p hs) (exec scheduled_refresh_failed w)).
      destruct (IH (exec scheduled_refresh_failed w))
        as (Hc & Hh & Ht & (l & Hl) & (d & Hd)).
      destruct (scheduled_refresh_failed_spec w) as (Hc0 & Hh0 & Ht0 & Hl0 & Hd0).
      cbv zeta in *.
      split; [lia|]. split; [intros _; apply Hh, Hh0|].
      split; [rewrite Ht; exact Ht0|].
      split; eexists; [rewrite Hl, Hl0 | rewrite Hd, Hd0];
        rewrite <- app_assoc; reflexivity.
    + change (exec (when false scheduled_refresh_failed ;; run_catch_handlers p hs) w)
        with (exec (run_catch_handlers p hs) w). apply IH.
Qed.

Lemma run_catch_handlers_logs_out p hs w :
  p ∈ hs ->
  let w' := exec (run_catch_handlers p hs) w in
  logout_calls (win w) < logout_calls (win w') /\
  location_href (win w') = Some "/login" /\
  accessToken (auth w') = accessToken (auth w) /\
  (exists l, fetch_log (win w') = (fetch_log (win w) ++ logout_request :: l)%list) /\
  detached_logouts (win w') <> [].
Proof.
  revert w. induction hs as [|q hs IH]; intros w Hin; [inversion Hin|].
  cbn [run_catch_handlers]. cbv zeta.
  destruct (bool_decide (q = p)) eqn:Hq.
  - change (exec (when true scheduled_refresh_failed ;; run_catch_handlers p hs) w)
      with (exec (run_catch_handlers p hs) (exec scheduled_refresh_failed w)).
    destruct (run_catch_handlers_grows p hs (exec scheduled_refresh_failed w))
      as (Hc & Hh & Ht & (l & Hl) & (d & Hd)).
    destruct (scheduled_refresh_failed_spec w) as (Hc0 & Hh0 & Ht0 & Hl0 & Hd0).
    cbv zeta in *.
    split; [lia|]. split; [apply Hh, Hh0|].
    split; [rewrite Ht; exact Ht0|].
    split.
    + exists l. rewrite Hl, Hl0, <- app_assoc. reflexivity.
    + rewrite Hd, Hd0. destruct (detached_logouts (win w)); discriminate.
  - change (exec (when false scheduled_refresh_failed ;; run_catch_handlers p hs) w)
      with (exec (run_catch_handlers p hs) w).
    apply IH. apply elem_of_cons in Hin as [-> | Hin]; [|exact Hin].
    apply bool_decide_eq_false in Hq. contradiction.
Qed.

(** X8: The refresh timer comes due while no refresh is in flight, and the
    refresh it starts fails, for whatever reason: a logout is started, its
    revocation request goes out, and the page is sent to [/login].  The
    token is still held at that point; it is cleared when the logout's
    response arrives. *)
Theorem scheduled_refresh_failure_logs_out evs e :
  let w := run evs init in
  let p := next_promise (win w) in
  let w1 := exec refresh_timer_fires w in
  let w2 := exec (refresh_responds p) w1 in
  _refreshPromise (auth w) = None ->
  eval (refresh_closure (length (fetch_log (win w)))) w1 = Throw e ->
  promises (win w2) !! p = Some (Rejected e) /\
  logout_calls (win w) < logout_calls (win w2) /\
  location_href (win w2) = Some "/login" /\
  (exists l, issued w w2 = refresh_request :: logout_request :: l) /\
  accessToken (auth w2) = accessToken (auth w) /\
  accessToken (auth (exec logout_responds w2)) = JNull.
Proof.
  intros w p w1 w2 Hm He.
  destruct (refreshAccessToken_starts w Hm) as (Hr & Hm1 & Hp1 & Hlog1).
  fold p in Hr, Hp1.
  set (w0 := exec refreshAccessToken w) in *.
  assert (Hw1 : w1 = on_win (fun b => set_catch_handlers (catch_handlers b ++ [p]) b) w0).
  { unfold w1, refresh_timer_fires, exec. unfold bind at 1.
    unfold eval in Hr. unfold w0, exec in *.
    destruct (refreshAccessToken w) as [r w0']. cbn [fst snd] in *. subst r.
    rewrite bind_gets, Hp1. reflexivity. }
  assert (Hp1' : promises (win w1) !! p = Some (Pending (length (fetch_log (win w)))))
    by (rewrite Hw1; exact Hp1).
  assert (Hrun : refresh_responds p w1 =
            let wc := snd (refresh_closure (length (fetch_log (win w))) w1) in
            run_catch_handlers p (catch_handlers (win wc))
              (on_win (set_catch_handlers
                         (filter (fun q => q <> p) (catch_handlers (win wc))))
                 (exec (settle p (Rejected e)) wc))).
  { rewrite (refresh_responds_eq p _ w1 Hp1'). unfold eval in He.
    destruct (refresh_closure (length (fetch_log (win w))) w1) as [[d|e0] wc];
      cbn [fst snd] in *; [discriminate|]. injection He as ->. reflexivity. }
  cbv zeta in Hrun.
  set (wc := snd (refresh_closure (length (fetch_log (win w))) w1)) in *.
  (* the closure sends nothing and keeps the token and the handlers *)
  assert (Hc : fetch_log (win wc) = fetch_log (win w1) /\
               accessToken (auth wc) = accessToken (auth w1) /\
               catch_handlers (win wc) = catch_handlers (win w1) /\
               logout_calls (win wc) = logout_calls (win w1)).
  { unfold wc. unfold eval in He. rewrite refresh_closure_eq in *.
    destruct (srv (length (fetch_log (win w))) refresh_request) as [|response];
      [repeat split|].
    destruct (Http.ok response); [|repeat split].
    destruct (Http.json response); [discriminate | repeat split]. }
  destruct Hc as (Hlogc & Htokc & Hhc & Hcallsc).
  assert (Hin : p ∈ catch_handlers (win wc)).
  { rewrite Hhc, Hw1. simpl. apply elem_of_app. right. constructor. }
  pose proof (run_catch_handlers_logs_out p (catch_handlers (win wc))
                (on_win (set_catch_handlers
                           (filter (fun q => q <> p) (catch_handlers (win wc))))
                   (exec (settle p (Rejected e)) wc)) Hin) as Hout.
  cbv zeta in Hout.
  assert (Hw2 : w2 = exec (run_catch_handlers p (catch_handlers (win wc)))
                       (on_win (set_catch_handlers
                                  (filter (fun q => q <> p) (catch_handlers (win wc))))
                          (exec (settle p (Rejected e)) wc)))
    by (unfold w2; unfold exec at 1; rewrite Hrun; reflexivity).
  rewrite <- Hw2 in Hout.
  destruct Hout as (Hcalls & Hhref & Htok & (l & Hl) & Hdet).
  simpl in Hcalls, Htok, Hl.
  assert (Hrej : promises (win w2) !! p = Some (Rejected e)).
  { pose proof (refresh_responds_outcome p _ w1 Hp1') as Ho. cbv zeta in Ho.
    unfold eval in He. fold w2 in Ho.
    destruct (refresh_closure (length (fetch_log (win w))) w1) as [[d|e0] wc'];
      cbn [fst snd] in *; [discriminate|]. injection He as ->. apply Ho. }
  split; [exact Hrej|].
  split; [rewrite Hcallsc, Hw1 in Hcalls; simpl in Hcalls;
          unfold w0 in Hcalls;
          destruct (refreshAccessToken_spec w) as (p' & _ & _ & Hk & _);
          cbv zeta in Hk; rewrite Hk in Hcalls; exact Hcalls|].
  split; [exact Hhref|].
  split.
  - exists l. apply issued_app. rewrite Hl, Hlogc, Hw1. simpl. fold w0.
    rewrite Hlog1, <- app_assoc. reflexivity.
  - split.
    + rewrite Htok, Htokc, Hw1. simpl. unfold w0.
      pose proof (refreshAccessToken_quiet w) as Hq.
      unfold refreshAccessToken, exec. rewrite bind_gets, Hm. reflexivity.
    + unfold logout_responds, exec. rewrite bind_gets.
      destruct (detached_logouts (win w2)) as [|k ks] eqn:Hd.
      * contradiction.
      * rewrite bind_modify.
        match goal with |- context [logout_resume k ?w3] =>
          pose proof (logout_resume_exec k w3) as Hx end.
        unfold exec in Hx. rewrite Hx.
        destruct (tokenRefreshTimeout _); reflexivity.
Qed.

(** ** Logout from all devices, and the session list *)

(** X9: [logoutAllDevices] clears the local session whenever its request gets
    an answer other than 401, whatever the status of that answer; when the
    request cannot be sent, the error goes to the caller and the local
    session stays as it was: no logout is started. *)
Theorem logoutAllDevices_outcome w :
  let req := outgoing "/auth/logout-all"
               {| method := Some "POST"; headers := ∅; body := None |}
               (authorized w ∅) in
  let w' := exec logoutAllDevices w in
  (forall r, srv (length (fetch_log (win w))) req = Responds r ->
             Http.status r <> 401%Z ->
             eval logoutAllDevices w = Return tt /\
             local_session w' = cleared w /\
             issued w w' = [req; logout_request]) /\
  (srv (length (fetch_log (win w))) req = NetworkFailure ->
   eval logoutAllDevices w = Throw (TypeError "Failed to fetch") /\
   local_session w' = local_session w /\
   issued w w' = [req]).
Proof.
  intros req w'.
  pose proof (apiRequest_first_answer "/auth/logout-all"
                {| method := Some "POST"; headers := ∅; body := None |} w) as Hfirst.
  cbv zeta in Hfirst. cbn [headers] in Hfirst. fold req in Hfirst.
  split.
  - intros r Hsrv Hne. rewrite Hsrv in Hfirst. specialize (Hfirst Hne).
    set (w1 := on_win (set_fetch_log (fetch_log (win w) ++ [req])) w) in *.
    assert (Hrun : logoutAllDevices w = logout w1).
    { unfold logoutAllDevices. unfold bind at 1. rewrite Hfirst. reflexivity. }
    destruct (logout_local_session w1) as [Hl Hr].
    unfold w', eval, exec in *. rewrite Hrun.
    split; [exact Hr|]. split; [rewrite Hl; reflexivity|].
    apply issued_app. rewrite logout_eq.
    match goal with |- context [logout_resume ?n ?w0] =>
      pose proof (logout_resume_quiet n w0) as Hq;
      pose proof (logout_resume_exec n w0) as Hx end.
    unfold exec in Hx. rewrite Hx. simpl.
    destruct (tokenRefreshTimeout (auth w)); simpl; rewrite <- app_assoc; reflexivity.
  - intros Hsrv. rewrite Hsrv in Hfirst. specialize (Hfirst I).
    assert (Hrun : logoutAllDevices w =
              (Throw (TypeError "Failed to fetch"),
               on_win (set_fetch_log (fetch_log (win w) ++ [req])) w)).
    { unfold logoutAllDevices. unfold bind at 1. rewrite Hfirst. reflexivity. }
    unfold w', eval, exec. rewrite Hrun.
    cbn [fst snd]. split; [reflexivity|]. split; [reflexivity|].
    apply issued_app. reflexivity.
Qed.

(** X10: [getActiveSessions] hands back the parsed body of whatever answer other
    than 401 arrives, an error response included, and throws only when that
    body does not parse; it sends one request, with no method of its own. *)
Theorem getActiveSessions_ignores_status w r :
  let req := outgoing "/auth/users/me/sessions" no_options (authorized w ∅) in
  let w' := exec getActiveSessions w in
  srv (length (fetch_log (win w))) req = Responds r ->
  Http.status r <> 401%Z ->
  eval getActiveSessions w =
    match Http.json r with
    | Some data => Return data
    | None => Throw (SyntaxError "Unexpected token in JSON")
    end /\
  issued w w' = [req] /\
  req_method req = None /\
  auth w' = auth w.
Proof.
  intros req w' Hsrv Hne.
  pose proof (apiRequest_first_answer "/auth/users/me/sessions" no_options w) as Hfirst.
  cbv zeta in Hfirst. cbn [headers no_options] in Hfirst. fold req in Hfirst.
  rewrite Hsrv in Hfirst. specialize (Hfirst Hne).
  assert (Hrun : getActiveSessions w =
            json r (on_win (set_fetch_log (fetch_log (win w) ++ [req])) w)).
  { unfold getActiveSessions. unfold bind at 1. rewrite Hfirst. reflexivity. }
  unfold w', eval, exec. rewrite Hrun.
  unfold json. destruct (Http.json r); cbn [fst snd];
    (split; [reflexivity|]; split; [apply issued_app; reflexivity|]; split; reflexivity).
Qed.

(** ** The authentication context *)

Lemma profile_fetch_returns c w :
  let m := try_catch
             (resp <- apiRequest "/auth/users/me/" no_options ;;
              if Http.ok resp then
                u <- json resp ;;
                ret (AuthContext.setUser (Some u) c)
              else ret c)
             (fun _ => ret c) in
  exists c', eval m w = Return c' /\
             AuthContext.isAuthenticated c' = AuthContext.isAuthenticated c /\
             AuthContext.loading c' = AuthContext.loading c.
Proof.
  cbv zeta. unfold eval, try_catch. unfold bind at 1.
  destruct (apiRequest "/auth/users/me/" no_options w) as [[resp|e] w1];
    [|exists c; repeat split].
  destruct (Http.ok resp); [|exists c; repeat split].
  unfold json. destruct (Http.json resp) as [u|]; [|exists c; repeat split].
  eexists. repeat split.
Qed.

Lemma AuthProvider_login_eq u p c w :
  AuthProvider_login u p c w =
  match login u p w with
  | (Return _, w1) =>
      let m := try_catch
                 (resp <- apiRequest "/auth/users/me/" no_options ;;
                  if Http.ok resp then
                    u <- json resp ;;
                    ret (AuthContext.setUser (Some u) c)
                  else ret c)
                 (fun _ => ret c) in
      (match eval m w1 with
       | Return c' => Return (true, AuthContext.setIsAuthenticated true c')
       | Throw e => Return (false, c)
       end, exec m w1)
  | (Throw _, w1) => (Return (false, c), w1)
  end.
Proof.
  unfold AuthProvider_login. unfold try_catch at 1. unfold bind at 1.
  destruct (login u p w) as [[data|e] w1]; [|reflexivity].
  cbv zeta. destruct (profile_fetch_returns c w1) as (c' & Hc' & _).
  cbv zeta in Hc'. unfold eval, exec in *. unfold bind at 1.
  destruct (try_catch _ _ w1) as [r w2]. cbn [fst snd] in *. subst r. reflexivity.
Qed.

Lemma AuthProvider_login_total u p c w :
  exists b c',
    eval (AuthProvider_login u p c) w = Return (b, c') /\
    (forall e, eval (login u p) w = Throw e -> c' = c).
Proof.
  unfold eval. rewrite AuthProvider_login_eq.
  destruct (login u p w) as [[data|e] w1]; cbn [fst].
  - cbv zeta. destruct (profile_fetch_returns c w1) as (c' & Hc' & _).
    cbv zeta in Hc'. unfold eval in Hc'. cbn [fst]. unfold eval. rewrite Hc'.
    eexists _, _. split; [reflexivity | discriminate].
  - exists false, c. split; [reflexivity | reflexivity].
Qed.


(** X12: The login form never reports a failed login: [handleSubmit] always ends
    by navigating to [/] with no error set, because the context's [login]
    answers [false] instead of throwing; when the service's login failed the
    context is the one from before, and it is the route guard that decides
    what is shown. *)
Theorem LoginPage_handleSubmit_always_navigates c pg w :
  exists c',
    eval (LoginPage_handleSubmit c pg) w =
      Return (c', LoginPage.navigate "/" (LoginPage.setError JNull pg)) /\
    LoginPage.error (LoginPage.navigate "/" (LoginPage.setError JNull pg)) = JNull /\
    (forall e, eval (login (LoginPage.username pg) (LoginPage.password pg)) w = Throw e ->
               c' = c /\ ProtectedRoute c' = ProtectedRoute c).
Proof.
  destruct (AuthProvider_login_total (LoginPage.username pg) (LoginPage.password pg)
              c w) as (b & c' & Hev & Hfail).
  exists c'. split; [|split; [reflexivity|]].
  - unfold LoginPage_handleSubmit, eval, try_catch in *. cbv zeta. unfold bind at 1.
    cbn [LoginPage.username LoginPage.password LoginPage.setError] in *.
    destruct (AuthProvider_login _ _ c w) as [r w1]. cbn [fst] in Hev. subst r.
    reflexivity.
  - intros e He. rewrite (Hfail e He). split; reflexivity.
Qed.



(** X14: The context's [logout] always completes, whatever becomes of the
    revocation request: the context is left without a user and not
    authenticated, the service without token and refresh timer, and once
    loading is over the route guard sends to [/login]. *)
Theorem AuthProvider_logout_clears c w :
  let w' := exec (AuthProvider_logout c) w in
  exists c',
    eval (AuthProvider_logout c) w = Return c' /\
    AuthContext.isAuthenticated c' = false /\
    AuthContext.user c' = None /\
    local_session w' = cleared w /\
    ProtectedRoute c' =
      (if AuthContext.loading c then ShowLoadingStatus else NavigateTo "/login").
Proof.
  intros w'. destruct (logout_local_session w) as [Hl Hr].
  unfold w', AuthProvider_logout, eval, exec in *. unfold bind at 1 2.
  destruct (logout w) as [r w1]. cbn [fst snd] in *. subst r.
  eexists. split; [reflexivity|]. split; [reflexivity|]. split; [reflexivity|].
  split; [exact Hl|]. unfold ProtectedRoute. simpl. destruct (AuthContext.loading c); reflexivity.
Qed.

(** ** The tracker's interval *)

(** X15: In every world the event loop reaches, the polling intervals are at most
    the one the effect holds, and that one polls the task being tracked
    every 5000 ms: an interval of an earlier task or an earlier render never
    stays behind. *)
Theorem single_poll_interval evs :
  let w := run evs init in
  poll_timers w =
    match pollIntervall (ui w) with
    | Some h => {[ h := {| tm_callback := PollCallback (taskId (ui w));
                           tm_delay := 5000; tm_repeat := true |} ]}
    | None => ∅
    end /\
  size (poll_timers w) <= 1.
Proof.
  intros w. pose proof (reachable_wf evs) as H. pose proof (reachable_committed evs) as Hc.
  fold w in H, Hc. unfold committed in Hc.
  assert (Hown : forall t tm, poll_timers w !! t = Some tm ->
                              timers (win w) !! t = Some tm /\ pollIntervall (ui w) = Some t).
  { intros t tm Ht. apply map_lookup_filter_Some in Ht as [Ht Hcb]. simpl in Hcb.
    split; [exact Ht|]. destruct (tm_callback tm) as [|id] eqn:Hid; [contradiction|].
    exact (wf_poll_owned _ H _ _ _ Ht Hid). }
  assert (Heq : poll_timers w =
            match pollIntervall (ui w) with
            | Some h => {[ h := {| tm_callback := PollCallback (taskId (ui w));
                                   tm_delay := 5000; tm_repeat := true |} ]}
            | None => ∅
            end).
  { apply map_eq. intros t. destruct (pollIntervall (ui w)) as [h|] eqn:Hh.
    - destruct (wf_poll_armed _ H _ Hh) as (a & b & Hd & Hl & _).
      rewrite Hc in Hd. injection Hd as <- <-.
      destruct (decide (t = h)) as [->|Hne].
      + rewrite lookup_singleton_eq. apply map_lookup_filter_Some.
        split; [exact Hl | discriminate].
      + rewrite lookup_singleton_ne by congruence.
        destruct (poll_timers w !! t) as [tm|] eqn:Ht; [|reflexivity].
        destruct (Hown t tm Ht) as [_ Ho]. congruence.
    - rewrite lookup_empty.
      destruct (poll_timers w !! t) as [tm|] eqn:Ht; [|reflexivity].
      destruct (Hown t tm Ht) as [_ Ho]. congruence. }
  split; [exact Heq|]. rewrite Heq.
  destruct (pollIntervall (ui w)); [rewrite map_size_singleton | rewrite map_size_empty]; lia.
Qed.

(** ** Submitting a program *)

(** X16: Without a chosen file or without a name, submitting does nothing at
    all: no request goes out and nothing is tracked. *)
Theorem submit_without_input evs :
  let w := run evs init in
  file (ui w) = None \/ programName (ui w) = EmptyString ->
  run (evs ++ [ProgramSubmitted]) init = w.
Proof.
  intros w Hin. rewrite run_app. fold w. rewrite react_exec.
  assert (He : exec (try_catch (handle ProgramSubmitted) (fun _ => ret tt)) w = w).
  { unfold exec, try_catch. simpl. unfold handleNewProgramSubmit.
    rewrite !bind_gets. destruct Hin as [-> | Hn]; [reflexivity|].
    rewrite Hn. destruct (file (ui w)); reflexivity. }
  rewrite He. apply useEffect_committed_id. apply reachable_committed.
Qed.

Lemma authorized_same w w' hs :
  accessToken (auth w') = accessToken (auth w) -> authorized w' hs = authorized w hs.
Proof. unfold authorized. intros ->. reflexivity. Qed.

(** The world [handleNewProgramSubmit] is in when its upload is over: the
    upload got an answer other than 401, or could not be sent. *)
Lemma handleNewProgramSubmit_upload w f :
  let name := programName (ui w) in
  let upload := outgoing (API_BASE_URL +:+ "/program/upload")
                  {| method := Some "POST"; headers := ∅;
                     body := Some (FormData [("program_name", name); ("file", f)]) |}
                  (authorized w ∅) in
  let w0 := on_ui (set_error JNull)
              (on_ui (set_loading true) (on_ui (set_programAction "ingest") w)) in
  let w1 := on_win (set_fetch_log (fetch_log (win w) ++ [upload])) w0 in
  let w2 := match srv (length (fetch_log (win w))) upload with
            | Responds _ => w1
            | NetworkFailure =>
                on_ui (set_error (JString "Failed to upload program: Failed to fetch")) w1
            end in
  file (ui w) = Some f ->
  name <> EmptyString ->
  match srv (length (fetch_log (win w))) upload with
  | Responds r => Http.status r <> 401%Z
  | NetworkFailure => True
  end ->
  handleNewProgramSubmit w =
  try_catch
    (resp <- apiRequest (API_BASE_URL +:+ "/program/ingest")
               {| method := Some "POST";
                  headers := {[ "Content-Type" := "application/json" ]};
                  body := Some (JsonText [("program_name", name)]) |} ;;
     response <- json resp ;;
     setTaskId (Json.task_id response) ;;
     setTaskStatus (Json.status response) ;;
     pollTaskStatus (Json.task_id response))
    (fun e =>
       setLoading false ;;
       setError (message_or e "An error occurred while ingesting the program."))
    w2.
Proof.
  intros name upload w0 w1 w2 Hf Hname Hsrv.
  unfold handleNewProgramSubmit. rewrite !bind_gets, Hf. fold name.
  destruct (String.eqb_spec name ""); [contradiction|].
  unfold setProgramAction at 1, setLoading at 1, setError at 1.
  rewrite !bind_modify. fold w0.
  pose proof (apiRequest_first_answer (API_BASE_URL +:+ "/program/upload")
                {| method := Some "POST"; headers := ∅;
                   body := Some (FormData [("program_name", name); ("file", f)]) |} w0)
    as Hup.
  cbv zeta in Hup. cbn [headers] in Hup.
  change (authorized w0 ∅) with (authorized w ∅) in Hup.
  change (fetch_log (win w0)) with (fetch_log (win w)) in Hup.
  fold upload in Hup. fold w1 in Hup. specialize (Hup Hsrv).
  unfold bind at 1. unfold try_catch at 1. unfold bind at 1. rewrite Hup.
  subst w2. destruct (srv (length (fetch_log (win w))) upload); reflexivity.
Qed.

Lemma ingest_accepted w name resp data :
  let ingest := outgoing (API_BASE_URL +:+ "/program/ingest")
                  {| method := Some "POST";
                     headers := {[ "Content-Type" := "application/json" ]};
                     body := Some (JsonText [("program_name", name)]) |}
                  (authorized w {[ "Content-Type" := "application/json" ]}) in
  let status_request := outgoing (status_url (Json.task_id data)) GET (authorized w ∅) in
  srv (length (fetch_log (win w))) ingest = Responds resp ->
  Http.status resp <> 401%Z ->
  Http.json resp = Some data ->
  try_catch
    (resp <- apiRequest (API_BASE_URL +:+ "/program/ingest")
               {| method := Some "POST";
                  headers := {[ "Content-Type" := "application/json" ]};
                  body := Some (JsonText [("program_name", name)]) |} ;;
     response <- json resp ;;
     setTaskId (Json.task_id response) ;;
     setTaskStatus (Json.status response) ;;
     pollTaskStatus (Json.task_id response))
    (fun e =>
       setLoading false ;;
       setError (message_or e "An error occurred while ingesting the program."))
    w =
  (Return tt,
   on_win (fun b =>
     set_outstanding_polls
       (outstanding_polls b ++
        [{| poll_id := Json.task_id data; poll_headers := authorized w ∅;
            poll_fetch := S (length (fetch_log (win w))) |}]) b)
     (on_win (set_fetch_log (fetch_log (win w) ++ [ingest; status_request]))
        (on_ui (set_taskStatus (Json.status data))
           (on_ui (set_taskId (Json.task_id data)) w)))).
Proof.
  intros ingest status_request Hsrv Hne Hjson.
  pose proof (apiRequest_first_answer (API_BASE_URL +:+ "/program/ingest")
                {| method := Some "POST";
                   headers := {[ "Content-Type" := "application/json" ]};
                   body := Some (JsonText [("program_name", name)]) |} w) as Hin.
  cbv zeta in Hin. cbn [headers] in Hin. fold ingest in Hin.
  rewrite Hsrv in Hin. specialize (Hin Hne).
  unfold try_catch. unfold bind at 1. rewrite Hin.
  unfold json. rewrite Hjson, bind_ret.
  unfold setTaskId, setTaskStatus. rewrite !bind_modify.
  unfold pollTaskStatus, authorize, bind, gets, ret, issue, modify.
  cbn [headers GET]. simpl.
  unfold status_request, authorized. simpl. rewrite length_app. simpl.
  rewrite Nat.add_1_r, <- app_assoc. reflexivity.
Qed.

(** X17: A program is submitted with a file and a name.  Whatever becomes of the
    upload short of a 401 (an error status, or no answer at all), the ingest
    request follows; when that is answered with a JSON body, the task it
    names is tracked: id and status are recorded, the first status request
    goes out at once, and the interval is armed exactly when the id is set
    and the status reads [processing]. *)
Theorem submit_starts_tracking evs f resp data :
  let w := run evs init in
  let name := programName (ui w) in
  let n := length (fetch_log (win w)) in
  let upload := outgoing (API_BASE_URL +:+ "/program/upload")
                  {| method := Some "POST"; headers := ∅;
                     body := Some (FormData [("program_name", name); ("file", f)]) |}
                  (authorized w ∅) in
  let ingest := outgoing (API_BASE_URL +:+ "/program/ingest")
                  {| method := Some "POST";
                     headers := {[ "Content-Type" := "application/json" ]};
                     body := Some (JsonText [("program_name", name)]) |}
                  (authorized w {[ "Content-Type" := "application/json" ]}) in
  let w' := run (evs ++ [ProgramSubmitted]) init in
  file (ui w) = Some f ->
  name <> EmptyString ->
  match srv n upload with
  | Responds r => Http.status r <> 401%Z
  | NetworkFailure => True
  end ->
  srv (S n) ingest = Responds resp ->
  Http.status resp <> 401%Z ->
  Http.json resp = Some data ->
  issued w w' =
    [upload; ingest; outgoing (status_url (Json.task_id data)) GET (authorized w ∅)] /\
  taskId (ui w') = Json.task_id data /\
  taskStatus (ui w') = Json.status data /\
  loading (ui w') = true /\
  outstanding_polls (win w') =
    (outstanding_polls (win w) ++
     [{| poll_id := Json.task_id data; poll_headers := authorized w ∅;
         poll_fetch := S (S n) |}])%list /\
  (polling_active w' <->
   truthy (Json.task_id data) = true /\ Json.status data = JString "processing").
Proof.
  intros w name n upload ingest w' Hf Hname Hup Hsrv Hne Hjson.
  pose proof (handleNewProgramSubmit_upload w f Hf Hname Hup) as Hrun.
  cbv zeta in Hrun. fold name upload n in Hrun.
  match type of Hrun with _ = try_catch _ _ ?x => set (w2 := x) in * end.
  assert (Hlog2 : fetch_log (win w2) = (fetch_log (win w) ++ [upload])%list)
    by (unfold w2; destruct (srv n upload); reflexivity).
  assert (Hauth2 : accessToken (auth w2) = accessToken (auth w))
    by (unfold w2; destruct (srv n upload); reflexivity).
  assert (Hlen2 : length (fetch_log (win w2)) = S n)
    by (rewrite Hlog2, length_app; simpl; unfold n; lia).
  pose proof (ingest_accepted w2 name resp data) as Hacc. cbv zeta in Hacc.
  rewrite !(authorized_same w w2 _ Hauth2), Hlen2 in Hacc. fold ingest in Hacc.
  specialize (Hacc Hsrv Hne Hjson). rewrite Hacc in Hrun. clear Hacc.
  assert (Hw' : w' = exec useEffect (snd (handleNewProgramSubmit w))).
  { unfold w'. rewrite run_app. fold w. rewrite react_exec. f_equal.
    unfold exec, try_catch. simpl. rewrite Hrun. reflexivity. }
  rewrite Hrun in Hw'. cbn [snd] in Hw'.
  destruct (useEffect_keeps_status
              (on_win (fun b =>
                 set_outstanding_polls
                   (outstanding_polls b ++
                    [{| poll_id := Json.task_id data; poll_headers := authorized w ∅;
                        poll_fetch := S (S n) |}]) b)
                 (on_win (set_fetch_log
                            (fetch_log (win w2) ++
                             [ingest;
                              outgoing (status_url (Json.task_id data)) GET
                                (authorized w ∅)]))
                    (on_ui (set_taskStatus (Json.status data))
                       (on_ui (set_taskId (Json.task_id data)) w2)))))
    as (Hst & Hid & _ & Hld & Hlog & Hop).
  rewrite <- Hw' in Hst, Hid, Hld, Hlog, Hop. simpl in Hst, Hid, Hld, Hlog, Hop.
  assert (Hld2 : loading (ui w2) = true)
    by (unfold w2; destruct (srv n upload); reflexivity).
  assert (Hop2 : outstanding_polls (win w2) = outstanding_polls (win w))
    by (unfold w2; destruct (srv n upload); reflexivity).
  split; [apply issued_app; rewrite Hlog, Hlog2, <- app_assoc; reflexivity|].
  split; [exact Hid|]. split; [exact Hst|]. split; [rewrite Hld; exact Hld2|].
  split; [rewrite Hop, Hop2; reflexivity|].
  rewrite <- Hid, <- Hst. apply polling_active_iff.
  - unfold w'. apply reachable_wf.
  - unfold w'. apply reachable_committed.
Qed.

Lemma ingest_rejected w name :
  let ingest := outgoing (API_BASE_URL +:+ "/program/ingest")
                  {| method := Some "POST";
                     headers := {[ "Content-Type" := "application/json" ]};
                     body := Some (JsonText [("program_name", name)]) |}
                  (authorized w {[ "Content-Type" := "application/json" ]}) in
  forall e,
  (srv (length (fetch_log (win w))) ingest = NetworkFailure /\
   e = TypeError "Failed to fetch") \/
  (exists resp, srv (length (fetch_log (win w))) ingest = Responds resp /\
                Http.status resp <> 401%Z /\ Http.json resp = None /\
                e = SyntaxError "Unexpected token in JSON") ->
  try_catch
    (resp <- apiRequest (API_BASE_URL +:+ "/program/ingest")
               {| method := Some "POST";
                  headers := {[ "Content-Type" := "application/json" ]};
                  body := Some (JsonText [("program_name", name)]) |} ;;
     response <- json resp ;;
     setTaskId (Json.task_id response) ;;
     setTaskStatus (Json.status response) ;;
     pollTaskStatus (Json.task_id response))
    (fun e =>
       setLoading false ;;
       setError (message_or e "An error occurred while ingesting the program."))
    w =
  (Return tt,
   on_ui (set_error (JString (message e)))
     (on_ui (set_loading false)
        (on_win (set_fetch_log (fetch_log (win w) ++ [ingest])) w))).
Proof.
  intros ingest e Hsrv.
  pose proof (apiRequest_first_answer (API_BASE_URL +:+ "/program/ingest")
                {| method := Some "POST";
                   headers := {[ "Content-Type" := "application/json" ]};
                   body := Some (JsonText [("program_name", name)]) |} w) as Hin.
  cbv zeta in Hin. cbn [headers] in Hin. fold ingest in Hin.
  destruct Hsrv as [[Hsrv ->] | (resp & Hsrv & Hne & Hjson & ->)];
    rewrite Hsrv in Hin.
  - specialize (Hin I). unfold try_catch. unfold bind at 1. rewrite Hin. reflexivity.
  - specialize (Hin Hne). unfold try_catch. unfold bind at 1. rewrite Hin.
    unfold json. rewrite Hjson. reflexivity.
Qed.

(** X18: A program is submitted, and the ingest request cannot be sent, or its
    answer does not parse: the error is shown, the loading state is reset,
    no status request goes out, and whatever was tracked before stays as it
    was. *)
Theorem submit_rejected evs f e :
  let w := run evs init in
  let name := programName (ui w) in
  let n := length (fetch_log (win w)) in
  let upload := outgoing (API_BASE_URL +:+ "/program/upload")
                  {| method := Some "POST"; headers := ∅;
                     body := Some (FormData [("program_name", name); ("file", f)]) |}
                  (authorized w ∅) in
  let ingest := outgoing (API_BASE_URL +:+ "/program/ingest")
                  {| method := Some "POST";
                     headers := {[ "Content-Type" := "application/json" ]};
                     body := Some (JsonText [("program_name", name)]) |}
                  (authorized w {[ "Content-Type" := "application/json" ]}) in
  let w' := run (evs ++ [ProgramSubmitted]) init in
  file (ui w) = Some f ->
  name <> EmptyString ->
  match srv n upload with
  | Responds r => Http.status r <> 401%Z
  | NetworkFailure => True
  end ->
  (srv (S n) ingest = NetworkFailure /\ e = TypeError "Failed to fetch") \/
  (exists resp, srv (S n) ingest = Responds resp /\ Http.status resp <> 401%Z /\
                Http.json resp = None /\ e = SyntaxError "Unexpected token in JSON") ->
  issued w w' = [upload; ingest] /\
  error (ui w') = JString (message e) /\
  loading (ui w') = false /\
  tracker_view w' = tracker_view w.
Proof.
  intros w name n upload ingest w' Hf Hname Hup Hsrv.
  pose proof (reachable_committed evs) as Hc. fold w in Hc.
  pose proof (handleNewProgramSubmit_upload w f Hf Hname Hup) as Hrun.
  cbv zeta in Hrun. fold name upload n in Hrun.
  match type of Hrun with _ = try_catch _ _ ?x => set (w2 := x) in * end.
  assert (Hlog2 : fetch_log (win w2) = (fetch_log (win w) ++ [upload])%list)
    by (unfold w2; destruct (srv n upload); reflexivity).
  assert (Hauth2 : accessToken (auth w2) = accessToken (auth w))
    by (unfold w2; destruct (srv n upload); reflexivity).
  assert (Hlen2 : length (fetch_log (win w2)) = S n)
    by (rewrite Hlog2, length_app; simpl; unfold n; lia).
  assert (Hv2 : tracker_view w2 = tracker_view w)
    by (unfold w2; destruct (srv n upload); reflexivity).
  pose proof (ingest_rejected w2 name e) as Hrej. cbv zeta in Hrej.
  rewrite !(authorized_same w w2 _ Hauth2), Hlen2 in Hrej. fold ingest in Hrej.
  specialize (Hrej Hsrv). rewrite Hrej in Hrun. clear Hrej.
  assert (Hw' : w' = snd (handleNewProgramSubmit w)).
  { unfold w'. rewrite run_app. fold w. rewrite react_exec.
    assert (He : exec (try_catch (handle ProgramSubmitted) (fun _ => ret tt)) w
                 = snd (handleNewProgramSubmit w)).
    { unfold exec, try_catch. simpl. rewrite Hrun. reflexivity. }
    rewrite He. apply useEffect_committed_id. rewrite Hrun. cbn [snd].
    unfold committed in *. unfold tracker_view in Hv2. injection Hv2 as Hid Hst Hpi Hde _.
    simpl. congruence. }
  rewrite Hrun in Hw'. cbn [snd] in Hw'. rewrite Hw'.
  split; [apply issued_app; simpl; rewrite Hlog2, <- app_assoc; reflexivity|].
  split; [reflexivity|]. split; [reflexivity|]. exact Hv2.
Qed.

(** ** Deleting a program *)

Lemma handleDeleteProgram_history_world name chatHistory w :
  exec (handleDeleteProgram_history name chatHistory) w = exec (handleDeleteProgram name) w.
Proof.
  unfold handleDeleteProgram_history, handleDeleteProgram, exec, try_catch, bind,
    setLoading, setProgramAction, setTaskId, setTaskStatus, setError, modify, ret.
  destruct (apiRequest _ _ _) as [[resp|e] w1]; [|reflexivity].
  destruct (json resp w1) as [[response|e] w2]; [|reflexivity].
  destruct (pollTaskStatus _ _) as [[[]|e] w3]; reflexivity.
Qed.

Lemma pollTaskStatus_eq id w :
  pollTaskStatus id w =
  (Return tt,
   on_win (fun b =>
     set_outstanding_polls
       (outstanding_polls b ++
        [{| poll_id := id; poll_headers := authorized w ∅;
            poll_fetch := length (fetch_log (win w)) |}]) b)
     (on_win (set_fetch_log
                (fetch_log (win w) ++ [outgoing (status_url id) GET (authorized w ∅)]))
        w)).
Proof. reflexivity. Qed.

(** X19: The delete request of a program gets an answer other than 401 whose body
    parses, whatever its status: the conversation with that program is
    dropped at once, the task the answer names is tracked and its first
    status request goes out.  When the request cannot be sent or the answer
    does not parse, the conversations stay as they are, the error is shown
    and the loading state is reset.  Either way the world is left as the
    handler of the delete button leaves it. *)
Theorem delete_drops_conversation name chatHistory w :
  let req := outgoing (API_BASE_URL +:+ "/program/delete/" +:+ name)
               {| method := Some "DELETE"; headers := ∅; body := None |}
               (authorized w ∅) in
  let n := length (fetch_log (win w)) in
  let m := handleDeleteProgram_history name chatHistory in
  let w' := exec m w in
  w' = exec (handleDeleteProgram name) w /\
  (forall resp data,
     srv n req = Responds resp -> Http.status resp <> 401%Z ->
     Http.json resp = Some data ->
     eval m w = Return (removeFromChatHistory (JString name) chatHistory) /\
     (name <> EmptyString ->
      selectedHistory (JString name)
        (removeFromChatHistory (JString name) chatHistory) = []) /\
     issued w w' =
       [req; outgoing (status_url (Json.task_id data)) GET (authorized w ∅)] /\
     taskId (ui w') = Json.task_id data /\
     taskStatus (ui w') = Json.status data /\
     loading (ui w') = true) /\
  (srv n req = NetworkFailure \/
   (exists resp, srv n req = Responds resp /\ Http.status resp <> 401%Z /\
                 Http.json resp = None) ->
   eval m w = Return chatHistory /\
   issued w w' = [req] /\
   loading (ui w') = false /\
   truthy (error (ui w')) = true /\
   taskId (ui w') = taskId (ui w) /\
   taskStatus (ui w') = taskStatus (ui w)).
Proof.
  intros req n m w'.
  split; [apply handleDeleteProgram_history_world|].
  set (w0 := on_ui (set_programAction "delete") (on_ui (set_loading true) w)).
  pose proof (apiRequest_first_answer (API_BASE_URL +:+ "/program/delete/" +:+ name)
                {| method := Some "DELETE"; headers := ∅; body := None |} w0) as Hfirst.
  cbv zeta in Hfirst. cbn [headers] in Hfirst.
  change (authorized w0 ∅) with (authorized w ∅) in Hfirst.
  change (fetch_log (win w0)) with (fetch_log (win w)) in Hfirst.
  fold req n in Hfirst.
  assert (Hstart : m w =
            try_catch
              (resp <- apiRequest (API_BASE_URL +:+ "/program/delete/" +:+ name)
                         {| method := Some "DELETE"; headers := ∅; body := None |} ;;
               response <- json resp ;;
               setTaskId (Json.task_id response) ;;
               setTaskStatus (Json.status response) ;;
               pollTaskStatus (Json.task_id response) ;;
               ret (removeFromChatHistory (JString name) chatHistory))
              (fun e =>
                 setLoading false ;;
                 setError (message_or e "An error occurred while deleting the program.") ;;
                 ret chatHistory) w0) by reflexivity.
  split.
  - intros resp data Hsrv Hne Hjson. rewrite Hsrv in Hfirst. specialize (Hfirst Hne).
    assert (Hrun : m w =
              (Return (removeFromChatHistory (JString name) chatHistory),
               snd (pollTaskStatus (Json.task_id data)
                      (on_ui (set_taskStatus (Json.status data))
                         (on_ui (set_taskId (Json.task_id data))
                            (on_win (set_fetch_log (fetch_log (win w) ++ [req])) w0)))))).
    { rewrite Hstart. unfold try_catch. unfold bind at 1. rewrite Hfirst.
      unfold json. rewrite Hjson, bind_ret.
      unfold setTaskId, setTaskStatus. rewrite !bind_modify. reflexivity. }
    unfold w', eval, exec. rewrite Hrun. cbn [fst snd].
    split; [reflexivity|].
    split.
    { intros Hname. unfold selectedHistory, removeFromChatHistory.
      cbn [truthy template]. destruct (String.eqb_spec name ""); [contradiction|].
      cbn [negb]. rewrite lookup_delete_eq. reflexivity. }
    rewrite pollTaskStatus_eq. cbn [snd].
    split; [apply issued_app; simpl; rewrite <- app_assoc; reflexivity|].
    repeat split.
  - intros Hsrv.
    assert (Hrun : exists e,
              m w = (Return chatHistory,
                     on_ui (set_error (JString (message e)))
                       (on_ui (set_loading false)
                          (on_win (set_fetch_log (fetch_log (win w) ++ [req])) w0))) /\
              message e <> EmptyString).
    { destruct Hsrv as [Hsrv | (resp & Hsrv & Hne & Hjson)]; rewrite Hsrv in Hfirst.
      - specialize (Hfirst I). exists (TypeError "Failed to fetch").
        split; [|discriminate].
        rewrite Hstart. unfold try_catch. unfold bind at 1. rewrite Hfirst. reflexivity.
      - specialize (Hfirst Hne). exists (SyntaxError "Unexpected token in JSON").
        split; [|discriminate].
        rewrite Hstart. unfold try_catch. unfold bind at 1. rewrite Hfirst.
        unfold json. rewrite Hjson. reflexivity. }
    destruct Hrun as (e & Hrun & Hmsg).
    unfold w', eval, exec. rewrite Hrun. cbn [fst snd].
    split; [reflexivity|]. split; [apply issued_app; reflexivity|].
    split; [reflexivity|]. split; [|split; reflexivity].
    simpl. destruct (String.eqb_spec (message e) ""); [contradiction | reflexivity].
Qed.

(** ** What an answer to a status request does *)

Lemma pollTaskStatus_try_answered k w resp data :
  srv (poll_fetch k) (outgoing (status_url (poll_id k)) GET (poll_headers k))
    = Responds resp ->
  Http.status resp <> 401%Z ->
  Http.json resp = Some data ->
  pollTaskStatus_try k w =
  (if strict_eq (Json.status data) "completed" && truthy (Json.task_id data) then
     getProgramList ;;
     setLoading false ;;
     setTaskStatus (JString "completed") ;;
     setProgramAction "" ;;
     setProgramName ""
   else if strict_eq (Json.status data) "failed" || truthy (Json.error data) then
     setError (js_or (Json.error data) (JString "Program task failed")) ;;
     setLoading false ;;
     setProgramAction "" ;;
     setSelectedProgram (JString "")
   else ret tt) (on_ui (set_taskStatus (Json.status data)) w).
Proof.
  intros Hsrv Hne Hjson. unfold pollTaskStatus_try. unfold bind at 1.
  rewrite (after_first_fetch_answered _ _ _ _ resp w Hsrv Hne).
  unfold json. rewrite Hjson, bind_ret. cbv zeta.
  unfold setTaskStatus at 1. rewrite bind_modify. reflexivity.
Qed.

Lemma useEffect_keeps_ui w :
  programAction (ui (exec useEffect w)) = programAction (ui w) /\
  programName (ui (exec useEffect w)) = programName (ui w) /\
  selectedProgram (ui (exec useEffect w)) = selectedProgram (ui w) /\
  programList (win (exec useEffect w)) = programList (win w) /\
  auth (exec useEffect w) = auth w.
Proof.
  rewrite useEffect_exec. cbv zeta.
  destruct (bool_decide _); [repeat split; reflexivity|].
  destruct (pollIntervall (ui w));
    destruct (truthy (taskId (ui w)) && strict_eq (taskStatus (ui w)) "processing");
    repeat split; reflexivity.
Qed.


Lemma getProgramList_eq w :
  let req := outgoing (API_BASE_URL +:+ "/program/list") GET (authorized w ∅) in
  let w1 := on_win (set_fetch_log (fetch_log (win w) ++ [req])) w in
  match srv (length (fetch_log (win w))) req with
  | Responds r => Http.status r <> 401%Z
  | NetworkFailure => True
  end ->
  getProgramList w =
  match srv (length (fetch_log (win w))) req with
  | NetworkFailure => (Throw (TypeError "Failed to fetch"), w1)
  | Responds r =>
      match Http.json r with
      | None => (Throw (SyntaxError "Unexpected token in JSON"), w1)
      | Some response =>
          match Json.programs response with
          | Some ps => (Return tt, on_win (set_programList ps) w1)
          | None =>
              (Throw (TypeError "Cannot read properties of undefined (reading 'map')"),
               w1)
          end
      end
  end.
Proof.
  intros req w1 Hsrv.
  pose proof (apiRequest_first_answer (API_BASE_URL +:+ "/program/list") GET w) as Hfirst.
  cbv zeta in Hfirst. cbn [headers GET] in Hfirst. fold req w1 in Hfirst.
  specialize (Hfirst Hsrv).
  unfold getProgramList. unfold bind at 1. rewrite Hfirst.
  destruct (srv (length (fetch_log (win w))) req) as [|r]; [reflexivity|].
  unfold json. destruct (Http.json r) as [response|]; [|reflexivity].
  rewrite bind_ret. destruct (Json.programs response); reflexivity.
Qed.

(** X21: The program list is replaced by the names the server lists, in its
    order, when the list request gets an answer other than 401 that carries
    a [programs] field.  When the request cannot be sent, the answer does
    not parse, or it has no such field, [getProgramList] throws and the list
    stays as it was. *)
Theorem getProgramList_outcome w :
  let req := outgoing (API_BASE_URL +:+ "/program/list") GET (authorized w ∅) in
  let n := length (fetch_log (win w)) in
  let w' := exec getProgramList w in
  (forall r response ps,
     srv n req = Responds r -> Http.status r <> 401%Z ->
     Http.json r = Some response -> Json.programs response = Some ps ->
     eval getProgramList w = Return tt /\ programList (win w') = ps /\
     issued w w' = [req]) /\
  (srv n req = NetworkFailure \/
   (exists r, srv n req = Responds r /\ Http.status r <> 401%Z /\
              (Http.json r = None \/
               exists response, Http.json r = Some response /\
                                Json.programs response = None)) ->
   (exists e, eval getProgramList w = Throw e) /\
   programList (win w') = programList (win w) /\
   issued w w' = [req]).
Proof.
  intros req n w'. pose proof (getProgramList_eq w) as Heq. cbv zeta in Heq.
  fold req n in Heq. split.
  - intros r response ps Hsrv Hne Hjson Hps. rewrite Hsrv in Heq. specialize (Heq Hne).
    rewrite Hjson, Hps in Heq. unfold w', eval, exec. rewrite Heq. cbn [fst snd].
    split; [reflexivity|]. split; [reflexivity|]. apply issued_app. reflexivity.
  - intros [Hsrv | (r & Hsrv & Hne & Hbody)]; rewrite Hsrv in Heq.
    + specialize (Heq I). unfold w', eval, exec. rewrite Heq. cbn [fst snd].
      split; [eauto|]. split; [reflexivity|]. apply issued_app. reflexivity.
    + specialize (Heq Hne). unfold w', eval, exec.
      destruct Hbody as [Hjson | (response & Hjson & Hps)].
      * rewrite Hjson in Heq. rewrite Heq. cbn [fst snd].
        split; [eauto|]. split; [reflexivity|]. apply issued_app. reflexivity.
      * rewrite Hjson, Hps in Heq. rewrite Heq. cbn [fst snd].
        split; [eauto|]. split; [reflexivity|]. apply issued_app. reflexivity.
Qed.

(** X22: An answer that reads [completed] and names the task: the program list
    is fetched again.  When the listing arrives, it replaces the list, the
    loading state is reset and the name field cleared.  When the list
    request cannot be sent, the failure is shown as a failed status check
    and the list stays as it was; the task counts as completed all the
    same. *)
Theorem poll_completed_reloads_list evs i k resp data :
  let w := run evs init in
  let w' := run (evs ++ [PollResponds i]) init in
  let list_request := outgoing (API_BASE_URL +:+ "/program/list") GET (authorized w ∅) in
  let n := length (fetch_log (win w)) in
  outstanding_polls (win w) !! i = Some k ->
  srv (poll_fetch k) (outgoing (status_url (poll_id k)) GET (poll_headers k))
    = Responds resp ->
  Http.status resp <> 401%Z ->
  Http.json resp = Some data ->
  Json.status data = JString "completed" ->
  truthy (Json.task_id data) = true ->
  (forall r response ps,
     srv n list_request = Responds r -> Http.status r <> 401%Z ->
     Http.json r = Some response -> Json.programs response = Some ps ->
     programList (win w') = ps /\
     loading (ui w') = false /\
     programAction (ui w') = EmptyString /\
     programName (ui w') = EmptyString /\
     error (ui w') = error (ui w) /\
     taskStatus (ui w') = JString "completed" /\
     issued w w' = [list_request]) /\
  (srv n list_request = NetworkFailure ->
   programList (win w') = programList (win w) /\
   error (ui w') = JString "Failed to check Program status: Failed to fetch" /\
   loading (ui w') = false /\
   programName (ui w') = programName (ui w) /\
   taskStatus (ui w') = JString "completed" /\
   issued w w' = [list_request]).
Proof.
  intros w w' list_request n Hk Hsrv Hne Hjson Hst Hid.
  set (x := on_ui (set_taskStatus (JString "completed")) (answering i w)).
  pose proof (getProgramList_eq x) as Hlist. cbv zeta in Hlist.
  change (authorized x ∅) with (authorized w ∅) in Hlist.
  change (fetch_log (win x)) with (fetch_log (win w)) in Hlist.
  fold list_request n in Hlist.
  assert (Hstep : exec (react (PollResponds i)) w =
                  exec useEffect
                    (exec (try_catch
                             (getProgramList ;; setLoading false ;;
                              setTaskStatus (JString "completed") ;;
                              setProgramAction "" ;; setProgramName "")
                             pollTaskStatus_catch) x)).
  { rewrite (poll_answer i k w Hk). f_equal.
    unfold pollTaskStatus_resume. unfold exec, try_catch.
    rewrite (pollTaskStatus_try_answered k _ resp data Hsrv Hne Hjson), Hst, Hid.
    reflexivity. }
  assert (Hw' : w' = exec (react (PollResponds i)) w)
    by (unfold w'; rewrite run_app; reflexivity).
  rewrite Hstep in Hw'. clear Hstep.
  split.
  - intros r response ps Hl Hlne Hljson Hps.
    rewrite Hl in Hlist. specialize (Hlist Hlne). rewrite Hljson, Hps in Hlist.
    assert (Hrun : exec (try_catch
                           (getProgramList ;; setLoading false ;;
                            setTaskStatus (JString "completed") ;;
                            setProgramAction "" ;; setProgramName "")
                           pollTaskStatus_catch) x =
                   on_ui (set_programName "")
                     (on_ui (set_programAction "")
                        (on_ui (set_taskStatus (JString "completed"))
                           (on_ui (set_loading false)
                              (on_win (set_programList ps)
                                 (on_win (set_fetch_log
                                            (fetch_log (win w) ++ [list_request])) x)))))).
    { unfold exec, try_catch. unfold bind at 1. rewrite Hlist. reflexivity. }
    rewrite Hrun in Hw'.
    match type of Hw' with _ = exec useEffect ?y =>
      destruct (useEffect_keeps_status y) as (Hs & _ & Herr & Hld & Hlog & _);
      destruct (useEffect_keeps_ui y) as (Hpa & Hpn & _ & Hpl & _) end.
    rewrite <- Hw' in Hs, Herr, Hld, Hlog, Hpa, Hpn, Hpl.
    simpl in Hs, Herr, Hld, Hlog, Hpa, Hpn, Hpl.
    split; [exact Hpl|]. split; [exact Hld|]. split; [exact Hpa|]. split; [exact Hpn|].
    split; [exact Herr|]. split; [exact Hs|]. apply issued_app. exact Hlog.
  - intros Hl. rewrite Hl in Hlist. specialize (Hlist I).
    assert (Hrun : exec (try_catch
                           (getProgramList ;; setLoading false ;;
                            setTaskStatus (JString "completed") ;;
                            setProgramAction "" ;; setProgramName "")
                           pollTaskStatus_catch) x =
                   on_ui (set_selectedProgram (JString ""))
                     (on_ui (set_programAction "")
                        (on_ui (set_loading false)
                           (on_ui (set_error
                                     (JString "Failed to check Program status: Failed to fetch"))
                              (on_win (set_fetch_log
                                         (fetch_log (win w) ++ [list_request])) x))))).
    { unfold exec, try_catch. unfold bind at 1. rewrite Hlist. reflexivity. }
    rewrite Hrun in Hw'.
    match type of Hw' with _ = exec useEffect ?y =>
      destruct (useEffect_keeps_status y) as (Hs & _ & Herr & Hld & Hlog & _);
      destruct (useEffect_keeps_ui y) as (Hpa & Hpn & _ & Hpl & _) end.
    rewrite <- Hw' in Hs, Herr, Hld, Hlog, Hpa, Hpn, Hpl.
    simpl in Hs, Herr, Hld, Hlog, Hpa, Hpn, Hpl.
    split; [exact Hpl|]. split; [exact Herr|]. split; [exact Hld|]. split; [exact Hpn|].
    split; [exact Hs|]. apply issued_app. exact Hlog.
Qed.

(** X23: An answer that reads [completed] but names no task and no error: the
    status is recorded and the interval is cleared, but nothing else
    happens: the list is not fetched again and the loading state stays as it
    was. *)
Theorem poll_completed_without_id evs i k resp data :
  let w := run evs init in
  let w' := run (evs ++ [PollResponds i]) init in
  outstanding_polls (win w) !! i = Some k ->
  srv (poll_fetch k) (outgoing (status_url (poll_id k)) GET (poll_headers k))
    = Responds resp ->
  Http.status resp <> 401%Z ->
  Http.json resp = Some data ->
  Json.status data = JString "completed" ->
  truthy (Json.task_id data) = false ->
  truthy (Json.error data) = false ->
  taskStatus (ui w') = JString "completed" /\
  loading (ui w') = loading (ui w) /\
  error (ui w') = error (ui w) /\
  programList (win w') = programList (win w) /\
  issued w w' = [] /\
  pollIntervall (ui w') = None.
Proof.
  intros w w' Hk Hsrv Hne Hjson Hst Hid Herr.
  assert (Hw' : w' = exec useEffect
                       (on_ui (set_taskStatus (JString "completed")) (answering i w))).
  { unfold w'. rewrite run_app. fold w. rewrite (poll_answer i k w Hk). f_equal.
    unfold pollTaskStatus_resume, exec, try_catch.
    rewrite (pollTaskStatus_try_answered k _ resp data Hsrv Hne Hjson), Hst, Hid, Herr.
    reflexivity. }
  match type of Hw' with _ = exec useEffect ?y =>
    destruct (useEffect_keeps_status y) as (Hs & _ & He & Hld & Hlog & _);
    destruct (useEffect_keeps_ui y) as (_ & _ & _ & Hpl & _) end.
  rewrite <- Hw' in Hs, He, Hld, Hlog, Hpl. simpl in Hs, He, Hld, Hlog, Hpl.
  split; [exact Hs|]. split; [exact Hld|]. split; [exact He|]. split; [exact Hpl|].
  split; [apply issued_same; exact Hlog|].
  destruct (pollIntervall (ui w')) as [h|] eqn:Hh; [|reflexivity].
  exfalso. assert (Hwf : wf w') by (unfold w'; apply reachable_wf).
  assert (Hcm : committed w') by (unfold w'; apply reachable_committed).
  destruct (wf_poll_armed _ Hwf _ Hh) as (a & b & Hd & _ & Hg).
  unfold committed in Hcm. rewrite Hcm in Hd. injection Hd as <- <-.
  rewrite Hs in Hg. apply andb_true_iff in Hg as [_ Hg]. discriminate.
Qed.

(** ** Conversations *)

Lemma selectedHistory_add m program prev :
  truthy program = true ->
  selectedHistory program (addToChatHistory m program prev) =
  (selectedHistory program prev ++ [m])%list.
Proof.
  intros Ht. unfold addToChatHistory. rewrite Ht. unfold selectedHistory at 1.
  rewrite lookup_insert_eq. reflexivity.
Qed.

(** X24: Adding a message under a program puts it at the end of that program's
    conversation and leaves every other conversation alone; without a
    program ([null], or the empty name) nothing is added. *)
Theorem addToChatHistory_appends m program prev :
  (truthy program = false -> addToChatHistory m program prev = prev) /\
  (truthy program = true ->
   selectedHistory program (addToChatHistory m program prev) =
     (selectedHistory program prev ++ [m])%list /\
   forall other, template other <> template program ->
     selectedHistory other (addToChatHistory m program prev) =
     selectedHistory other prev).
Proof.
  unfold addToChatHistory, selectedHistory. split; intros Ht; rewrite Ht; [reflexivity|].
  split; [rewrite lookup_insert_eq; reflexivity|].
  intros other Hne. rewrite lookup_insert_ne by congruence. reflexivity.
Qed.

(** X25: Removing a program's conversation leaves none to show for it and leaves
    the others alone; removing twice is removing once; a message added
    afterwards starts the conversation afresh, and removing after adding
    forgets what was added. *)
Theorem removeFromChatHistory_forgets m program prev :
  truthy program = true ->
  let removed := removeFromChatHistory program prev in
  selectedHistory program removed = [] /\
  (forall other, template other <> template program ->
     selectedHistory other removed = selectedHistory other prev) /\
  removeFromChatHistory program removed = removed /\
  selectedHistory program (addToChatHistory m program removed) = [m] /\
  removeFromChatHistory program (addToChatHistory m program prev) = removed.
Proof.
  intros Ht removed. unfold removed, removeFromChatHistory, addToChatHistory, selectedHistory.
  rewrite !Ht.
  split; [rewrite lookup_delete_eq; reflexivity|].
  split; [intros other Hne; rewrite lookup_delete_ne by congruence; reflexivity|].
  split; [apply delete_id, lookup_delete_eq|].
  split; [rewrite lookup_insert_eq, lookup_delete_eq; reflexivity|].
  apply delete_insert_eq.
Qed.

(** ** Asking a question *)

Lemma slice_last_length {A} n (l : list A) : length (slice_last n l) <= n.
Proof. unfold slice_last. rewrite length_drop. lia. Qed.

Lemma slice_last_suffix {A} n (l : list A) :
  l = (take (length l - n) l ++ slice_last n l)%list.
Proof. unfold slice_last. symmetry. apply take_drop. Qed.

Lemma slice_last_snoc {A} n (l : list A) x :
  exists pre, slice_last (S n) (l ++ [x]) = (pre ++ [x])%list.
Proof.
  unfold slice_last. rewrite length_app. simpl.
  replace (length l + 1 - S n) with (length l - n) by lia.
  rewrite drop_app_le by lia. eauto.
Qed.

Lemma trim_front_white back s :
  Forall (fun c => white1 c = true) (list_ascii_of_string s) ->
  trim_front back s = EmptyString.
Proof.
  induction s as [|c s IH]; intros Hall; [reflexivity|].
  simpl in Hall. apply Forall_cons in Hall as [Hc Hs]. simpl. rewrite Hc. apply IH, Hs.
Qed.

(** X26: A question made of nothing but spaces, tabs and line breaks is refused
    with a message: no call is made, no message joins the conversation and
    the form does not start loading.  While an answer is awaited, submitting
    a question again does nothing at all. *)
Theorem ChatInput_refuses selectedProgram chatHistory c :
  (Forall (fun ch => white1 ch = true) (list_ascii_of_string (ChatInput.question c)) ->
   ChatInput_handleSubmit selectedProgram chatHistory c =
   (ChatInput.setError "Please enter a question" c, chatHistory, None)) /\
  (trim (ChatInput.question c) <> EmptyString -> ChatInput.loading c = true ->
   ChatInput_handleSubmit selectedProgram chatHistory c = (c, chatHistory, None)).
Proof.
  unfold ChatInput_handleSubmit. split.
  - intros Hall. unfold trim, trimEnd, trimStart.
    rewrite (trim_front_white false _ Hall). reflexivity.
  - intros Hq ->. destruct (String.eqb_spec (trim (ChatInput.question c)) "");
      [contradiction | reflexivity].
Qed.

Lemma read_history_conversation program chatHistory :
  is_Some (chatHistory !! template program) \/
  Object_prototype !! template program = None ->
  read_history program chatHistory = Conversation (selectedHistory program chatHistory).
Proof.
  unfold read_history, selectedHistory. intros [[l Hl]|Hn].
  - rewrite Hl. reflexivity.
  - rewrite Hn. destruct (chatHistory !! template program); reflexivity.
Qed.

(** X27: A question that goes ahead for a program that has a conversation, or
    whose name is none that [Object.prototype] defines, is sent with the
    conversation so far, cut to the last six messages, the question
    included and last; the messages go out without their keys, and the call
    goes to the chat address of the selected program.  For a program
    without a conversation whose name [Object.prototype] defines
    ([toString], [__proto__], ...) nothing is sent: the question joins the
    conversations, an error is shown and the form is ready again. *)
Theorem ChatInput_sends_last_six selectedProgram chatHistory c :
  trim (ChatInput.question c) <> EmptyString ->
  ChatInput.loading c = false ->
  let history := selectedHistory selectedProgram chatHistory in
  let asked := {| Chat.role := "user"; Chat.content := trim (ChatInput.question c);
                  Chat.key := None |} in
  (is_Some (chatHistory !! template selectedProgram) \/
   Object_prototype !! template selectedProgram = None ->
   exists c' chatHistory' k,
     ChatInput_handleSubmit selectedProgram chatHistory c = (c', chatHistory', Some k) /\
     ChatInput.loading c' = true /\
     call_url k = API_BASE_URL +:+ "/chat/" +:+ template selectedProgram /\
     length (call_messages k) <= 6 /\
     (exists earlier, call_messages k = (earlier ++ [asked])%list) /\
     (exists dropped,
        (map Chat.strip history ++ [asked])%list = (dropped ++ call_messages k)%list /\
        length dropped = length history + 1 - 6) /\
     Forall (fun m => Chat.key m = None) (call_messages k)) /\
  (chatHistory !! template selectedProgram = None ->
   is_Some (Object_prototype !! template selectedProgram) ->
   exists chatHistory',
     ChatInput_handleSubmit selectedProgram chatHistory c =
       ({| ChatInput.question := ChatInput.question c;
           ChatInput.error := "An error occurred while processing your question.";
           ChatInput.loading := false |}, chatHistory', None) /\
     (truthy selectedProgram = true ->
      map Chat.strip (selectedHistory selectedProgram chatHistory') = [asked])).
Proof.
  intros Hq Hl history asked. unfold ChatInput_handleSubmit.
  destruct (String.eqb_spec (trim (ChatInput.question c)) ""); [contradiction|].
  rewrite Hl. split.
  - intros Hown. rewrite (read_history_conversation _ _ Hown). cbv zeta. fold history.
    set (requestMessage := {| Chat.role := "user";
                              Chat.content := trim (ChatInput.question c);
                              Chat.key := Some (length history + 1) |}).
    eexists _, _, _. split; [reflexivity|]. split; [reflexivity|].
    split; [reflexivity|]. cbn [call_messages].
    split; [rewrite length_map; apply slice_last_length|].
    split.
    { destruct (slice_last_snoc 5 history requestMessage) as (pre & ->).
      exists (map Chat.strip pre). rewrite map_app. reflexivity. }
    split.
    { exists (map Chat.strip (take (length (history ++ [requestMessage]) - 6)
                                (history ++ [requestMessage]))).
      split.
      - rewrite <- map_app, <- slice_last_suffix, map_app. reflexivity.
      - rewrite length_map, length_take, length_app. simpl. lia. }
    apply Forall_map. apply Forall_forall. intros; reflexivity.
  - intros Hnone [len Hlen]. unfold read_history. rewrite Hnone, Hlen. cbv zeta.
    eexists. split; [reflexivity|].
    intros Ht. rewrite selectedHistory_add by exact Ht.
    unfold selectedHistory. rewrite Hnone. reflexivity.
Qed.

Lemma keys_in_order_snoc l m :
  keys_in_order l -> Chat.key m = Some (length l + 1) -> keys_in_order (l ++ [m]).
Proof.
  unfold keys_in_order. intros Hl Hm.
  rewrite map_app, length_app, Hl. simpl. rewrite Hm.
  rewrite seq_app, map_app. simpl. rewrite Nat.add_comm. reflexivity.
Qed.

(** X28: A question is asked of a selected program whose conversation has its
    keys in order; the program has a conversation already, or its name is
    none that [Object.prototype] defines.  The question joins the
    conversation at once under the next key.  When the reply arrives it follows under the key after that,
    the keys stay in order, the question field is cleared and the form is
    ready again.  When the exchange fails the question stays in the
    conversation and in its field, an error is shown and the form is ready
    again. *)
Theorem ChatInput_exchange selectedProgram chatHistory c reply :
  truthy selectedProgram = true ->
  is_Some (chatHistory !! template selectedProgram) \/
  Object_prototype !! template selectedProgram = None ->
  trim (ChatInput.question c) <> EmptyString ->
  ChatInput.loading c = false ->
  let history := selectedHistory selectedProgram chatHistory in
  keys_in_order history ->
  let asked := {| Chat.role := "user"; Chat.content := trim (ChatInput.question c);
                  Chat.key := Some (length history + 1) |} in
  exists c1 h1 k,
    ChatInput_handleSubmit selectedProgram chatHistory c = (c1, h1, Some k) /\
    selectedHistory selectedProgram h1 = (history ++ [asked])%list /\
    let answered := ChatInput_handleSubmit_resume selectedProgram k (Some reply) h1 c1 in
    let failed := ChatInput_handleSubmit_resume selectedProgram k None h1 c1 in
    selectedHistory selectedProgram answered.2 =
      (history ++ [asked; Chat.with_key (length history + 2) reply])%list /\
    keys_in_order (selectedHistory selectedProgram answered.2) /\
    answered.1 = {| ChatInput.question := EmptyString; ChatInput.error := EmptyString;
                    ChatInput.loading := false |} /\
    selectedHistory selectedProgram failed.2 = (history ++ [asked])%list /\
    keys_in_order (selectedHistory selectedProgram failed.2) /\
    failed.1 = {| ChatInput.question := ChatInput.question c;
                  ChatInput.error := "An error occurred while processing your question.";
                  ChatInput.loading := false |}.
Proof.
  intros Ht Hown Hq Hl history Hkeys asked. unfold ChatInput_handleSubmit.
  destruct (String.eqb_spec (trim (ChatInput.question c)) ""); [contradiction|].
  rewrite Hl, (read_history_conversation _ _ Hown). cbv zeta. fold history. fold asked.
  eexists _, _, _. split; [reflexivity|].
  pose proof (selectedHistory_add asked selectedProgram chatHistory Ht) as Hh1.
  fold history in Hh1.
  split; [exact Hh1|].
  cbn [ChatInput_handleSubmit_resume call_key fst snd].
  set (h1 := addToChatHistory asked selectedProgram chatHistory) in *.
  set (answer := Chat.with_key (length history + 1 + 1) reply).
  pose proof (selectedHistory_add answer selectedProgram h1 Ht) as Hh2.
  rewrite Hh1 in Hh2.
  assert (Hk1 : keys_in_order (history ++ [asked]))
    by (apply keys_in_order_snoc; [exact Hkeys | reflexivity]).
  split.
  { rewrite Hh2, <- app_assoc. unfold answer.
    replace (length history + 1 + 1) with (length history + 2) by lia. reflexivity. }
  split.
  { rewrite Hh2. apply keys_in_order_snoc; [exact Hk1|].
    unfold answer. simpl. rewrite length_app. reflexivity. }
  split; [reflexivity|]. split; [exact Hh1|]. split; [rewrite Hh1; exact Hk1|].
  reflexivity.
Qed.

(** ** Messages shown as text *)

Lemma tag_rest_spec seen s :
  tag_rest seen s = true <->
  exists b rest, s = b +:+ String ">" rest /\
                 (seen = true \/ b <> EmptyString) /\
                 (forall c, In c (list_ascii_of_string b) -> c <> ">"%char).
Proof.
  revert seen. induction s as [|c s IH]; intros seen; simpl.
  - split; [discriminate|]. intros (b & rest & Hs & _). destruct b; discriminate.
  - destruct (Ascii.eqb_spec c ">") as [->|Hc].
    + split.
      * intros ->. exists EmptyString, s. split; [reflexivity|]. split; [left; reflexivity|].
        intros c [].
      * intros (b & rest & Hs & Hseen & Hno). destruct b as [|c' b].
        -- destruct Hseen as [-> | Hb]; [reflexivity | contradiction].
        -- simpl in Hs. injection Hs as <- _. exfalso. apply (Hno ">"%char); [|reflexivity].
           left. reflexivity.
    + rewrite IH. split.
      * intros (b & rest & -> & _ & Hno). exists (String c b), rest.
        split; [reflexivity|]. split; [right; discriminate|].
        intros c' [<- | Hin]; [exact Hc | apply Hno, Hin].
      * intros (b & rest & Hs & _ & Hno). destruct b as [|c' b].
        -- simpl in Hs. injection Hs as -> _. contradiction.
        -- simpl in Hs. injection Hs as <- ->. exists b, rest.
           split; [reflexivity|]. split; [left; reflexivity|].
           intros c' Hin. apply Hno. right. exact Hin.
Qed.

(** X29: A message counts as HTML exactly when it holds a [<], then at least one
    character, none of them a [>], then a [>]; every other message takes the
    plain-text path.  So a text without [<], or without [>], is shown as
    text. *)
Theorem looksLikeHtml_spec content :
  looksLikeHtml content = true <->
  exists a b rest,
    content = a +:+ String "<" (b +:+ String ">" rest) /\
    b <> EmptyString /\
    (forall c, In c (list_ascii_of_string b) -> c <> ">"%char).
Proof.
  induction content as [|c s IH].
  - simpl. split; [discriminate|]. intros (a & b & rest & Hs & _). destruct a; discriminate.
  - cbn [looksLikeHtml]. rewrite orb_true_iff, IH. unfold tag_here.
    rewrite andb_true_iff, tag_rest_spec. split.
    + intros [[Hc (b & rest & -> & Hseen & Hno)] | (a & b & rest & -> & Hb & Hno)].
      * apply Ascii.eqb_eq in Hc as ->. exists EmptyString, b, rest.
        split; [reflexivity|]. split; [|exact Hno].
        destruct Hseen as [? | ?]; [discriminate | assumption].
      * exists (String c a), b, rest. split; [reflexivity|]. split; assumption.
    + intros (a & b & rest & Hs & Hb & Hno). destruct a as [|c' a].
      * simpl in Hs. injection Hs as -> ->. left. split; [reflexivity|].
        exists b, rest. split; [reflexivity|]. split; [right; exact Hb | exact Hno].
      * simpl in Hs. injection Hs as <- ->. right. exists a, b, rest.
        split; [reflexivity|]. split; assumption.
Qed.
End Client.

(** ** Scenarios *)

(** C1, as stated, fails: every request is answered 401, so the response to
    the resend after a successful refresh is still 401; that response is
    handed to the caller, and no logout is started, no redirect happens and
    the refreshed token stays in place. *)
Lemma apiRequest_second_401_no_logout :
  let w := run "/api" srv_unauthorized [Login "u" "p"] init in
  let m := apiRequest "/api" srv_unauthorized "/program/list" GET in
  eval m w = Return {| Http.status := 401; Http.json := None |} /\
  length (by_origin ByRequest (issued w (exec m w))) = 2 /\
  by_origin ByLogout (fetch_log (win (exec m w))) = [] /\
  logout_calls (win (exec m w)) = 0 /\
  detached_logouts (win (exec m w)) = [] /\
  location_href (win (exec m w)) = None /\
  accessToken (auth (exec m w)) = JString "t2".
Proof. vm_compute. repeat split; reflexivity. Qed.

(** The same run, through the theorem: the first answer is 401, this call
    starts the one refresh, the refresh succeeds, and the answer to the
    resend is what the caller gets, with nobody logged out. *)
Lemma apiRequest_retries_once_witness :
  let w := run "/api" srv_unauthorized [Login "u" "p"] init in
  let m := apiRequest "/api" srv_unauthorized "/program/list" GET in
  let req1 := outgoing "/api" "/program/list" GET (authorized w (headers GET)) in
  srv_unauthorized (length (fetch_log (win w))) req1 = answer 401 None /\
  Http.status {| Http.status := 401; Http.json := None |} = 401%Z /\
  by_origin ByRefresh (issued w (exec m w)) = [refresh_request "/api"] /\
  accessToken (auth (exec m w)) = JString "t2" /\
  eval m w = Return {| Http.status := 401; Http.json := None |} /\
  logout_calls (win (exec m w)) = logout_calls (win w) /\
  location_href (win (exec m w)) = location_href (win w).
Proof.
  split; [reflexivity|]. split; [reflexivity|].
  pose proof (apiRequest_retries_once "/api" srv_unauthorized "/program/list" GET
                (run "/api" srv_unauthorized [Login "u" "p"] init)
                {| Http.status := 401; Http.json := None |} eq_refl eq_refl) as H.
  vm_compute in H. vm_compute.
  destruct H as (Href & _ & Htok & _ & Hret & _ & Hcalls & Hhref).
  split; [exact Href|]. split; [exact (eq_sym (Htok eq_refl))|].
  split; [exact Hret|]. split; [exact Hcalls | exact Hhref].
Defined.

(** C3, as stated, fails at [expires_in = 301]: the timer is armed with
    241000 ms, while the specification's formula gives 240800 ms. *)
Lemma login_delay_301_not_spec :
  let w := exec (login "/api" (srv_expiry 301) "u" "p") init in
  exists t tm,
    tokenRefreshTimeout (auth w) = Some t /\
    timers (win w) !! t = Some tm /\
    tm_delay tm = 241000%Z /\
    spec_refresh_delay_ms 301 = 240800%Z /\
    tm_delay tm <> spec_refresh_delay_ms 301.
Proof.
  exists 1%positive. eexists. vm_compute.
  split; [reflexivity|]. split; [reflexivity|]. split; [reflexivity|].
  split; [reflexivity | discriminate].
Qed.

(** A login whose response reports 1800 seconds: the refresh is due after
    1440 seconds. *)
Lemma login_schedules_refresh_witness :
  let w := exec (login "/api" (srv_expiry 1800) "u" "p") init in
  srv_expiry 1800 0 (login_request "/api" "u" "p") =
    answer 200 (Some (Json.token "t1" 1800)) /\
  (1800 <> 0)%Z /\
  accessToken (auth w) = JString "t1" /\
  refreshIn 1800 = (1440 * 1000)%Z.
Proof.
  split; [reflexivity|]. split; [discriminate|].
  pose proof (login_schedules_refresh "/api" (srv_expiry 1800) "u" "p" init
                {| Http.status := 200; Http.json := Some (Json.token "t1" 1800) |}
                (Json.token "t1" 1800) 1800%Z eq_refl eq_refl eq_refl eq_refl
                ltac:(discriminate)) as (_ & Htok & _ & H1800 & _).
  split; [exact Htok | exact (H1800 eq_refl)].
Defined.

(** Before any login: the first request goes out with no header at all. *)
Lemma apiRequest_without_token_witness :
  accessToken (auth init) = JNull /\
  fetch_log (win (exec (apiRequest "/api" (srv_expiry 1800) "/program/list" GET) init)) !! 0
  = Some (outgoing "/api" "/program/list" GET ∅).
Proof.
  split; [reflexivity|].
  exact (proj1 (apiRequest_without_token "/api" (srv_expiry 1800) "/program/list" GET
                  init eq_refl)).
Defined.

(** After a login the handle holds timer 1; rescheduling takes it out of
    the table and leaves one refresh timer. *)
Lemma scheduleTokenRefresh_cancels_then_arms_witness :
  let w := run "/api" (srv_expiry 1800) [Login "u" "p"] init in
  let w' := exec (scheduleTokenRefresh 5000) w in
  tokenRefreshTimeout (auth w) = Some 1%positive /\
  timers (win w') !! 1%positive = None /\
  size (refresh_timers w') = 1.
Proof.
  cbv zeta. split; [reflexivity|].
  pose proof (scheduleTokenRefresh_cancels_then_arms "/api" (srv_expiry 1800)
                [Login "u" "p"] 5000) as (_ & _ & _ & Hold & _ & Hone).
  split; [exact (Hold 1%positive eq_refl) | exact Hone].
Defined.

(** Three callers before any response: one promise, one refresh call; when
    the response arrives the promise is fulfilled with the token then
    held. *)
Lemma refresh_single_flight_witness :
  let srv := srv_expiry 1800 in
  let w' := exec (concurrent_calls "/api" 3) init in
  let w'' := exec (refresh_responds "/api" srv 1) w' in
  promises (win w') !! 1%positive = Some (Pending 0) /\
  length (by_origin ByRefresh (issued init w')) = 1 /\
  match promises (win w'') !! 1%positive with
  | Some (Fulfilled data) => accessToken (auth w'') = Json.access_token data
  | Some (Rejected e) => True
  | _ => False
  end.
Proof.
  cbv zeta. split; [reflexivity|].
  destruct (refresh_single_flight "/api" (srv_expiry 1800) [] 2)
    as (_ & _ & p & _ & Hm & Hreq & Hsettle).
  assert (Hp : p = 1%positive) by (vm_compute in Hm; congruence).
  subst p.
  split; [change (run "/api" (srv_expiry 1800) [] init) with init in Hreq;
          rewrite Hreq; reflexivity|].
  exact (Hsettle 0 eq_refl).
Defined.

(** C5 at the failing input: the refresh [fetch] itself is rejected.  The
    promise is rejected with the network error, and the in-flight marker
    still points to it.  After a later login, the proactive refresh gets the
    stale rejection back without any new refresh call, and the session is
    logged out. *)
Lemma refresh_network_failure_keeps_marker :
  let w := run "/api" srv_refresh_offline [RefreshCalled; RefreshResponds 1] init in
  let w' := run "/api" srv_refresh_offline [Login "u" "p"; TimerFires 1] w in
  promises (win w) !! 1%positive = Some (Rejected (TypeError "Failed to fetch")) /\
  _refreshPromise (auth w) = Some 1%positive /\
  eval (refreshAccessToken "/api") w = Return 1%positive /\
  fetch_log (win (exec (refreshAccessToken "/api") w)) = fetch_log (win w) /\
  length (by_origin ByRefresh (fetch_log (win w'))) = 1 /\
  logout_calls (win w') = 1 /\
  location_href (win w') = Some "/login".
Proof. vm_compute. repeat split; reflexivity. Qed.

(** C4, as stated, fails: the status lookup cannot be reached.  The error is
    surfaced and the loading state reset, but the status stays [processing]
    and the interval stays armed: the next tick sends another status
    request. *)
Lemma poll_network_failure_keeps_polling :
  let srv := srv_tasks (fun _ => NetworkFailure) in
  let submit := [FileChosen (Some "a.pdf"); ProgramNameTyped "a"; ProgramSubmitted] in
  let w1 := run "/api" srv (submit ++ [PollResponds 0]) init in
  let w2 := run "/api" srv [TimerFires 1] w1 in
  error (ui w1) = JString "Failed to check Program status: Failed to fetch" /\
  loading (ui w1) = false /\
  taskStatus (ui w1) = JString "processing" /\
  timers (win w1) !! 1%positive =
    Some {| tm_callback := PollCallback (JString "j1"); tm_delay := 5000;
            tm_repeat := true |} /\
  polling_active w1 /\
  issued w1 w2 = [outgoing "/api" "/api/tasks/j1" GET ∅].
Proof.
  cbv zeta. split; [vm_compute; reflexivity|]. split; [vm_compute; reflexivity|].
  split; [vm_compute; reflexivity|]. split; [vm_compute; reflexivity|].
  split; [|vm_compute; reflexivity].
  exists 1%positive. eexists. split; vm_compute; reflexivity.
Qed.

(** The same run, through the theorem: status and interval are those from
    before the failed request. *)
Lemma poll_error_keeps_polling_witness :
  let srv := srv_tasks (fun _ => NetworkFailure) in
  let submit := [FileChosen (Some "a.pdf"); ProgramNameTyped "a"; ProgramSubmitted] in
  let k := {| poll_id := JString "j1"; poll_headers := ∅; poll_fetch := 2 |} in
  let w := run "/api" srv submit init in
  let w1 := run "/api" srv (submit ++ [PollResponds 0]) init in
  outstanding_polls (win w) !! 0 = Some k /\
  eval (bind (after_first_fetch "/api" srv (status_url "/api" (poll_id k)) GET
                (poll_headers k) (poll_fetch k)) (json))
       (answering 0 w) = Throw (TypeError "Failed to fetch") /\
  response_status (TypeError "Failed to fetch") <> Some 404%Z /\
  taskStatus (ui w1) = taskStatus (ui w) /\
  pollIntervall (ui w1) = pollIntervall (ui w).
Proof.
  cbv zeta. split; [vm_compute; reflexivity|]. split; [vm_compute; reflexivity|].
  split; [discriminate|].
  pose proof (poll_error_keeps_polling "/api" (srv_tasks (fun _ => NetworkFailure))
                [FileChosen (Some "a.pdf"); ProgramNameTyped "a"; ProgramSubmitted]
                0 {| poll_id := JString "j1"; poll_headers := ∅; poll_fetch := 2 |}
                (TypeError "Failed to fetch")
                ltac:(vm_compute; reflexivity) ltac:(vm_compute; reflexivity)
                ltac:(discriminate)) as (_ & _ & _ & Hst & Hpi & _).
  split; [exact Hst | exact Hpi].
Defined.



(** C7 at the failing input: the status lookup is answered 404 with a body
    that has no [status] field.  [apiRequest] hands the response back, so
    the [catch] never sees it: the status becomes [undefined], and although
    no error is recorded, the interval that was polling is cleared and
    later ticks send nothing.  The loading state is never reset. *)
Lemma poll_404_stops_polling :
  let srv := srv_tasks (fun _ => answer 404 (Some Json.empty)) in
  let submit := [FileChosen (Some "a.pdf"); ProgramNameTyped "a"; ProgramSubmitted] in
  let w0 := run "/api" srv submit init in
  let w1 := run "/api" srv [PollResponds 0] w0 in
  let w2 := run "/api" srv [TimerFires 1; TimerFires 1] w1 in
  srv 2 (outgoing "/api" "/api/tasks/j1" GET ∅) = answer 404 (Some Json.empty) /\
  polling_active w0 /\
  taskId (ui w1) = JString "j1" /\
  taskStatus (ui w1) = JUndefined /\
  error (ui w1) = JNull /\
  loading (ui w1) = true /\
  timers (win w1) = ∅ /\
  ~ polling_active w1 /\
  issued w1 w2 = [].
Proof.
  cbv zeta. split; [vm_compute; reflexivity|].
  split; [exists 1%positive; eexists; split; vm_compute; reflexivity|].
  split; [vm_compute; reflexivity|]. split; [vm_compute; reflexivity|].
  split; [vm_compute; reflexivity|]. split; [vm_compute; reflexivity|].
  assert (Ht : timers (win (run "/api" (srv_tasks (fun _ => answer 404 (Some Json.empty)))
                 [PollResponds 0]
                 (run "/api" (srv_tasks (fun _ => answer 404 (Some Json.empty)))
                    [FileChosen (Some "a.pdf"); ProgramNameTyped "a"; ProgramSubmitted]
                    init)))
               = ∅) by (vm_compute; reflexivity).
  split; [exact Ht|]. split; [|vm_compute; reflexivity].
  intros (t & tm & Hl & _). rewrite Ht, lookup_empty in Hl. discriminate.
Qed.

(** A run in which the tracker reaches [completed]: the job is submitted in
    [processing], the answer to the first request still reads [processing],
    the answer to the request of the first tick reads [completed]; the list
    is reloaded, the interval is gone, and later ticks send nothing. *)
Example tracker_reaches_completed :
  let srv := srv_tasks (fun n => if (n <? 3)%nat
                                 then answer 200 (Some (Json.task "j1" "processing"))
                                 else answer 200 (Some (Json.task "j1" "completed"))) in
  let submit := [FileChosen (Some "a.pdf"); ProgramNameTyped "a"; ProgramSubmitted] in
  let w1 := run "/api" srv (submit ++ [PollResponds 0; TimerFires 1]) init in
  let w2 := run "/api" srv [PollResponds 0] w1 in
  let w3 := run "/api" srv [TimerFires 1; PollResponds 0; TimerFires 2] w2 in
  taskStatus (ui w1) = JString "processing" /\
  pollIntervall (ui w1) = Some 1%positive /\
  taskStatus (ui w2) = JString "completed" /\
  loading (ui w2) = false /\
  programList (win w2) = ["a"] /\
  timers (win w2) = ∅ /\
  outstanding_polls (win w2) = [] /\
  issued w2 w3 = [].
Proof. vm_compute. repeat split; reflexivity. Qed.

(** *** The rest of the client, at work *)

(** A path, an address under the base, and an absolute address. *)
Lemma resolve_idempotent_witness :
  resolve "/api" "/api/program/list" = "/api/program/list" /\
  resolve "/api" "HTTPS://example.org/x" = "HTTPS://example.org/x" /\
  resolve "/api" "tasks/j1" = "/api/tasks/j1" /\
  resolve "/api" (resolve "/api" "tasks/j1") = resolve "/api" "tasks/j1".
Proof.
  destruct (resolve_idempotent "/api" "/api/program/list") as (_ & _ & H1).
  destruct (resolve_idempotent "/api" "HTTPS://example.org/x") as (_ & _ & H2).
  destruct (resolve_idempotent "/api" "tasks/j1") as (H3 & _).
  split; [exact (H1 (or_intror eq_refl))|]. split; [exact (H2 (or_introl eq_refl))|].
  split; [reflexivity | exact H3].
Defined.

(** A request answered 500 is handed back as it is. *)
Lemma apiRequest_hands_back_witness :
  let srv := srv_always (answer 500 None) in
  eval (apiRequest "/api" srv "/program/list" GET) init =
    Return {| Http.status := 500; Http.json := None |} /\
  logout_calls (win (exec (apiRequest "/api" srv "/program/list" GET) init)) = 0.
Proof.
  cbv zeta.
  pose proof (apiRequest_hands_back "/api" (srv_always (answer 500 None))
                "/program/list" GET init ltac:(vm_compute; discriminate))
    as (Hev & _ & _ & _ & Hc & _).
  split; [exact Hev | exact Hc].
Defined.

(** A login that is answered 401. *)
Lemma login_failure_keeps_session_witness :
  let srv := srv_always (answer 401 None) in
  eval (login "/api" srv "u" "p") init = Throw (Error "Login failed") /\
  auth (exec (login "/api" srv "u" "p") init) = auth init.
Proof.
  cbv zeta. split; [reflexivity|].
  exact (proj1 (login_failure_keeps_session "/api" (srv_always (answer 401 None))
                  "u" "p" init (Error "Login failed") eq_refl)).
Defined.

(** A login answered with a token and no expiry. *)
Lemma login_default_expiry_witness :
  let data := {| Json.access_token := JString "t1"; Json.expires_in := None;
                 Json.task_id := JUndefined; Json.status := JUndefined;
                 Json.error := JUndefined; Json.programs := None |} in
  let srv := srv_always (answer 200 (Some data)) in
  let w' := exec (login "/api" srv "u" "p") init in
  exists t, tokenRefreshTimeout (auth w') = Some t /\
            timers (win w') !! t =
            Some {| tm_callback := RefreshCallback; tm_delay := 1440000;
                    tm_repeat := false |}.
Proof.
  cbv zeta.
  exact (login_default_expiry "/api"
           (srv_always
              (answer 200
                 (Some {| Json.access_token := JString "t1"; Json.expires_in := None;
                          Json.task_id := JUndefined; Json.status := JUndefined;
                          Json.error := JUndefined; Json.programs := None |})))
           "u" "p" init
           {| Http.status := 200;
              Http.json :=
                Some {| Json.access_token := JString "t1"; Json.expires_in := None;
                        Json.task_id := JUndefined; Json.status := JUndefined;
                        Json.error := JUndefined; Json.programs := None |} |}
           {| Json.access_token := JString "t1"; Json.expires_in := None;
              Json.task_id := JUndefined; Json.status := JUndefined;
              Json.error := JUndefined; Json.programs := None |}
           eq_refl eq_refl eq_refl (or_introl eq_refl)).
Defined.

(** A token good for 45 seconds: the refresh is due at once. *)
Lemma login_refresh_margin_witness :
  let srv := srv_expiry 45 in
  let w' := exec (login "/api" srv "u" "p") init in
  exists t tm,
    tokenRefreshTimeout (auth w') = Some t /\
    timers (win w') !! t = Some tm /\
    (tm_delay tm <= 0)%Z.
Proof.
  cbv zeta.
  destruct (login_refresh_margin "/api" (srv_expiry 45) "u" "p" init
              {| Http.status := 200; Http.json := Some (Json.token "t1" 45) |}
              (Json.token "t1" 45)
              eq_refl eq_refl eq_refl) as (t & tm & Ht & Htm & _ & _ & _ & Hnow).
  exists t, tm. split; [exact Ht|]. split; [exact Htm|].
  apply Hnow. vm_compute. discriminate.
Defined.

(** The refresh timer of a login comes due and the refresh is answered. *)
Lemma refresh_success_rearms_witness :
  let srv := srv_unauthorized in
  let w := run "/api" srv [Login "u" "p"; TimerFires 1] init in
  let w' := exec (refresh_responds "/api" srv 1) w in
  promises (win w) !! 1%positive = Some (Pending 1) /\
  accessToken (auth w) = JString "t1" /\
  accessToken (auth w') = JString "t2" /\
  _refreshPromise (auth w') = None.
Proof.
  cbv zeta. split; [vm_compute; reflexivity|]. split; [vm_compute; reflexivity|].
  pose proof (refresh_success_rearms "/api" srv_unauthorized [Login "u" "p"; TimerFires 1]
                1%positive 1
                {| Http.status := 200; Http.json := Some (Json.token "t2" 300) |}
                (Json.token "t2" 300)
                ltac:(vm_compute; reflexivity) eq_refl eq_refl eq_refl)
    as (Htok & Hm & _).
  split; [exact Htok | exact Hm].
Defined.

(** The refresh timer of a login comes due while the refresh endpoint cannot
    be reached. *)
Lemma scheduled_refresh_failure_logs_out_witness :
  let srv := srv_refresh_offline in
  let w := run "/api" srv [Login "u" "p"] init in
  let w1 := exec (refresh_timer_fires "/api") w in
  let w2 := exec (refresh_responds "/api" srv 1) w1 in
  _refreshPromise (auth w) = None /\
  eval (refresh_closure "/api" srv 1) w1 = Throw (TypeError "Failed to fetch") /\
  location_href (win w2) = Some "/login" /\
  accessToken (auth w2) = JString "t1".
Proof.
  cbv zeta. split; [reflexivity|]. split; [reflexivity|].
  pose proof (scheduled_refresh_failure_logs_out "/api" srv_refresh_offline
                [Login "u" "p"] (TypeError "Failed to fetch") eq_refl eq_refl)
    as (_ & _ & Hhref & _ & Htok & _).
  split; [exact Hhref | exact Htok].
Defined.

(** The session list is asked for and the answer is a 403 with a body. *)
Lemma getActiveSessions_ignores_status_witness :
  let srv := srv_always (answer 403 (Some Json.empty)) in
  eval (getActiveSessions "/api" srv) init = Return Json.empty.
Proof.
  cbv zeta.
  exact (proj1 (getActiveSessions_ignores_status "/api"
                  (srv_always (answer 403 (Some Json.empty))) init
                  {| Http.status := 403; Http.json := Some Json.empty |}
                  eq_refl ltac:(vm_compute; discriminate))).
Defined.

(** Logout from all devices, answered 500; and with the network down. *)
Lemma logoutAllDevices_outcome_witness :
  let w := exec (login "/api" (srv_expiry 1800) "u" "p") init in
  accessToken (auth w) = JString "t1" /\
  accessToken (auth (exec (logoutAllDevices "/api" (srv_always (answer 500 None))) w))
    = JNull /\
  accessToken (auth (exec (logoutAllDevices "/api" (srv_always NetworkFailure)) w))
    = JString "t1".
Proof.
  cbv zeta. split; [reflexivity|].
  destruct (logoutAllDevices_outcome "/api" (srv_always (answer 500 None))
              (exec (login "/api" (srv_expiry 1800) "u" "p") init)) as [Hans _].
  destruct (Hans {| Http.status := 500; Http.json := None |} eq_refl
              ltac:(vm_compute; discriminate)) as (_ & Hl & _).
  destruct (logoutAllDevices_outcome "/api" (srv_always NetworkFailure)
              (exec (login "/api" (srv_expiry 1800) "u" "p") init)) as [_ Hdown].
  destruct (Hdown eq_refl) as (_ & Hl' & _).
  split.
  - exact (f_equal (fun s => accessToken (fst s)) Hl).
  - exact (f_equal (fun s => accessToken (fst s)) Hl').
Defined.

(** Nothing was chosen yet. *)
Lemma submit_without_input_witness :
  file (ui init) = None /\
  run "/api" (srv_expiry 1800) ([] ++ [ProgramSubmitted]) init = init.
Proof.
  split; [reflexivity|].
  exact (submit_without_input "/api" (srv_expiry 1800) [] (or_introl eq_refl)).
Defined.

(** A file and a name are given and the job is accepted. *)
Lemma submit_starts_tracking_witness :
  let srv := srv_tasks (fun _ => NetworkFailure) in
  let chosen := [FileChosen (Some "a.pdf"); ProgramNameTyped "a"] in
  let w := run "/api" srv chosen init in
  let w' := run "/api" srv (chosen ++ [ProgramSubmitted]) init in
  file (ui w) = Some "a.pdf" /\
  programName (ui w) = "a" /\
  length (issued w w') = 3 /\
  taskId (ui w') = JString "j1" /\
  taskStatus (ui w') = JString "processing" /\
  polling_active w'.
Proof.
  cbv zeta. split; [reflexivity|]. split; [reflexivity|].
  pose proof (submit_starts_tracking "/api" (srv_tasks (fun _ => NetworkFailure))
                [FileChosen (Some "a.pdf"); ProgramNameTyped "a"] "a.pdf"
                {| Http.status := 200; Http.json := Some (Json.task "j1" "processing") |}
                (Json.task "j1" "processing")
                eq_refl ltac:(vm_compute; discriminate) ltac:(vm_compute; discriminate)
                ltac:(vm_compute; reflexivity) ltac:(vm_compute; discriminate) eq_refl)
    as (Hlog & Hid & Hst & _ & _ & Hact).
  split; [rewrite Hlog; reflexivity|]. split; [exact Hid|]. split; [exact Hst|].
  apply Hact. split; reflexivity.
Defined.

(** A file and a name are given while the network is down. *)
Lemma submit_rejected_witness :
  let srv := srv_always NetworkFailure in
  let chosen := [FileChosen (Some "a.pdf"); ProgramNameTyped "a"] in
  let w := run "/api" srv chosen init in
  let w' := run "/api" srv (chosen ++ [ProgramSubmitted]) init in
  file (ui w) = Some "a.pdf" /\
  error (ui w') = JString "Failed to fetch" /\
  loading (ui w') = false /\
  taskId (ui w') = JNull.
Proof.
  cbv zeta. split; [reflexivity|].
  pose proof (submit_rejected "/api" (srv_always NetworkFailure)
                [FileChosen (Some "a.pdf"); ProgramNameTyped "a"] "a.pdf"
                (TypeError "Failed to fetch")
                eq_refl ltac:(vm_compute; discriminate) I
                (or_introl (conj eq_refl eq_refl)))
    as (_ & Herr & Hld & Hv).
  split; [exact Herr|]. split; [exact Hld|].
  exact (f_equal (fun v => v.1.1.1.1) Hv).
Defined.

(** A program with a conversation is deleted: the job is accepted; and the
    same with the network down. *)
Lemma delete_drops_conversation_witness :
  let hello := {| Chat.role := "user"; Chat.content := "hello"; Chat.key := Some 1 |} in
  let chats : chat_history := {[ "a" := [hello] ]} in
  eval (handleDeleteProgram_history "/api"
          (srv_always (answer 200 (Some (Json.task "j2" "processing")))) "a" chats) init
    = Return (removeFromChatHistory (JString "a") chats) /\
  selectedHistory (JString "a") (removeFromChatHistory (JString "a") chats) = [] /\
  eval (handleDeleteProgram_history "/api" (srv_always NetworkFailure) "a" chats) init
    = Return chats.
Proof.
  cbv zeta.
  destruct (delete_drops_conversation "/api"
              (srv_always (answer 200 (Some (Json.task "j2" "processing")))) "a"
              {[ "a" := [{| Chat.role := "user"; Chat.content := "hello";
                            Chat.key := Some 1 |}] ]} init) as (_ & Hacc & _).
  destruct (Hacc {| Http.status := 200; Http.json := Some (Json.task "j2" "processing") |}
              (Json.task "j2" "processing") eq_refl ltac:(vm_compute; discriminate) eq_refl)
    as (Hev & Hgone & _).
  destruct (delete_drops_conversation "/api" (srv_always NetworkFailure) "a"
              {[ "a" := [{| Chat.role := "user"; Chat.content := "hello";
                            Chat.key := Some 1 |}] ]} init) as (_ & _ & Hrej).
  destruct (Hrej (or_introl eq_refl)) as (Hev' & _).
  split; [exact Hev|]. split; [apply Hgone; discriminate | exact Hev'].
Defined.

(** A listing arrives; and an answer without a [programs] field. *)
Lemma getProgramList_outcome_witness :
  programList (win (exec (getProgramList "/api"
                            (srv_always (answer 200 (Some (Json.listing ["a"; "b"])))))
                      init)) = ["a"; "b"] /\
  programList (win (exec (getProgramList "/api"
                            (srv_always (answer 404 (Some Json.empty)))) init)) = [].
Proof.
  destruct (getProgramList_outcome "/api"
              (srv_always (answer 200 (Some (Json.listing ["a"; "b"])))) init) as [Hok _].
  destruct (Hok {| Http.status := 200; Http.json := Some (Json.listing ["a"; "b"]) |}
              (Json.listing ["a"; "b"]) ["a"; "b"]
              eq_refl ltac:(vm_compute; discriminate) eq_refl eq_refl) as (_ & Hl & _).
  destruct (getProgramList_outcome "/api" (srv_always (answer 404 (Some Json.empty))) init)
    as [_ Hbad].
  destruct Hbad as (_ & Hl' & _).
  { right. exists {| Http.status := 404; Http.json := Some Json.empty |}.
    split; [reflexivity|]. split; [vm_compute; discriminate|].
    right. exists Json.empty. split; reflexivity. }
  split; [exact Hl | exact Hl'].
Defined.


(** The first status request of a job is answered [completed]. *)
Lemma poll_completed_reloads_list_witness :
  let srv := srv_tasks (fun _ => answer 200 (Some (Json.task "j1" "completed"))) in
  let submit := [FileChosen (Some "a.pdf"); ProgramNameTyped "a"; ProgramSubmitted] in
  let w := run "/api" srv submit init in
  let w' := run "/api" srv (submit ++ [PollResponds 0]) init in
  programList (win w) = [] /\
  programList (win w') = ["a"] /\
  loading (ui w') = false /\
  programName (ui w') = EmptyString.
Proof.
  cbv zeta. split; [vm_compute; reflexivity|].
  destruct (poll_completed_reloads_list "/api"
              (srv_tasks (fun _ => answer 200 (Some (Json.task "j1" "completed"))))
              [FileChosen (Some "a.pdf"); ProgramNameTyped "a"; ProgramSubmitted]
              0 {| poll_id := JString "j1"; poll_headers := ∅; poll_fetch := 2 |}
              {| Http.status := 200; Http.json := Some (Json.task "j1" "completed") |}
              (Json.task "j1" "completed")
              ltac:(vm_compute; reflexivity) ltac:(vm_compute; reflexivity)
              ltac:(vm_compute; discriminate) eq_refl eq_refl eq_refl)
    as [Hok _].
  destruct (Hok {| Http.status := 200; Http.json := Some (Json.listing ["a"]) |}
              (Json.listing ["a"]) ["a"]
              ltac:(vm_compute; reflexivity) ltac:(vm_compute; discriminate)
              eq_refl eq_refl) as (Hpl & Hld & _ & Hpn & _).
  split; [exact Hpl|]. split; [exact Hld | exact Hpn].
Defined.

(** The first status request of a job is answered [completed], with nothing
    else in the body. *)
Lemma poll_completed_without_id_witness :
  let data := {| Json.access_token := JUndefined; Json.expires_in := None;
                 Json.task_id := JUndefined; Json.status := JString "completed";
                 Json.error := JUndefined; Json.programs := None |} in
  let srv := srv_tasks (fun _ => answer 200 (Some data)) in
  let submit := [FileChosen (Some "a.pdf"); ProgramNameTyped "a"; ProgramSubmitted] in
  let w' := run "/api" srv (submit ++ [PollResponds 0]) init in
  taskStatus (ui w') = JString "completed" /\
  loading (ui w') = true /\
  pollIntervall (ui w') = None.
Proof.
  cbv zeta.
  pose proof (poll_completed_without_id "/api"
                (srv_tasks (fun _ =>
                   answer 200
                     (Some {| Json.access_token := JUndefined; Json.expires_in := None;
                              Json.task_id := JUndefined;
                              Json.status := JString "completed";
                              Json.error := JUndefined; Json.programs := None |})))
                [FileChosen (Some "a.pdf"); ProgramNameTyped "a"; ProgramSubmitted]
                0 {| poll_id := JString "j1"; poll_headers := ∅; poll_fetch := 2 |}
                {| Http.status := 200;
                   Http.json :=
                     Some {| Json.access_token := JUndefined; Json.expires_in := None;
                             Json.task_id := JUndefined;
                             Json.status := JString "completed";
                             Json.error := JUndefined; Json.programs := None |} |}
                {| Json.access_token := JUndefined; Json.expires_in := None;
                   Json.task_id := JUndefined; Json.status := JString "completed";
                   Json.error := JUndefined; Json.programs := None |}
                ltac:(vm_compute; reflexivity) ltac:(vm_compute; reflexivity)
                ltac:(vm_compute; discriminate) eq_refl eq_refl eq_refl eq_refl)
    as (Hst & Hld & _ & _ & _ & Hpi).
  split; [exact Hst|]. split; [rewrite Hld; vm_compute; reflexivity | exact Hpi].
Defined.

(** A message for program "a"; and one while nothing is selected. *)
Lemma addToChatHistory_appends_witness :
  let hello := {| Chat.role := "user"; Chat.content := "hello"; Chat.key := Some 1 |} in
  selectedHistory (JString "a") (addToChatHistory hello (JString "a") ∅) = [hello] /\
  addToChatHistory hello JNull ∅ = ∅.
Proof.
  cbv zeta.
  destruct (addToChatHistory_appends
              {| Chat.role := "user"; Chat.content := "hello"; Chat.key := Some 1 |}
              (JString "a") ∅) as [_ Hadd].
  destruct (addToChatHistory_appends
              {| Chat.role := "user"; Chat.content := "hello"; Chat.key := Some 1 |}
              JNull ∅) as [Hnone _].
  split; [exact (proj1 (Hadd eq_refl)) | exact (Hnone eq_refl)].
Defined.

Lemma removeFromChatHistory_forgets_witness :
  let hello := {| Chat.role := "user"; Chat.content := "hello"; Chat.key := Some 1 |} in
  let chats : chat_history := {[ "a" := [hello; hello] ]} in
  truthy (JString "a") = true /\
  selectedHistory (JString "a") (removeFromChatHistory (JString "a") chats) = [] /\
  selectedHistory (JString "a")
    (addToChatHistory hello (JString "a") (removeFromChatHistory (JString "a") chats))
  = [hello].
Proof.
  cbv zeta. split; [reflexivity|].
  destruct (removeFromChatHistory_forgets
              {| Chat.role := "user"; Chat.content := "hello"; Chat.key := Some 1 |}
              (JString "a")
              {[ "a" := [{| Chat.role := "user"; Chat.content := "hello";
                            Chat.key := Some 1 |};
                         {| Chat.role := "user"; Chat.content := "hello";
                            Chat.key := Some 1 |}] ]} eq_refl)
    as (Hgone & _ & _ & Hfresh & _).
  split; [exact Hgone | exact Hfresh].
Defined.

(** Two spaces and a tab are no question. *)
Lemma ChatInput_refuses_witness :
  let c := {| ChatInput.question := String " " (String " " (String "009" EmptyString));
              ChatInput.error := EmptyString; ChatInput.loading := false |} in
  ChatInput_handleSubmit "/api" (JString "a") ∅ c =
  (ChatInput.setError "Please enter a question" c, ∅, None).
Proof.
  cbv zeta.
  refine (proj1 (ChatInput_refuses "/api" (JString "a") ∅ _) _).
  vm_compute. repeat constructor.
Defined.

(** The seventh message of a conversation is asked: the first stays
    behind.  The same question for a program called [toString], which has
    no conversation yet: nothing is sent. *)
Lemma ChatInput_sends_last_six_witness :
  let said n := {| Chat.role := "user"; Chat.content := "x"; Chat.key := Some n |} in
  let chats : chat_history := {[ "a" := [said 1; said 2; said 3; said 4; said 5; said 6] ]} in
  let c := {| ChatInput.question := " why? "; ChatInput.error := EmptyString;
              ChatInput.loading := false |} in
  trim (ChatInput.question c) = "why?" /\
  (exists c' chats' k,
     ChatInput_handleSubmit "/api" (JString "a") chats c = (c', chats', Some k) /\
     call_url k = "/api/chat/a" /\
     length (call_messages k) <= 6) /\
  (exists chats',
     ChatInput_handleSubmit "/api" (JString "toString") chats c =
       ({| ChatInput.question := " why? ";
           ChatInput.error := "An error occurred while processing your question.";
           ChatInput.loading := false |}, chats', None) /\
     selectedHistory (JString "toString") chats' =
       [{| Chat.role := "user"; Chat.content := "why?"; Chat.key := Some 1 |}]).
Proof.
  cbv zeta. split; [reflexivity|].
  set (chats := ({[ "a" := [{| Chat.role := "user"; Chat.content := "x"; Chat.key := Some 1 |};
                           {| Chat.role := "user"; Chat.content := "x"; Chat.key := Some 2 |};
                           {| Chat.role := "user"; Chat.content := "x"; Chat.key := Some 3 |};
                           {| Chat.role := "user"; Chat.content := "x"; Chat.key := Some 4 |};
                           {| Chat.role := "user"; Chat.content := "x"; Chat.key := Some 5 |};
                           {| Chat.role := "user"; Chat.content := "x"; Chat.key := Some 6 |}] ]}
                 : chat_history)).
  set (c := {| ChatInput.question := " why? "; ChatInput.error := EmptyString;
               ChatInput.loading := false |}).
  assert (Hq : trim (ChatInput.question c) <> EmptyString) by (vm_compute; discriminate).
  split.
  - assert (Hown : is_Some (chats !! template (JString "a")) \/
                   Object_prototype !! template (JString "a") = None)
      by (right; vm_compute; reflexivity).
    destruct (proj1 (ChatInput_sends_last_six "/api" (JString "a") chats c Hq eq_refl) Hown)
      as (c' & chats' & k & Hrun & _ & Hurl & Hlen & _).
    exists c', chats', k. split; [exact Hrun|]. split; [exact Hurl | exact Hlen].
  - assert (Hnone : chats !! template (JString "toString") = None)
      by (vm_compute; reflexivity).
    assert (Hmember : is_Some (Object_prototype !! template (JString "toString")))
      by (eexists; vm_compute; reflexivity).
    destruct (proj2 (ChatInput_sends_last_six "/api" (JString "toString") chats c Hq eq_refl)
                Hnone Hmember) as (chats' & Hrun & _).
    exists chats'. split; [exact Hrun|].
    vm_compute in Hrun. injection Hrun as <-. vm_compute. reflexivity.
Defined.

(** The first question of a conversation, and its reply. *)
Lemma ChatInput_exchange_witness :
  let c := {| ChatInput.question := "why?"; ChatInput.error := EmptyString;
              ChatInput.loading := false |} in
  let reply := {| Chat.role := "assistant"; Chat.content := "because";
                  Chat.key := None |} in
  keys_in_order (selectedHistory (JString "a") ∅) /\
  exists c1 h1 k,
    ChatInput_handleSubmit "/api" (JString "a") ∅ c = (c1, h1, Some k) /\
    selectedHistory (JString "a")
      (ChatInput_handleSubmit_resume (JString "a") k (Some reply) h1 c1).2 =
    [{| Chat.role := "user"; Chat.content := "why?"; Chat.key := Some 1 |};
     {| Chat.role := "assistant"; Chat.content := "because"; Chat.key := Some 2 |}].
Proof.
  cbv zeta. split; [reflexivity|].
  assert (Hown : is_Some ((∅ : chat_history) !! template (JString "a")) \/
                 Object_prototype !! template (JString "a") = None)
    by (right; vm_compute; reflexivity).
  assert (Hq : trim "why?" <> EmptyString) by (vm_compute; discriminate).
  destruct (ChatInput_exchange "/api" (JString "a") ∅
              {| ChatInput.question := "why?"; ChatInput.error := EmptyString;
                 ChatInput.loading := false |}
              {| Chat.role := "assistant"; Chat.content := "because"; Chat.key := None |}
              eq_refl Hown Hq eq_refl eq_refl)
    as (c1 & h1 & k & Hrun & _ & Hans & _).
  exists c1, h1, k. split; [exact Hrun | exact Hans].
Defined.


(** Wrong credentials: the form navigates all the same. *)
Lemma LoginPage_handleSubmit_always_navigates_witness :
  let srv := srv_always (answer 401 None) in
  let c := AuthContext.setLoading false AuthContext.initial in
  exists c',
    eval (LoginPage_handleSubmit "/api" srv c LoginPage.initial) init =
      Return (c', LoginPage.navigate "/" (LoginPage.setError JNull LoginPage.initial)) /\
    c' = c /\
    ProtectedRoute c' = NavigateTo "/login".
Proof.
  cbv zeta.
  destruct (LoginPage_handleSubmit_always_navigates "/api" (srv_always (answer 401 None))
              (AuthContext.setLoading false AuthContext.initial) LoginPage.initial init)
    as (c' & Hev & _ & Hfail).
  exists c'. split; [exact Hev|].
  destruct (Hfail (Error "Login failed") eq_refl) as [Hc Hr].
  split; [exact Hc | rewrite Hr; reflexivity].
Defined.

